(** * create-file-tree: a shallow embedding of the two scripts

    The repository holds two variants of one tool:
    - [create-file-tree.py]   (the first variant, module [CreateFileTree]);
    - [file-tree-maker-v5.py] (the second variant, module [FileTreeMakerV5]).

    Both walk a directory, append one line per entry to [output_lines],
    optionally condense numbered frame sequences, and post-process the
    written text file.

    Conventions of the embedding.
    - A Python [str] is a [string]; a character is the code point it
      denotes, restricted to the range 0..255 that [ascii] offers.
    - The mutable accumulator [output_lines] and the terminal are threaded
      as an explicit [state]; a Python exception that the code does not
      catch is the [Raised] outcome.
    - The file system is a finite tree ([fsnode]); [os.listdir],
      [os.path.isdir] and [zipfile.ZipFile] read it. *)

From Stdlib Require Import String Ascii List Bool Arith NArith Lia.
From Stdlib Require Import Permutation Sorted.
From Stdlib Require Import DecimalString DecimalNat.
From Stdlib Require OrderedTypeEx.
Import ListNotations.
Open Scope list_scope.
Open Scope string_scope.

(** ** Python built-ins used by the scripts *)

Module Py.

(** The code point of a character. *)
Definition code (c : ascii) : N := N_of_ascii c.

Definition is_newline (c : ascii) : bool := (code c =? 10)%N.

Definition is_return (c : ascii) : bool := (code c =? 13)%N.

(** The one-character string ["\n"]. *)
Definition newline : string := String (ascii_of_N 10) EmptyString.

(** [s.startswith(p)] *)
Definition startswith (s p : string) : bool := String.prefix p s.

(** [s.endswith(p)] *)
Definition endswith (s p : string) : bool :=
  let n := String.length s in
  let m := String.length p in
  (m <=? n)%nat && (substring (n - m) m s =? p).

(** The number of spaces a line begins with. *)
Fixpoint leading_spaces (s : string) : nat :=
  match s with
  | String c s' => if (c =? " ")%char then S (leading_spaces s') else 0
  | EmptyString => 0
  end.

(** [s[n:]] *)
Definition slice_from (n : nat) (s : string) : string :=
  substring n (String.length s - n) s.

(** [sorted(xs)] on a list of [str]: ascending code-point order.  The
    order is total and antisymmetric, so the result is the only ordered
    arrangement of [xs]; insertion sort computes it. *)
Fixpoint insert (x : string) (xs : list string) : list string :=
  match xs with
  | [] => [x]
  | y :: ys => if (x <=? y) then x :: y :: ys else y :: insert x ys
  end.

Fixpoint sorted (xs : list string) : list string :=
  match xs with
  | [] => []
  | x :: xs' => insert x (sorted xs')
  end.

(** The order [sorted] arranges by. *)
Definition le (a b : string) : Prop := (a <=? b) = true.

(** [os.path.join(a, b)] of [posixpath], for two components. *)
Definition os_path_join (a b : string) : string :=
  if startswith b "/" then b
  else if (a =? "") || endswith a "/" then a ++ b
  else a ++ "/" ++ b.

(** [f"{n:02d}"]: decimal, padded with zeros to a width of at least 2. *)
Definition format_02d (n : nat) : string :=
  let s := NilEmpty.string_of_uint (Nat.to_uint n) in
  if (String.length s <? 2)%nat then "0" ++ s else s.

(** [int(s)] for a string of decimal digits. *)
Definition parse_int (s : string) : option nat :=
  option_map Nat.of_uint (NilEmpty.uint_of_string s).

(** Reading a file opened in text mode translates the line endings
    ["\r\n"] and ["\r"] into ["\n"]. *)
Fixpoint universal_newlines (s : string) : string :=
  match s with
  | EmptyString => EmptyString
  | String c s' =>
      if is_return c then
        match s' with
        | EmptyString => newline
        | String c' s'' =>
            if is_newline c' then String c' (universal_newlines s'')
            else String (ascii_of_N 10) (universal_newlines s')
        end
      else String c (universal_newlines s')
  end.

(** Cutting a text after each newline, the newline kept with its line. *)
Fixpoint keepends (s : string) : list string :=
  match s with
  | EmptyString => []
  | String c s' =>
      if is_newline c then String c EmptyString :: keepends s'
      else match keepends s' with
           | [] => [String c EmptyString]
           | line :: lines => String c line :: lines
           end
  end.

(** [f.readlines()] on a file holding [content]. *)
Definition readlines (content : string) : list string :=
  keepends (universal_newlines content).

(** [f.writelines(lines)] into an emptied file (POSIX: no translation). *)
Definition writelines (lines : list string) : string :=
  String.concat "" lines.

(** A [defaultdict] as an association list in insertion order:
    [d[k].update(...)] changes the value in place when [k] is present and
    appends [k] with the changed default otherwise. *)
Fixpoint defaultdict_update {K V : Type} (eqb : K -> K -> bool)
    (default : V) (f : V -> V) (k : K) (d : list (K * V)) : list (K * V) :=
  match d with
  | [] => [(k, f default)]
  | (k', v) :: d' =>
      if eqb k k' then (k', f v) :: d'
      else (k', v) :: defaultdict_update eqb default f k d'
  end.

(** Equality of the tuples [(base, ext)] used as keys. *)
Definition key_eqb (k1 k2 : string * string) : bool :=
  (fst k1 =? fst k2) && (snd k1 =? snd k2).

(** [set.add] on a set of integers kept as a duplicate-free list. *)
Definition set_add (x : N) (s : list N) : list N :=
  if existsb (N.eqb x) s then s else (s ++ [x])%list.

(** ["\n".join(xs)] *)
Definition join_lines (xs : list string) : string := String.concat newline xs.

(** [c.isspace()] on code points below 256. *)
Definition is_space (c : ascii) : bool :=
  let n := code c in
  (((9 <=? n) && (n <=? 13)) || ((28 <=? n) && (n <=? 32))
   || (n =? 133) || (n =? 160))%N.

(** [s.lstrip()], [s.rstrip()] and [s.strip()] *)
Fixpoint lstrip (s : string) : string :=
  match s with
  | String c s' => if is_space c then lstrip s' else s
  | EmptyString => EmptyString
  end.

Fixpoint rstrip (s : string) : string :=
  match s with
  | String c s' =>
      match rstrip s' with
      | EmptyString => if is_space c then EmptyString else String c EmptyString
      | r => String c r
      end
  | EmptyString => EmptyString
  end.

Definition strip (s : string) : string := rstrip (lstrip s).

(** [s.lower()] on code points below 256: the letters A-Z and the capital
    letters of Latin-1 move up by 32, the rest stays. *)
Definition lower_char (c : ascii) : ascii :=
  let n := code c in
  if (((65 <=? n) && (n <=? 90)) || ((192 <=? n) && (n <=? 214))
      || ((216 <=? n) && (n <=? 222)))%N
  then ascii_of_N (n + 32)
  else c.

Fixpoint lower (s : string) : string :=
  match s with
  | String c s' => String (lower_char c) (lower s')
  | EmptyString => EmptyString
  end.

(** A string with no line break in it: neither ["\n"] nor ["\r"]. *)
Fixpoint one_line (s : string) : bool :=
  match s with
  | String c s' => negb (is_newline c) && negb (is_return c) && one_line s'
  | EmptyString => true
  end.

End Py.

(** ** The regular expression [(.*?)(\d{4})\.(\w+)$] *)

Module Re.

Import Py.

(** [\d] on code points below 256: the ten decimal digits. *)
Definition is_digit (c : ascii) : bool :=
  ((48 <=? code c) && (code c <=? 57))%N.

(** [\w] on code points below 256: what [str.isalnum] accepts, and the
    underscore. *)
Definition is_word (c : ascii) : bool :=
  let n := code c in
  (is_digit c
   || ((65 <=? n) && (n <=? 90)) || ((97 <=? n) && (n <=? 122))
   || (n =? 95)
   || (n =? 170) || (n =? 178) || (n =? 179) || (n =? 181)
   || (n =? 185) || (n =? 186)
   || ((188 <=? n) && (n <=? 190))
   || ((192 <=? n) && (n <=? 214))
   || ((216 <=? n) && (n <=? 246))
   || ((248 <=? n) && (n <=? 255)))%N.

(** [$]: the end of the string, or just before a newline that ends it. *)
Definition at_dollar (s : string) : bool :=
  match s with
  | EmptyString => true
  | String c EmptyString => is_newline c
  | _ => false
  end.

(** [\w+$]: one word character, then greedily more; when the longer
    attempt fails the engine backs off and tries [$] here. *)
Fixpoint word_plus_dollar (s : string) : option string :=
  match s with
  | EmptyString => None
  | String c s' =>
      if is_word c then
        match word_plus_dollar s' with
        | Some ext => Some (String c ext)
        | None => if at_dollar s' then Some (String c EmptyString) else None
        end
      else None
  end.

(** [(\d{4})\.(\w+)$] at the head of [s]: the groups [frame] and [ext]. *)
Definition frame_ext (s : string) : option (string * string) :=
  match s with
  | String d1 (String d2 (String d3 (String d4 (String dot rest)))) =>
      if is_digit d1 && is_digit d2 && is_digit d3 && is_digit d4
         && (dot =? ".")%char
      then
        match word_plus_dollar rest with
        | Some ext =>
            Some (String d1 (String d2 (String d3 (String d4 EmptyString))),
                  ext)
        | None => None
        end
      else None
  | _ => None
  end.

(** [(.*?)]: lazy, so the shortest [base] is tried first; [.] accepts
    every character but the newline. *)
Fixpoint match_from (base s : string) : option (string * string * string) :=
  match frame_ext s with
  | Some (frame, ext) => Some (base, frame, ext)
  | None =>
      match s with
      | EmptyString => None
      | String c s' =>
          if is_newline c then None
          else match_from (base ++ String c EmptyString) s'
      end
  end.

(** [pattern.match(filename)], with [match.groups()] on success. *)
Definition pattern_match (filename : string)
  : option (string * string * string) :=
  match_from "" filename.

(** [int(frame)] for a run of decimal digits. *)
Fixpoint int_acc (acc : N) (s : string) : N :=
  match s with
  | EmptyString => acc
  | String c s' => int_acc (10 * acc + (code c - 48))%N s'
  end.

Definition int (frame : string) : N := int_acc 0%N frame.

End Re.

(** ** Effects: the accumulator, the terminal, uncaught exceptions *)

Module Run.

(** What [print] sends to the terminal: an emitted line, or the fixed
    message of the [except FileNotFoundError] branch. *)
Inductive message : Type :=
| Line (text : string)
| DirectoryNotFound.

Record state : Type := mkState {
  terminal : list message;
  output_lines : list string
}.

Inductive exn : Type :=
| FileNotFoundError
| PermissionError
| NotADirectoryError
| IsADirectoryError
| BadZipFile
| UnicodeDecodeError
| NotImplementedError.

(** A call either returns, or lets an exception escape; the accumulator
    is shared with the caller, so it keeps what was appended before. *)
Inductive outcome : Type :=
| Returned (st : state)
| Raised (e : exn) (st : state).

Definition action : Type := state -> outcome.

Definition final (o : outcome) : state :=
  match o with
  | Returned st => st
  | Raised _ st => st
  end.

Definition returned (o : outcome) : bool :=
  match o with
  | Returned _ => true
  | Raised _ _ => false
  end.

Definition print (m : message) : action :=
  fun st => Returned (mkState (terminal st ++ [m]) (output_lines st)).

(** [print(line); output_lines.append(line)] *)
Definition emit (line : string) : action :=
  fun st =>
    Returned (mkState (terminal st ++ [Line line]) (output_lines st ++ [line])).

Definition raise (e : exn) : action := fun st => Raised e st.

Definition skip : action := fun st => Returned st.

Definition andthen (a b : action) : action :=
  fun st =>
    match a st with
    | Returned st' => b st'
    | Raised e st' => Raised e st'
    end.

Fixpoint for_each {A : Type} (xs : list A) (body : A -> action) : action :=
  match xs with
  | [] => skip
  | x :: xs' => andthen (body x) (for_each xs' body)
  end.

Definition empty : state := mkState [] [].

(** The state after [lines] were emitted, one after the other. *)
Definition emit_all (lines : list string) (st : state) : state :=
  mkState (terminal st ++ map Line lines)%list (output_lines st ++ lines)%list.

(** The lines an action appends when it starts from nothing. *)
Definition lines_of (a : action) : list string :=
  output_lines (final (a empty)).

(** The exception that escaped, if one did. *)
Definition escaped (o : outcome) : option exn :=
  match o with
  | Returned _ => None
  | Raised e _ => Some e
  end.

(** [st] followed by what [more] holds. *)
Definition followed (st more : state) : state :=
  mkState (terminal st ++ terminal more)%list
          (output_lines st ++ output_lines more)%list.

Definition extend (st : state) (o : outcome) : outcome :=
  match o with
  | Returned more => Returned (followed st more)
  | Raised e more => Raised e (followed st more)
  end.

(** An action that only appends, and never looks at what is already
    there. *)
Definition writer (a : action) : Prop :=
  forall st, a st = extend st (a empty).


(** [a] appends the lines of [b], each with [p] put before it, and ends
    the same way. *)
Definition prefixed (p : string) (a b : action) : Prop :=
  lines_of a = map (append p) (lines_of b)
  /\ escaped (a empty) = escaped (b empty).

End Run.

Notation "a ;; b" := (Run.andthen a b) (at level 61, right associativity).

(** ** The file system *)

Module Fs.

Import Run.

(** What [zipfile.ZipFile(path, 'r')] finds in a regular file, by what
    the constructor does with it:
    - [Archive]: it reads a central directory and returns; [infolist]
      holds the names of the entries it read (an archive damaged
      elsewhere, in the data of its entries say, is opened all the same);
    - [NotArchive]: it raises [BadZipFile]: no end-of-central-directory
      record, or a central directory that is truncated or has a bad
      magic number;
    - [Undecodable]: the central directory has an entry flagged as UTF-8
      whose name is no UTF-8, and [filename.decode('utf-8')] raises
      [UnicodeDecodeError];
    - [Unsupported]: an entry asks for a version of the format above
      [MAX_EXTRACT_VERSION], and the constructor raises
      [NotImplementedError];
    - [Unreadable]: the file may not be opened for reading
      ([PermissionError]). *)
Inductive file_content : Type :=
| Archive (infolist : list string)
| NotArchive
| Unreadable
| Undecodable
| Unsupported.

(** A node of the tree.  [Dir] carries its entries in the order
    [os.listdir] reports them.  [Vanished] and [Denied] are directories
    for [os.path.isdir] whose listing fails: the first is gone when
    [os.listdir] runs ([FileNotFoundError]), the second may not be read
    ([PermissionError]). *)
#[warnings="-register-all"]
Inductive fsnode : Type :=
| File (content : file_content)
| Dir (raw : list (string * fsnode))
| Vanished
| Denied.

(** The node a name denotes in a listing (the first, were it repeated). *)
Fixpoint lookup {A : Type} (name : string) (raw : list (string * A))
  : option A :=
  match raw with
  | [] => None
  | (n, x) :: raw' => if (name =? n) then Some x else lookup name raw'
  end.

Definition child (root_path : fsnode) (entry : string) : option fsnode :=
  match root_path with
  | Dir raw => lookup entry raw
  | _ => None
  end.

(** [os.path.isdir(os.path.join(root_path, entry))] *)
Definition os_path_isdir (root_path : fsnode) (entry : string) : bool :=
  match child root_path entry with
  | Some (Dir _) | Some Vanished | Some Denied => true
  | _ => false
  end.

(** [zipfile.ZipFile(os.path.join(root_path, filename), 'r')]: the names
    of [infolist()], or the exception the constructor raises. *)
Definition zipfile_open (root_path : fsnode) (filename : string)
  : list string + exn :=
  match root_path with
  | Dir raw =>
      match lookup filename raw with
      | Some (File (Archive infolist)) => inl infolist
      | Some (File NotArchive) => inr BadZipFile
      | Some (File Unreadable) => inr PermissionError
      | Some (File Undecodable) => inr UnicodeDecodeError
      | Some (File Unsupported) => inr NotImplementedError
      | Some (Dir _) | Some Denied => inr IsADirectoryError
      | Some Vanished | None => inr FileNotFoundError
      end
  | File _ => inr NotADirectoryError
  | Vanished => inr FileNotFoundError
  | Denied => inr PermissionError
  end.

(** The tree without the entries (at any depth) whose name [skipped]
    holds of. *)
Fixpoint prune (skipped : string -> bool) (node : fsnode) : fsnode :=
  match node with
  | Dir raw =>
      Dir (filter (fun e => negb (skipped (fst e)))
                  (map (fun e => (fst e, prune skipped (snd e))) raw))
  | other => other
  end.


Definition is_file (node : fsnode) : bool :=
  match node with
  | File _ => true
  | _ => false
  end.

(** The same tree, its listings given in another order: the same names
    at every level, and under each name the same tree again. *)
Inductive reordered : fsnode -> fsnode -> Prop :=
| reordered_file (c : file_content) : reordered (File c) (File c)
| reordered_vanished : reordered Vanished Vanished
| reordered_denied : reordered Denied Denied
| reordered_dir (raw raw' : list (string * fsnode)) :
    Permutation (map fst raw) (map fst raw') ->
    (forall name node node',
        lookup name raw = Some node -> lookup name raw' = Some node' ->
        reordered node node') ->
    reordered (Dir raw) (Dir raw').


(** The node a path of names leads to from [node], each name looked up
    in the listing of the directory before it, as [os.path.join] and the
    file system do for the walk. *)
Fixpoint resolve (node : fsnode) (path : list string) : option fsnode :=
  match path with
  | [] => Some node
  | name :: rest =>
      match child node name with
      | Some next => resolve next rest
      | None => None
      end
  end.

End Fs.

(** ** The tree walker, shared by the two variants

    [list_directory_as_tree] is the same text in both scripts but for the
    names it skips and the extra [root_path] argument of the two file
    renderers; these are the parameters of the section.

    The recursion is followed to any depth.  The bound the interpreter
    puts on nested calls ([RecursionError], near a thousand levels of
    directories with the default setting) is no part of this model: what
    is proved of the walk is proved of the trees the interpreter can
    descend. *)

Module Walker.

Import Py Run Fs.

Section Walk.

Variable skipped : string -> bool.
Variable list_all_files_func : list string -> string -> fsnode -> action.
Variable format_image_sequences : list string -> string -> fsnode -> action.

(** The loop [for entry in entries], yielding [(files, dirs)]. *)
Definition separate (root_path : fsnode) (entries : list string)
  : list string * list string :=
  fold_left
    (fun acc entry =>
       if skipped entry then acc
       else if os_path_isdir root_path entry
            then (fst acc, (snd acc ++ [entry])%list)
            else ((fst acc ++ [entry])%list, snd acc))
    entries ([], []).

(** The recursive call on [os.path.join(root_path, directory)] is the
    call on the child of that name; [descend] holds it for each entry
    of the listing.  A name with no node behind it is a path that does
    not exist, which [os.listdir] answers with [FileNotFoundError]. *)
Fixpoint list_directory_as_tree (root_path : fsnode) (indent : string)
    (list_all_files : bool) {struct root_path} : action :=
  match root_path with
  | Vanished => print DirectoryNotFound
  | Denied => raise PermissionError
  | File _ => raise NotADirectoryError
  | Dir raw =>
      let entries := sorted (map fst raw) in
      let descend :=
        map (fun e => (fst e, list_directory_as_tree (snd e))) raw in
      let files := fst (separate root_path entries) in
      let dirs := snd (separate root_path entries) in
      for_each dirs
        (fun directory =>
           emit (indent ++ directory ++ "/") ;;
           match lookup directory descend with
           | Some walk => walk (indent ++ "  ") list_all_files
           | None => print DirectoryNotFound
           end) ;;
      if list_all_files
      then list_all_files_func files indent root_path
      else format_image_sequences files indent root_path
  end.

(** The directories and the files of one level, as the walk takes them. *)
Definition names (root_path : fsnode) : list string :=
  match root_path with
  | Dir raw => map fst raw
  | _ => []
  end.

Definition dirs_of (root_path : fsnode) : list string :=
  snd (separate root_path (sorted (names root_path))).

Definition files_of (root_path : fsnode) : list string :=
  fst (separate root_path (sorted (names root_path))).

(** The recursive call of the loop over [dirs], by the directory's name. *)
Definition descend (root_path : fsnode) (directory indent : string)
    (list_all_files : bool) : action :=
  match child root_path directory with
  | Some node => list_directory_as_tree node indent list_all_files
  | None => print DirectoryNotFound
  end.

(** The loop [for directory in dirs] of one level. *)
Definition enter_dirs (root_path : fsnode) (indent : string)
    (list_all_files : bool) : action :=
  for_each (dirs_of root_path)
    (fun directory =>
       emit (indent ++ directory ++ "/") ;;
       descend root_path directory (indent ++ "  ") list_all_files).

(** The last statement of the walk: the files of the level. *)
Definition render_files (root_path : fsnode) (indent : string)
    (list_all_files : bool) : action :=
  if list_all_files
  then list_all_files_func (files_of root_path) indent root_path
  else format_image_sequences (files_of root_path) indent root_path.

End Walk.

End Walker.

(** ** First variant: [create-file-tree.py] *)

Module CreateFileTree.

Import Py Run Fs.

Definition skipped (entry : string) : bool :=
  startswith entry "." || (entry =? ".DS_Store") || (entry =? "file_list.txt").

(** The first loop of [format_image_sequences]: [frame_sequences] maps
    [(base, ext)] to the set of frame numbers. *)
Definition collect (files : list string)
  : list ((string * string) * list N) * list string :=
  fold_left
    (fun acc filename =>
       match Re.pattern_match filename with
       | Some (base, frame, ext) =>
           (defaultdict_update key_eqb [] (set_add (Re.int frame))
              (base, ext) (fst acc),
            snd acc)
       | None => (fst acc, (snd acc ++ [filename])%list)
       end)
    files ([], []).

Definition format_image_sequences (files : list string) (indent : string)
  : action :=
  let frame_sequences := fst (collect files) in
  let other_files := snd (collect files) in
  for_each frame_sequences
    (fun item =>
       let '((base, ext), _) := item in
       emit (indent ++ base ++ "[image sequence]." ++ ext)) ;;
  for_each other_files (fun filename => emit (indent ++ filename)).

Definition list_all_files_func (files : list string) (indent : string)
  : action :=
  for_each files (fun filename => emit (indent ++ filename)).

Definition list_directory_as_tree
  : fsnode -> string -> bool -> action :=
  Walker.list_directory_as_tree skipped
    (fun files indent _ => list_all_files_func files indent)
    (fun files indent _ => format_image_sequences files indent).

Definition dirs_of : fsnode -> list string := Walker.dirs_of skipped.

Definition files_of : fsnode -> list string := Walker.files_of skipped.

Definition descend : fsnode -> string -> string -> bool -> action :=
  Walker.descend skipped
    (fun files indent _ => list_all_files_func files indent)
    (fun files indent _ => format_image_sequences files indent).

Definition render_files : fsnode -> string -> bool -> action :=
  Walker.render_files skipped
    (fun files indent _ => list_all_files_func files indent)
    (fun files indent _ => format_image_sequences files indent).

Definition enter_dirs : fsnode -> string -> bool -> action :=
  Walker.enter_dirs skipped
    (fun files indent _ => list_all_files_func files indent)
    (fun files indent _ => format_image_sequences files indent).

(** [os.path.exists] over the paths that exist, a finite collection. *)
Definition os_path_exists (existing : list string) (path : string) : bool :=
  existsb (String.eqb path) existing.

Definition numbered (root_directory : string) (counter : nat) : string :=
  os_path_join root_directory ("file_list-" ++ format_02d counter ++ ".txt").

(** The loop [while True] of [get_unique_output_file], run for at most
    [fuel] rounds. *)
Fixpoint search (fuel : nat) (existing : list string)
    (root_directory : string) (counter : nat) : option string :=
  match fuel with
  | O => None
  | S fuel' =>
      let new_output_file := numbered root_directory counter in
      if negb (os_path_exists existing new_output_file)
      then Some new_output_file
      else search fuel' existing root_directory (S counter)
  end.

(** [get_unique_output_file]; one round more than there are paths is
    allowed to the loop. *)
Definition get_unique_output_file (existing : list string)
    (root_directory : string) : option string :=
  let base_output_file := os_path_join root_directory "file_list.txt" in
  if negb (os_path_exists existing base_output_file)
  then Some base_output_file
  else search (S (List.length existing)) existing root_directory 2.

Definition adjusted_lines (lines : list string) : list string :=
  map (fun line => if startswith line "  " then slice_from 2 line else line)
      lines.

(** [adjust_indentation_in_file], from the content of the file before to
    its content after. *)
Definition adjust_indentation_in_file (content : string) : string :=
  writelines (adjusted_lines (readlines content)).

(** What [run_script] leaves in the output file: it writes
    ["\n".join(output_lines)], then runs [adjust_indentation_in_file] on
    the file. *)
Definition saved_text (output_lines : list string) : string :=
  adjust_indentation_in_file (join_lines output_lines).

(** The block [if list_all_files is None: ...] of [run_script], from the
    global [list_all_files] and the lines still to be read on the standard
    input: the global afterwards, whether the warning about an invalid
    input was printed, and the lines left to read; [None] when [input]
    finds nothing to read ([EOFError]). *)
Definition choose (list_all_files : option bool) (stdin : list string)
  : option (bool * bool * list string) :=
  match list_all_files with
  | Some chosen => Some (chosen, false, stdin)
  | None =>
      match stdin with
      | [] => None
      | answer :: rest =>
          let list_choice := lower (strip answer) in
          if (list_choice =? "y")%string then Some (false, false, rest)
          else if (list_choice =? "n")%string then Some (true, false, rest)
          else Some (true, true, rest)
      end
  end.

End CreateFileTree.

(** ** Second variant: [file-tree-maker-v5.py] *)

Module FileTreeMakerV5.

Import Py Run Fs.

Definition skipped (entry : string) : bool :=
  startswith entry "." || (entry =? ".DS_Store") || (entry =? "file_list.txt")
  || (entry =? "file_list.pdf").

Definition list_file_or_zip (filename indent : string) (root_path : fsnode)
  : action :=
  if endswith filename ".zip" then
    match zipfile_open root_path filename with
    | inl infolist =>
        emit (indent ++ filename ++ " [ZIP Contents]:") ;;
        for_each infolist (fun name => emit (indent ++ "  " ++ name))
    | inr BadZipFile => emit (indent ++ filename ++ " [Corrupted ZIP]")
    | inr e => raise e
    end
  else emit (indent ++ filename).

(** The first loop of [format_image_sequences]: [frame_sequences] maps
    [(base, ext)] to the list of the file names matched. *)
Definition collect (files : list string)
  : list ((string * string) * list string) * list string :=
  fold_left
    (fun acc filename =>
       match Re.pattern_match filename with
       | Some (base, frame, ext) =>
           (defaultdict_update key_eqb []
              (fun frames => (frames ++ [filename])%list)
              (base, ext) (fst acc),
            snd acc)
       | None => (fst acc, (snd acc ++ [filename])%list)
       end)
    files ([], []).

(** The second loop: a condensed line for a group of two or more, the
    frames of a smaller group moved to [other_files]. *)
Definition condense (indent : string)
    (frame_sequences : list ((string * string) * list string))
    (other_files : list string) (st : state) : list string * state :=
  fold_left
    (fun acc item =>
       let '((base, ext), frames) := item in
       if (1 <? List.length frames)%nat
       then (fst acc,
             final (emit (indent ++ base ++ "[image sequence]." ++ ext)
                         (snd acc)))
       else ((fst acc ++ frames)%list, snd acc))
    frame_sequences (other_files, st).

Definition format_image_sequences (files : list string) (indent : string)
    (root_path : fsnode) : action :=
  fun st =>
    let frame_sequences := fst (collect files) in
    let other_files := snd (collect files) in
    let after := condense indent frame_sequences other_files st in
    for_each (sorted (fst after))
      (fun filename => list_file_or_zip filename indent root_path)
      (snd after).

Definition list_all_files_func (files : list string) (indent : string)
    (root_path : fsnode) : action :=
  for_each files (fun filename => list_file_or_zip filename indent root_path).

Definition list_directory_as_tree
  : fsnode -> string -> bool -> action :=
  Walker.list_directory_as_tree skipped
    list_all_files_func format_image_sequences.

Definition dirs_of : fsnode -> list string := Walker.dirs_of skipped.

Definition files_of : fsnode -> list string := Walker.files_of skipped.

Definition descend : fsnode -> string -> string -> bool -> action :=
  Walker.descend skipped list_all_files_func format_image_sequences.

Definition render_files : fsnode -> string -> bool -> action :=
  Walker.render_files skipped list_all_files_func format_image_sequences.

Definition enter_dirs : fsnode -> string -> bool -> action :=
  Walker.enter_dirs skipped list_all_files_func format_image_sequences.

Definition get_output_file (root_directory : string) : string :=
  os_path_join root_directory "file_list.txt".

Definition adjusted_lines (lines : list string) : list string :=
  map (fun line => if startswith line "  " then slice_from 2 line else line)
      lines.

Definition adjust_indentation_in_file (content : string) : string :=
  writelines (adjusted_lines (readlines content)).

(** What [run_script] leaves in the output file: it writes
    ["\n".join(output_lines)], then runs [adjust_indentation_in_file] on
    the file. *)
Definition saved_text (output_lines : list string) : string :=
  adjust_indentation_in_file (join_lines output_lines).

(** The block [if list_all_files is None: ...] of [run_script], from the
    global [list_all_files] and the lines still to be read on the standard
    input: the global afterwards, whether the warning about an invalid
    input was printed, and the lines left to read; [None] when [input]
    finds nothing to read ([EOFError]). *)
Definition choose (list_all_files : option bool) (stdin : list string)
  : option (bool * bool * list string) :=
  match list_all_files with
  | Some chosen => Some (chosen, false, stdin)
  | None =>
      match stdin with
      | [] => None
      | answer :: rest =>
          let list_choice := lower (strip answer) in
          if (list_choice =? "y")%string then Some (false, false, rest)
          else if (list_choice =? "n")%string then Some (true, false, rest)
          else Some (true, true, rest)
      end
  end.

End FileTreeMakerV5.

(** ** The shape of a frame-sequence member, in words

    [frame_shape filename base frame ext]: the name is [base], four digits,
    a dot and a non-empty extension of word characters, in this order and
    with nothing after but, possibly, one newline; [base] holds no
    newline. *)

Module Shape.

Import Py.

Fixpoint all (p : ascii -> bool) (s : string) : bool :=
  match s with
  | EmptyString => true
  | String c s' => p c && all p s'
  end.

Definition not_newline (c : ascii) : bool := negb (is_newline c).

Definition not_dot (c : ascii) : bool := negb (c =? ".")%char.

(** The number of digits that stand immediately before the last dot. *)
Fixpoint leading_digits (l : list ascii) : nat :=
  match l with
  | c :: l' => if Re.is_digit c then S (leading_digits l') else 0
  | [] => 0
  end.

Fixpoint after_dot (l : list ascii) : list ascii :=
  match l with
  | c :: l' => if not_dot c then after_dot l' else l'
  | [] => []
  end.

Definition digit_run (filename : string) : nat :=
  leading_digits (after_dot (rev (list_ascii_of_string filename))).

Definition frame_shape (filename base frame ext : string) : Prop :=
  exists tail,
    filename = base ++ frame ++ "." ++ ext ++ tail
    /\ (tail = "" \/ tail = newline)
    /\ all not_newline base = true
    /\ String.length frame = 4
    /\ all Re.is_digit frame = true
    /\ ext <> ""
    /\ all Re.is_word ext = true.

(** Whether the condenser takes [filename] for a member of a sequence. *)
Definition is_member (filename : string) : bool :=
  match Re.pattern_match filename with
  | Some _ => true
  | None => false
  end.

(** The key [(base, ext)] of the group a file name falls in. *)
Definition key_of (filename : string) : option (string * string) :=
  match Re.pattern_match filename with
  | Some (base, _, ext) => Some (base, ext)
  | None => None
  end.

End Shape.

(** ** The condenser, in the words of the specification

    The files of one directory fall into groups by [(base, ext)]; the
    groups are taken in the order in which their first member is met. *)

Module Spec.

Import Py Run Fs Shape.

(** The first occurrence of each key, in order. *)
Fixpoint dedup (ks : list (string * string)) : list (string * string) :=
  match ks with
  | [] => []
  | k :: ks' => k :: filter (fun k' => negb (key_eqb k' k)) (dedup ks')
  end.

Definition key_list (filename : string) : list (string * string) :=
  match key_of filename with
  | Some k => [k]
  | None => []
  end.

Definition keys (files : list string) : list (string * string) :=
  dedup (flat_map key_list files).

Definition in_group (k : string * string) (filename : string) : bool :=
  match key_of filename with
  | Some k' => key_eqb k' k
  | None => false
  end.

(** The members of the group [k], in the order of [files]. *)
Definition members (files : list string) (k : string * string)
  : list string :=
  filter (in_group k) files.

Definition non_matching (files : list string) : list string :=
  filter (fun filename => negb (is_member filename)) files.

Definition condensed_line (indent : string) (k : string * string) : string :=
  indent ++ fst k ++ "[image sequence]." ++ snd k.

(** First variant: a condensed line for every group, then a plain line
    for every file the pattern does not match. *)
Definition condenser_v1 (files : list string) (indent : string) : action :=
  for_each (keys files) (fun k => emit (condensed_line indent k)) ;;
  for_each (non_matching files) (fun filename => emit (indent ++ filename)).

Definition condensed_groups (files : list string)
  : list (string * string) :=
  filter (fun k => (2 <=? List.length (members files k))%nat) (keys files).

Definition single_groups (files : list string) : list (string * string) :=
  filter (fun k => (List.length (members files k) =? 1)%nat) (keys files).

(** An item of [frame_sequences] with more than one frame. *)
Definition big (item : (string * string) * list string) : bool :=
  (1 <? List.length (snd item))%nat.

(** The names handed to the per-file renderer by the second variant. *)
Definition rendered (files : list string) : list string :=
  sorted (non_matching files
          ++ flat_map (members files) (single_groups files))%list.

(** Second variant: a condensed line for every group of two or more;
    the members of the groups of one, and the files the pattern does not
    match, go through the per-file renderer, sorted. *)
Definition condenser_v5 (files : list string) (indent : string)
    (root_path : fsnode) : action :=
  for_each (condensed_groups files)
    (fun k => emit (condensed_line indent k)) ;;
  for_each (rendered files)
    (fun filename =>
       FileTreeMakerV5.list_file_or_zip filename indent root_path).

End Spec.

(** ** Trees without frame sequences *)

Module Trees.

Import Fs.

(** A tree in which no name, at any depth, has the shape of a frame. *)
Fixpoint no_frames (node : fsnode) : bool :=
  match node with
  | Dir raw =>
      forallb (fun e => negb (Shape.is_member (fst e)) && no_frames (snd e))
              raw
  | _ => true
  end.

End Trees.

(** * Sanity checks on concrete inputs *)

Example pattern_match_ex1 :
  Re.pattern_match "a.0001.exr" = Some ("a.", "0001", "exr").
Proof. reflexivity. Qed.

Example pattern_match_ex2 :
  Re.pattern_match "shot12345.exr" = Some ("shot1", "2345", "exr").
Proof. reflexivity. Qed.

Example pattern_match_ex3 :
  Re.pattern_match "a0001.tar.gz" = None
  /\ Re.pattern_match "a001.exr" = None
  /\ Re.pattern_match "a0001.b.0002.c" = Some ("a0001.b.", "0002", "c").
Proof. repeat split; reflexivity. Qed.

Example sorted_ex :
  Py.sorted ["b"; "a"; "B"; "_"; "a0"; "Z"; "a."; "a/"]
  = ["B"; "Z"; "_"; "a"; "a."; "a/"; "a0"; "b"].
Proof. reflexivity. Qed.

Example format_02d_ex :
  (Py.format_02d 2, Py.format_02d 10, Py.format_02d 100) = ("02", "10", "100").
Proof. reflexivity. Qed.

Example os_path_join_ex :
  (Py.os_path_join "r" "f", Py.os_path_join "r/" "f", Py.os_path_join "" "f")
  = ("r/f", "r/f", "f").
Proof. reflexivity. Qed.

Example is_word_count :
  List.length (filter Re.is_word (map ascii_of_nat (seq 0 256))) = 134
  /\ List.length (filter Re.is_digit (map ascii_of_nat (seq 0 256))) = 10.
Proof. split; vm_compute; reflexivity. Qed.

Example pattern_match_newline :
  Re.pattern_match ("a0001.exr" ++ Py.newline) = Some ("a", "0001", "exr")
  /\ Re.pattern_match ("a0001.exr" ++ Py.newline ++ Py.newline) = None
  /\ Re.pattern_match ("a" ++ Py.newline ++ "0001.exr") = None
  /\ Re.pattern_match "0001.exr" = Some ("", "0001", "exr")
  /\ Re.pattern_match "a0001.e-x" = None.
Proof. repeat split. Qed.

Example readlines_ex :
  Py.readlines ("a" ++ String (ascii_of_N 13) Py.newline ++ Py.newline ++ "b")
  = ["a" ++ Py.newline; Py.newline; "b"].
Proof. reflexivity. Qed.

Example condensed_v5_ex :
  Run.output_lines
    (Run.final
       (FileTreeMakerV5.format_image_sequences
          ["a.0001.exr"; "a.0002.exr"; "b.0001.exr"; "z.zip"; "k.zip"] "  "
          (Fs.Dir [("z.zip", Fs.File Fs.NotArchive);
                   ("k.zip", Fs.File (Fs.Archive ["x"; "y/z"]))])
          Run.empty))
  = ["  a.[image sequence].exr"; "  b.0001.exr"; "  k.zip [ZIP Contents]:";
     "    x"; "    y/z"; "  z.zip [Corrupted ZIP]"].
Proof. reflexivity. Qed.

Example walk_ex :
  Run.output_lines
    (Run.final
       (CreateFileTree.list_directory_as_tree
          (Fs.Dir [("f.txt", Fs.File Fs.NotArchive);
                   ("Y", Fs.Dir [("b", Fs.File Fs.NotArchive)]);
                   (".git", Fs.Dir [("HEAD", Fs.File Fs.NotArchive)]);
                   ("X", Fs.Dir [("gone", Fs.Vanished);
                                 ("a", Fs.File Fs.NotArchive)]);
                   ("file_list.txt", Fs.File Fs.NotArchive)])
          "  " true Run.empty))
  = ["  X/"; "    gone/"; "    a"; "  Y/"; "    b"; "  f.txt"].
Proof. reflexivity. Qed.

Example get_unique_output_file_ex :
  CreateFileTree.get_unique_output_file [] "r" = Some "r/file_list.txt"
  /\ CreateFileTree.get_unique_output_file ["r/file_list.txt"] "r"
     = Some "r/file_list-02.txt"
  /\ CreateFileTree.get_unique_output_file
       ["r/file_list.txt"; "r/file_list-02.txt"] "r"
     = Some "r/file_list-03.txt".
Proof. repeat split. Qed.

Example adjust_indentation_ex :
  CreateFileTree.adjust_indentation_in_file
    ("  X/" ++ Py.newline ++ "    a" ++ Py.newline ++ " b" ++ Py.newline
     ++ "  f.txt")
  = "X/" ++ Py.newline ++ "  a" ++ Py.newline ++ " b" ++ Py.newline ++ "f.txt".
Proof. reflexivity. Qed.

Example strip_lower_ex :
  Py.lower (Py.strip "  Y ") = "y" /\ Py.strip "   " = ""
  /\ Py.strip " y n " = "y n".
Proof. repeat split. Qed.

Example choose_ex :
  CreateFileTree.choose None [" Y"; "next"] = Some (false, false, ["next"])
  /\ CreateFileTree.choose None ["no"] = Some (true, true, [])
  /\ CreateFileTree.choose (Some false) ["n"] = Some (false, false, ["n"])
  /\ CreateFileTree.choose None [] = None.
Proof. repeat split. Qed.

Example saved_text_ex :
  CreateFileTree.saved_text ["  X/"; "    a"; "  f.txt"]
  = "X/" ++ Py.newline ++ "  a" ++ Py.newline ++ "f.txt".
Proof. reflexivity. Qed.

Example no_frames_ex :
  Trees.no_frames (Fs.Dir [("a", Fs.Dir [("s.0001.exr", Fs.File Fs.NotArchive)])])
  = false
  /\ Trees.no_frames (Fs.Dir [("a", Fs.Dir [("s.exr", Fs.File Fs.NotArchive)])])
     = true.
Proof. split; reflexivity. Qed.

Example zipfile_open_ex :
  Fs.zipfile_open (Fs.Dir [("a.zip", Fs.File (Fs.Archive ["x"; "y"]))]) "a.zip"
  = inl ["x"; "y"]
  /\ Fs.zipfile_open (Fs.Dir [("a.zip", Fs.File Fs.NotArchive)]) "a.zip"
     = inr Run.BadZipFile
  /\ Fs.zipfile_open (Fs.Dir [("a.zip", Fs.File Fs.Undecodable)]) "a.zip"
     = inr Run.UnicodeDecodeError
  /\ Fs.zipfile_open (Fs.Dir [("a.zip", Fs.File Fs.Unsupported)]) "a.zip"
     = inr Run.NotImplementedError.
Proof. repeat split. Qed.

Example resolve_ex :
  Fs.resolve (Fs.Dir [("a", Fs.Dir [("b", Fs.Denied)])]) ["a"; "b"]
  = Some Fs.Denied
  /\ Fs.resolve (Fs.Dir [("a", Fs.Dir [("b", Fs.Denied)])]) ["b"] = None.
Proof. split; reflexivity. Qed.

(** * Facts about strings *)

Module StringFacts.

Lemma append_nil_r (s : string) : s ++ "" = s.
Proof. induction s as [|c s IH]; simpl; [reflexivity | now rewrite IH]. Qed.

Lemma append_assoc (a b c : string) : (a ++ b) ++ c = a ++ b ++ c.
Proof. induction a as [|x a IH]; simpl; [reflexivity | now rewrite IH]. Qed.

Lemma length_append (a b : string) :
  String.length (a ++ b) = String.length a + String.length b.
Proof. induction a as [|x a IH]; simpl; [reflexivity | now rewrite IH]. Qed.

Lemma append_inv_head (a b c : string) : a ++ b = a ++ c -> b = c.
Proof.
  induction a as [|x a IH]; simpl; intro H; [exact H|].
  injection H as H. now apply IH.
Qed.

Lemma append_inj_length (a b c d : string) :
  a ++ b = c ++ d -> String.length a = String.length c -> a = c /\ b = d.
Proof.
  revert c. induction a as [|x a IH]; intros [|y c]; simpl; intros H L;
    try discriminate.
  - now split.
  - injection H as -> H. injection L as L.
    destruct (IH _ H L) as [-> ->]. now split.
Qed.

Lemma append_inv_tail (a b c : string) : a ++ c = b ++ c -> a = b.
Proof.
  intro H. apply (append_inj_length a c b c H).
  apply (f_equal String.length) in H. rewrite !length_append in H. lia.
Qed.

Lemma append_cons_snoc (a : string) (c : ascii) (b : string) :
  (a ++ String c "") ++ b = a ++ String c b.
Proof. now rewrite append_assoc. Qed.

End StringFacts.

(** * The regular expression decides the shape *)

Module ReFacts.

Import Py Re Shape StringFacts.

Lemma is_newline_eq (c : ascii) : is_newline c = true -> c = ascii_of_N 10.
Proof.
  unfold is_newline, code. intro H. apply N.eqb_eq in H.
  rewrite <- (ascii_N_embedding c). now rewrite H.
Qed.

Lemma eqb_dot (c : ascii) : (c =? ".")%char = true -> c = "."%char.
Proof. apply Ascii.eqb_eq. Qed.

Lemma word_not_dot (c : ascii) :
  is_word c = true -> (c =? ".")%char = false.
Proof.
  intro H. destruct (c =? ".")%char eqn:E; [|reflexivity].
  apply eqb_dot in E. subst c. discriminate H.
Qed.

Lemma word_not_newline (c : ascii) :
  is_word c = true -> is_newline c = false.
Proof.
  intro H. destruct (is_newline c) eqn:E; [|reflexivity].
  apply is_newline_eq in E. subst c. discriminate H.
Qed.

Lemma all_append (p : ascii -> bool) (a b : string) :
  all p (a ++ b) = all p a && all p b.
Proof.
  induction a as [|c a IH]; simpl; [reflexivity|].
  now rewrite IH, andb_assoc.
Qed.

Lemma all_impl (p q : ascii -> bool) (s : string) :
  (forall c, p c = true -> q c = true) -> all p s = true -> all q s = true.
Proof.
  intro H. induction s as [|c s IH]; simpl; [reflexivity|].
  intro A. apply andb_true_iff in A as [A1 A2].
  now rewrite (H _ A1), IH.
Qed.

(** [\w+$] *)
Lemma word_plus_dollar_sound (s ext : string) :
  word_plus_dollar s = Some ext ->
  ext <> "" /\ all is_word ext = true /\ (s = ext \/ s = ext ++ newline).
Proof.
  revert ext. induction s as [|c s IH]; simpl; intros ext H; [discriminate|].
  destruct (is_word c) eqn:W; [|discriminate].
  destruct (word_plus_dollar s) as [e|] eqn:R.
  - injection H as <-. destruct (IH _ eq_refl) as (_ & A & T).
    split; [discriminate|]. split; [simpl; now rewrite W, A|].
    destruct T as [-> | ->]; [now left | now right].
  - destruct (at_dollar s) eqn:D; [|discriminate]. injection H as <-.
    split; [discriminate|]. split; [simpl; now rewrite W|].
    destruct s as [|c0 [|c1 s]]; simpl in D; try discriminate.
    + now left.
    + right. apply is_newline_eq in D. now subst c0.
Qed.

Lemma word_plus_dollar_complete (ext tail : string) :
  ext <> "" -> all is_word ext = true -> (tail = "" \/ tail = newline) ->
  word_plus_dollar (ext ++ tail) = Some ext.
Proof.
  induction ext as [|c e IH]; intros NE A T; [congruence|].
  simpl in A. apply andb_true_iff in A as [W A]. simpl. rewrite W.
  destruct e as [|c' e'].
  - simpl. destruct T as [-> | ->]; reflexivity.
  - rewrite IH; [reflexivity | discriminate | exact A | exact T].
Qed.

(** [(\d{4})\.(\w+)$] *)
Lemma frame_ext_sound (s frame ext : string) :
  frame_ext s = Some (frame, ext) ->
  String.length frame = 4 /\ all is_digit frame = true
  /\ exists rest, s = frame ++ "." ++ rest
                  /\ word_plus_dollar rest = Some ext.
Proof.
  destruct s as [|d1 [|d2 [|d3 [|d4 [|dot rest]]]]]; simpl;
    try discriminate.
  destruct (is_digit d1 && is_digit d2 && is_digit d3 && is_digit d4
            && (dot =? ".")%char) eqn:G; [|discriminate].
  destruct (word_plus_dollar rest) as [e|] eqn:R; [|discriminate].
  intro H. injection H as <- <-.
  apply andb_true_iff in G as [G Hdot].
  apply andb_true_iff in G as [G D4].
  apply andb_true_iff in G as [G D3].
  apply andb_true_iff in G as [D1 D2].
  apply eqb_dot in Hdot.
  subst dot. split; [reflexivity|]. split.
  - cbn [all]. now rewrite D1, D2, D3, D4.
  - exists rest. now split.
Qed.

Lemma frame_ext_complete (frame rest ext : string) :
  String.length frame = 4 -> all is_digit frame = true ->
  word_plus_dollar rest = Some ext ->
  frame_ext (frame ++ "." ++ rest) = Some (frame, ext).
Proof.
  intros L A R.
  destruct frame as [|d1 [|d2 [|d3 [|d4 [|d5 f]]]]]; try discriminate.
  cbn [all] in A.
  apply andb_true_iff in A as [D1 A].
  apply andb_true_iff in A as [D2 A].
  apply andb_true_iff in A as [D3 A].
  apply andb_true_iff in A as [D4 _].
  cbn [append frame_ext]. now rewrite R, D1, D2, D3, D4.
Qed.

Lemma match_from_eq (base s : string) :
  match_from base s =
  match frame_ext s with
  | Some (frame, ext) => Some (base, frame, ext)
  | None =>
      match s with
      | EmptyString => None
      | String c s' =>
          if is_newline c then None
          else match_from (base ++ String c EmptyString) s'
      end
  end.
Proof. destruct s; reflexivity. Qed.

Lemma frame_shape_here (s frame ext : string) :
  frame_ext s = Some (frame, ext) -> frame_shape s "" frame ext.
Proof.
  intro F. apply frame_ext_sound in F as (L & D & rest & -> & W).
  apply word_plus_dollar_sound in W as (NE & A & T).
  destruct T as [-> | ->]; [exists "" | exists newline];
    cbn [append]; rewrite ?append_nil_r; repeat split; auto.
Qed.

Lemma frame_shape_cons (c : ascii) (s p frame ext : string) :
  is_newline c = false ->
  frame_shape s p frame ext -> frame_shape (String c s) (String c p) frame ext.
Proof.
  intros N (tail & -> & T & A & R). exists tail.
  split; [reflexivity|]. split; [exact T|]. split; [|exact R].
  cbn [all]. unfold not_newline at 1. now rewrite N, A.
Qed.

Lemma match_from_sound (s base0 base frame ext : string) :
  match_from base0 s = Some (base, frame, ext) ->
  exists p, base = base0 ++ p /\ frame_shape s p frame ext.
Proof.
  revert base0. induction s as [|c s IH]; intros base0;
    rewrite match_from_eq.
  - simpl. discriminate.
  - destruct (frame_ext (String c s)) as [[fr e]|] eqn:F.
    + intro H. injection H as <- <- <-. exists "".
      rewrite append_nil_r. split; [reflexivity|].
      now apply frame_shape_here.
    + destruct (is_newline c) eqn:N; [discriminate|]. intro H.
      apply IH in H as (p & -> & S). exists (String c p).
      split; [now rewrite append_cons_snoc|].
      now apply frame_shape_cons.
Qed.

Lemma last_dot (a a' b b' : string) :
  a ++ "." ++ b = a' ++ "." ++ b' ->
  all not_dot b = true -> all not_dot b' = true -> a = a' /\ b = b'.
Proof.
  revert a'. induction a as [|x a IH]; intros [|y a']; cbn [append];
    intros E B B'.
  - injection E as E. now split.
  - injection E as <- E. subst b. rewrite all_append in B.
    apply andb_true_iff in B as [_ B]. discriminate B.
  - injection E as -> E. subst b'. rewrite all_append in B'.
    apply andb_true_iff in B' as [_ B']. discriminate B'.
  - injection E as -> E. destruct (IH _ E B B') as [-> ->]. now split.
Qed.

Lemma append_inj_length_r (a b c d : string) :
  a ++ b = c ++ d -> String.length b = String.length d -> a = c /\ b = d.
Proof.
  intros E L. apply append_inj_length; [exact E|].
  apply (f_equal String.length) in E. rewrite !length_append in E. lia.
Qed.

Lemma ext_unique (e e' t t' : string) :
  e ++ t = e' ++ t' ->
  all is_word e = true -> all is_word e' = true ->
  (t = "" \/ t = newline) -> (t' = "" \/ t' = newline) -> e = e'.
Proof.
  revert e'. induction e as [|x e IH]; intros [|y e']; cbn [append all];
    intros E A A' T T'.
  - reflexivity.
  - apply andb_true_iff in A' as [W _]. subst t.
    destruct T as [T | T]; [discriminate T|]. injection T as Hy _.
    rewrite Hy in W. vm_compute in W. discriminate W.
  - apply andb_true_iff in A as [W _]. subst t'.
    destruct T' as [T' | T']; [discriminate T'|]. injection T' as Hx _.
    rewrite Hx in W. vm_compute in W. discriminate W.
  - injection E as -> E.
    apply andb_true_iff in A as [_ A]. apply andb_true_iff in A' as [_ A'].
    now rewrite (IH _ E A A' T T').
Qed.

Lemma ext_tail_not_dot (e t : string) :
  all is_word e = true -> (t = "" \/ t = newline) ->
  all not_dot (e ++ t) = true.
Proof.
  intros A T. rewrite all_append. apply andb_true_iff. split.
  - apply (all_impl is_word); [|exact A].
    intros c W. unfold not_dot. now rewrite (word_not_dot _ W).
  - destruct T as [-> | ->]; reflexivity.
Qed.

Lemma frame_shape_unique (s p fr e p' fr' e' : string) :
  frame_shape s p fr e -> frame_shape s p' fr' e' ->
  p = p' /\ fr = fr' /\ e = e'.
Proof.
  intros (t & E & T & _ & L & _ & _ & A) (t' & E' & T' & _ & L' & _ & _ & A').
  rewrite E in E'.
  rewrite <- (append_assoc p fr), <- (append_assoc p' fr') in E'.
  apply last_dot in E' as [E1 E2]; try now apply ext_tail_not_dot.
  apply append_inj_length_r in E1 as [-> ->]; [|congruence].
  split; [reflexivity|]. split; [reflexivity|].
  now apply (ext_unique e e' t t').
Qed.

Lemma match_from_complete (p s base0 frame ext : string) :
  frame_shape s p frame ext ->
  match_from base0 s = Some (base0 ++ p, frame, ext).
Proof.
  revert s base0. induction p as [|c p IH]; intros s base0 S;
    rewrite match_from_eq.
  - destruct S as (t & E & T & _ & L & D & NE & A).
    assert (F : frame_ext s = Some (frame, ext)).
    { rewrite E. apply (frame_ext_complete frame (ext ++ t) ext L D).
      now apply word_plus_dollar_complete. }
    rewrite F. now rewrite append_nil_r.
  - destruct (frame_ext s) as [[fr e]|] eqn:F.
    + apply frame_shape_here in F.
      destruct (frame_shape_unique _ _ _ _ _ _ _ S F) as (P & _ & _).
      discriminate P.
    + destruct S as (t & E & T & N & R). subst s.
      cbn [append all] in N |- *.
      apply andb_true_iff in N as [N1 N2].
      unfold not_newline in N1. apply negb_true_iff in N1. rewrite N1.
      rewrite (IH _ (base0 ++ String c "")).
      * now rewrite append_cons_snoc.
      * exists t. repeat split; tauto.
Qed.

(** [pattern.match] succeeds exactly on the names of the shape, with the
    groups the shape fixes. *)
Lemma pattern_match_iff (filename base frame ext : string) :
  pattern_match filename = Some (base, frame, ext)
  <-> frame_shape filename base frame ext.
Proof.
  unfold pattern_match. split.
  - intro H. apply match_from_sound in H as (p & -> & S). exact S.
  - intro S. now rewrite (match_from_complete base filename "" frame ext S).
Qed.

End ReFacts.

(** * Actions: sequencing and loops *)

Module RunFacts.

Import Run.

Lemma for_each_app {A : Type} (xs ys : list A) (body : A -> action)
    (st : state) :
  for_each (xs ++ ys) body st = (for_each xs body ;; for_each ys body) st.
Proof.
  revert st. induction xs as [|x xs IH]; intro st; simpl.
  - reflexivity.
  - unfold andthen. destruct (body x st) as [st'|e st'].
    + rewrite IH. reflexivity.
    + reflexivity.
Qed.

Lemma for_each_ext {A : Type} (xs : list A) (f g : A -> action) :
  (forall x st, In x xs -> f x st = g x st) ->
  forall st, for_each xs f st = for_each xs g st.
Proof.
  induction xs as [|x xs IH]; intros E st; simpl; [reflexivity|].
  unfold andthen. rewrite (E x st (or_introl eq_refl)).
  destruct (g x st); [|reflexivity].
  apply IH. intros y st' Hy. apply E. now right.
Qed.

Lemma for_each_map {A B : Type} (h : A -> B) (xs : list A)
    (body : B -> action) (st : state) :
  for_each (map h xs) body st = for_each xs (fun x => body (h x)) st.
Proof.
  revert st. induction xs as [|x xs IH]; intro st; simpl; [reflexivity|].
  unfold andthen. destruct (body (h x) st); [apply IH | reflexivity].
Qed.

Lemma emit_all_nil (st : state) : emit_all [] st = st.
Proof.
  destruct st as [t o]. unfold emit_all. simpl. now rewrite !app_nil_r.
Qed.

Lemma emit_all_app (xs ys : list string) (st : state) :
  emit_all (xs ++ ys) st = emit_all ys (emit_all xs st).
Proof.
  unfold emit_all. simpl. now rewrite map_app, !app_assoc.
Qed.

Lemma emit_all_cons (x : string) (xs : list string) (st : state) :
  emit_all (x :: xs) st = emit_all xs (final (emit x st)).
Proof. apply (emit_all_app [x] xs). Qed.

Lemma emit_eq (line : string) (st : state) :
  emit line st = Returned (emit_all [line] st).
Proof. reflexivity. Qed.

Lemma for_each_emit {A : Type} (h : A -> string) (xs : list A) (st : state) :
  for_each xs (fun x => emit (h x)) st = Returned (emit_all (map h xs) st).
Proof.
  revert st. induction xs as [|x xs IH]; intro st.
  - simpl. unfold skip. now rewrite emit_all_nil.
  - cbn [for_each map]. unfold andthen. rewrite emit_eq, IH.
    change (h x :: map h xs) with ([h x] ++ map h xs)%list.
    now rewrite emit_all_app.
Qed.

End RunFacts.

(** * Grouping by [(base, ext)] *)

Module GroupFacts.

Import Py Shape Spec.
Local Open Scope list_scope.

Lemma key_eqb_eq (a b : string * string) : key_eqb a b = true <-> a = b.
Proof.
  destruct a as [a1 a2], b as [b1 b2]. unfold key_eqb. simpl.
  rewrite andb_true_iff, !String.eqb_eq. split.
  - now intros [-> ->].
  - intro H. now injection H.
Qed.

Lemma key_eqb_refl (a : string * string) : key_eqb a a = true.
Proof. now apply key_eqb_eq. Qed.

Lemma key_eqb_neq (a b : string * string) : key_eqb a b = false <-> a <> b.
Proof.
  rewrite <- key_eqb_eq. destruct (key_eqb a b); split; congruence.
Qed.

Lemma key_eqb_sym (a b : string * string) : key_eqb a b = key_eqb b a.
Proof.
  destruct (key_eqb b a) eqn:E.
  - apply key_eqb_eq in E. subst. apply key_eqb_refl.
  - apply key_eqb_neq. apply key_eqb_neq in E. congruence.
Qed.

Lemma existsb_key (k : string * string) (l : list (string * string)) :
  existsb (key_eqb k) l = true <-> In k l.
Proof.
  rewrite existsb_exists. split.
  - intros (x & I & E). apply key_eqb_eq in E. now subst.
  - intro I. exists k. split; [exact I | apply key_eqb_refl].
Qed.

Lemma existsb_key_filter (k a : string * string) (l : list (string * string)) :
  key_eqb k a = false ->
  existsb (key_eqb k) (filter (fun k' => negb (key_eqb k' a)) l)
  = existsb (key_eqb k) l.
Proof.
  intro N. induction l as [|x l IH]; simpl; [reflexivity|].
  destruct (key_eqb x a) eqn:E; simpl.
  - apply key_eqb_eq in E. subst x. now rewrite N, IH.
  - now rewrite IH.
Qed.

Lemma dedup_snoc (l : list (string * string)) (x : string * string) :
  dedup (l ++ [x])
  = dedup l ++ (if existsb (key_eqb x) (dedup l) then [] else [x]).
Proof.
  induction l as [|a l IH]; simpl; [reflexivity|].
  rewrite IH, filter_app. f_equal.
  destruct (key_eqb x a) eqn:E; simpl.
  - destruct (existsb (key_eqb x) (dedup l)); simpl; rewrite ?E; simpl;
      now rewrite ?app_nil_r.
  - rewrite (existsb_key_filter _ _ _ E).
    destruct (existsb (key_eqb x) (dedup l)); simpl; rewrite ?E; reflexivity.
Qed.

Lemma In_dedup (k : string * string) (l : list (string * string)) :
  In k (dedup l) <-> In k l.
Proof.
  induction l as [|a l IH]; simpl; [tauto|].
  rewrite filter_In, IH, negb_true_iff, key_eqb_neq.
  destruct (key_eqb_eq a k) as [_ R].
  split.
  - intros [H | [H _]]; auto.
  - intros [H | H]; [now left|].
    destruct (key_eqb a k) eqn:E.
    + left. now apply key_eqb_eq.
    + right. split; [exact H|]. apply key_eqb_neq in E. congruence.
Qed.

Lemma NoDup_filter {A : Type} (p : A -> bool) (l : list A) :
  NoDup l -> NoDup (filter p l).
Proof.
  induction 1 as [|x l N _ IH]; simpl; [constructor|].
  destruct (p x); [|exact IH]. constructor; [|exact IH].
  rewrite filter_In. tauto.
Qed.

Lemma NoDup_dedup (l : list (string * string)) : NoDup (dedup l).
Proof.
  induction l as [|a l IH]; simpl; constructor.
  - rewrite filter_In, negb_true_iff, key_eqb_neq. intros [_ H]. now apply H.
  - now apply NoDup_filter.
Qed.

Lemma NoDup_keys (files : list string) : NoDup (keys files).
Proof. apply NoDup_dedup. Qed.

Lemma In_keys (k : string * string) (files : list string) :
  In k (keys files) <-> exists f, In f files /\ key_of f = Some k.
Proof.
  unfold keys. rewrite In_dedup, in_flat_map. unfold key_list. split.
  - intros (f & I & H). exists f. split; [exact I|].
    destruct (key_of f); simpl in H; [|tauto].
    destruct H as [-> | []]. reflexivity.
  - intros (f & I & H). exists f. split; [exact I|]. rewrite H. now left.
Qed.

Lemma keys_snoc (files : list string) (f : string) :
  keys (files ++ [f])
  = keys files
    ++ match key_of f with
       | Some k => if existsb (key_eqb k) (keys files) then [] else [k]
       | None => []
       end.
Proof.
  unfold keys. rewrite flat_map_app. simpl. rewrite app_nil_r.
  unfold key_list at 2. destruct (key_of f) as [k|].
  - apply dedup_snoc.
  - now rewrite !app_nil_r.
Qed.

Lemma members_snoc (files : list string) (f : string) (k : string * string) :
  members (files ++ [f]) k
  = members files k ++ (if in_group k f then [f] else []).
Proof. unfold members. now rewrite filter_app. Qed.

Lemma non_matching_snoc (files : list string) (f : string) :
  non_matching (files ++ [f])
  = non_matching files ++ (if is_member f then [] else [f]).
Proof.
  unfold non_matching. rewrite filter_app. simpl.
  now destruct (is_member f).
Qed.

Lemma In_members (f : string) (files : list string) (k : string * string) :
  In f (members files k) <-> In f files /\ key_of f = Some k.
Proof.
  unfold members, in_group. rewrite filter_In. split.
  - intros [I H]. split; [exact I|].
    destruct (key_of f) as [k'|]; [|discriminate].
    apply key_eqb_eq in H. now subst.
  - intros [I H]. split; [exact I|]. rewrite H. apply key_eqb_refl.
Qed.

Lemma members_nil (files : list string) (k : string * string) :
  ~ In k (keys files) -> members files k = [].
Proof.
  intro N. destruct (members files k) as [|f l] eqn:E; [reflexivity|].
  exfalso. apply N. apply In_keys. exists f. apply In_members.
  rewrite E. now left.
Qed.

Lemma members_not_nil (files : list string) (k : string * string) :
  In k (keys files) -> members files k <> [].
Proof.
  intros I E. apply In_keys in I as (f & If & Hk).
  assert (M : In f (members files k)) by now apply In_members.
  now rewrite E in M.
Qed.

(** The keys of a [defaultdict] after one update. *)
Lemma update_keys {V : Type} (default : V) (g : V -> V)
    (k : string * string) (d : list ((string * string) * V)) :
  map fst (defaultdict_update key_eqb default g k d)
  = map fst d ++ (if existsb (key_eqb k) (map fst d) then [] else [k]).
Proof.
  induction d as [|[k' v] d IH]; simpl; [reflexivity|].
  destruct (key_eqb k k') eqn:E; simpl.
  - now rewrite app_nil_r.
  - now rewrite IH.
Qed.

(** One update of a dictionary whose values are given by [g]. *)
Lemma update_values (g g' : string * string -> list string)
    (k : string * string) (f : string) (L : list (string * string)) :
  NoDup L ->
  (~ In k L -> g k = []) ->
  (forall k', g' k' = g k' ++ (if key_eqb k k' then [f] else [])) ->
  defaultdict_update key_eqb [] (fun frames => frames ++ [f]) k
    (map (fun k' => (k', g k')) L)
  = map (fun k' => (k', g' k'))
        (L ++ (if existsb (key_eqb k) L then [] else [k])).
Proof.
  intros N G0 G'. induction L as [|a L IH]; simpl.
  - rewrite G', key_eqb_refl, G0; [reflexivity | tauto].
  - inversion N as [|? ? Na NL]; subst.
    destruct (key_eqb k a) eqn:E; simpl.
    + apply key_eqb_eq in E. subst a. rewrite app_nil_r.
      rewrite G', key_eqb_refl. f_equal.
      apply map_ext_in. intros k' I. rewrite G'.
      destruct (key_eqb k k') eqn:E'.
      * apply key_eqb_eq in E'. subst k'. contradiction.
      * now rewrite app_nil_r.
    + rewrite IH; [|exact NL|].
      * rewrite (G' a), E, app_nil_r. reflexivity.
      * intro NI. apply G0. simpl. intros [H | H]; [|contradiction].
        subst a. now rewrite key_eqb_refl in E.
Qed.

End GroupFacts.

(** * The condenser of each variant meets its description *)

Module CondenserFacts.

Import Py Run Fs Shape Spec GroupFacts RunFacts.
Local Open Scope list_scope.

Lemma key_of_match (f base frame ext : string) :
  Re.pattern_match f = Some (base, frame, ext) ->
  key_of f = Some (base, ext) /\ is_member f = true.
Proof. unfold key_of, is_member. now intros ->. Qed.

Lemma key_of_no_match (f : string) :
  Re.pattern_match f = None -> key_of f = None /\ is_member f = false.
Proof. unfold key_of, is_member. now intros ->. Qed.

Lemma is_member_key_of (f : string) :
  is_member f = true <-> exists k, key_of f = Some k.
Proof.
  unfold key_of, is_member.
  destruct (Re.pattern_match f) as [[[b fr] e]|]; split;
    try (intros [k H]); try discriminate; eauto.
Qed.

(** First variant. *)
Lemma collect_v1 (files : list string) :
  map fst (fst (CreateFileTree.collect files)) = keys files
  /\ snd (CreateFileTree.collect files) = non_matching files.
Proof.
  unfold CreateFileTree.collect.
  induction files as [|f done IH] using rev_ind; [now split|].
  rewrite fold_left_app. cbn [fold_left].
  destruct IH as [IH1 IH2].
  rewrite keys_snoc, non_matching_snoc.
  destruct (Re.pattern_match f) as [[[base frame] ext]|] eqn:M.
  - destruct (key_of_match _ _ _ _ M) as [-> ->]. cbn [fst snd].
    rewrite update_keys, IH1, IH2, app_nil_r. now split.
  - destruct (key_of_no_match _ M) as [-> ->]. cbn [fst snd].
    rewrite IH1, IH2, app_nil_r. now split.
Qed.

Lemma format_image_sequences_v1 (files : list string) (indent : string)
    (st : state) :
  CreateFileTree.format_image_sequences files indent st
  = condenser_v1 files indent st.
Proof.
  unfold CreateFileTree.format_image_sequences, condenser_v1.
  destruct (collect_v1 files) as [K O]. rewrite O, <- K.
  unfold andthen. rewrite for_each_map.
  rewrite (for_each_ext _ _
             (fun x => emit (condensed_line indent (fst x)))).
  - reflexivity.
  - intros [[base ext] v] st' _. reflexivity.
Qed.

(** Second variant. *)
Lemma collect_v5 (files : list string) :
  fst (FileTreeMakerV5.collect files)
  = map (fun k => (k, members files k)) (keys files)
  /\ snd (FileTreeMakerV5.collect files) = non_matching files.
Proof.
  unfold FileTreeMakerV5.collect.
  induction files as [|f done IH] using rev_ind; [now split|].
  rewrite fold_left_app. cbn [fold_left].
  destruct IH as [IH1 IH2].
  rewrite keys_snoc, non_matching_snoc.
  destruct (Re.pattern_match f) as [[[base frame] ext]|] eqn:M.
  - destruct (key_of_match _ _ _ _ M) as [K ->]. rewrite K. cbn [fst snd].
    rewrite IH1, IH2, app_nil_r. split; [|reflexivity].
    apply update_values.
    + apply NoDup_keys.
    + apply members_nil.
    + intro k'. rewrite members_snoc. unfold in_group. now rewrite K.
  - destruct (key_of_no_match _ M) as [-> ->]. cbn [fst snd].
    rewrite IH1, IH2, app_nil_r. split; [|reflexivity].
    apply map_ext. intro k. rewrite members_snoc.
    unfold in_group, key_of. rewrite M. now rewrite app_nil_r.
Qed.

Lemma condense_eq (indent : string)
    (d : list ((string * string) * list string))
    (other_files : list string) (st : state) :
  FileTreeMakerV5.condense indent d other_files st
  = (other_files ++ flat_map snd (filter (fun i => negb (big i)) d),
     emit_all (map (fun i => condensed_line indent (fst i)) (filter big d))
              st).
Proof.
  unfold FileTreeMakerV5.condense.
  revert other_files st. induction d as [|[[base ext] frames] d IH];
    intros other_files st; cbn [fold_left filter flat_map map].
  - now rewrite app_nil_r, emit_all_nil.
  - assert (B : big (base, ext, frames) = (1 <? List.length frames)%nat)
      by reflexivity.
    rewrite B.
    destruct (1 <? List.length frames)%nat; cbn [negb fst snd map flat_map].
    + rewrite IH, emit_all_cons. reflexivity.
    + rewrite IH. now rewrite app_assoc.
Qed.

Lemma filter_map_comm {A B : Type} (p : B -> bool) (h : A -> B)
    (l : list A) :
  filter p (map h l) = map h (filter (fun x => p (h x)) l).
Proof.
  induction l as [|x l IH]; simpl; [reflexivity|].
  destruct (p (h x)); simpl; now rewrite IH.
Qed.

Lemma flat_map_map {A B C : Type} (h : A -> B) (g : B -> list C)
    (l : list A) :
  flat_map g (map h l) = flat_map (fun x => g (h x)) l.
Proof. induction l as [|x l IH]; simpl; [reflexivity | now rewrite IH]. Qed.

Lemma small_is_single (files : list string) :
  filter (fun k => negb (1 <? List.length (members files k))%nat)
         (keys files)
  = single_groups files.
Proof.
  unfold single_groups. apply filter_ext_in. intros k I.
  apply members_not_nil in I.
  destruct (members files k) as [|a [|b l]]; [congruence | reflexivity..].
Qed.

Lemma format_image_sequences_v5 (files : list string) (indent : string)
    (root_path : fsnode) (st : state) :
  FileTreeMakerV5.format_image_sequences files indent root_path st
  = condenser_v5 files indent root_path st.
Proof.
  unfold FileTreeMakerV5.format_image_sequences, condenser_v5.
  destruct (collect_v5 files) as [D O]. rewrite D, O, condense_eq.
  cbn [fst snd]. unfold andthen. rewrite for_each_emit.
  rewrite !filter_map_comm, flat_map_map, !map_map. cbn [fst snd].
  unfold big. cbn [snd]. rewrite small_is_single.
  reflexivity.
Qed.

End CondenserFacts.

(** * [sorted] *)

Module SortFacts.

Import Py.
Local Open Scope list_scope.

Module O := OrderedTypeEx.String_as_OT.

Lemma le_cases (a b : string) : le a b <-> a = b \/ O.lt a b.
Proof.
  unfold le, String.leb. destruct (String.compare a b) eqn:C.
  - apply O.cmp_eq in C. tauto.
  - apply O.cmp_lt in C. tauto.
  - split; [discriminate|]. intros [E | L].
    + apply O.cmp_eq in E. unfold O.cmp in E. congruence.
    + apply O.cmp_lt in L. unfold O.cmp in L. congruence.
Qed.

Lemma le_trans (a b c : string) : le a b -> le b c -> le a c.
Proof.
  rewrite !le_cases. intros [-> | L1] [-> | L2]; auto.
  right. exact (O.lt_trans a b c L1 L2).
Qed.

Lemma le_total (a b : string) : (a <=? b)%string = false -> le b a.
Proof.
  intro H. destruct (String.leb_total a b) as [T | T]; [congruence | exact T].
Qed.

Lemma In_insert (x y : string) (l : list string) :
  In y (insert x l) <-> y = x \/ In y l.
Proof.
  induction l as [|a l IH]; simpl.
  - intuition.
  - destruct (x <=? a)%string; simpl; rewrite ?IH; intuition.
Qed.

Lemma In_sorted (y : string) (l : list string) : In y (sorted l) <-> In y l.
Proof.
  induction l as [|a l IH]; simpl; [tauto|].
  rewrite In_insert, IH. intuition.
Qed.

Lemma insert_ordered (x : string) (l : list string) :
  StronglySorted le l -> StronglySorted le (insert x l).
Proof.
  induction 1 as [|a l S IH F]; simpl.
  - constructor; constructor.
  - destruct (x <=? a)%string eqn:E.
    + constructor; [now constructor|]. constructor; [exact E|].
      eapply Forall_impl; [|exact F]. intros b Hb. now apply (le_trans x a b).
    + constructor; [exact IH|]. apply Forall_forall. intros b Hb.
      apply In_insert in Hb as [-> | Hb].
      * now apply le_total.
      * rewrite Forall_forall in F. now apply F.
Qed.

Lemma sorted_ordered (l : list string) : StronglySorted le (sorted l).
Proof.
  induction l as [|a l IH]; simpl; [constructor | now apply insert_ordered].
Qed.

Lemma insert_least (x : string) (l : list string) :
  Forall (le x) l -> insert x l = x :: l.
Proof.
  destruct l as [|a l]; simpl; [reflexivity|].
  intro F. inversion F as [|? ? H _]; subst. unfold le in H. now rewrite H.
Qed.

Lemma filter_insert_out (p : string -> bool) (x : string) (l : list string) :
  p x = false -> filter p (insert x l) = filter p l.
Proof.
  intro P. induction l as [|a l IH]; simpl; [now rewrite P|].
  destruct (x <=? a)%string; simpl; [now rewrite P|]. now rewrite IH.
Qed.

Lemma filter_insert_in (p : string -> bool) (x : string) (l : list string) :
  p x = true -> StronglySorted le l ->
  filter p (insert x l) = insert x (filter p l).
Proof.
  intros P S. induction S as [|a l S IH F]; simpl; [now rewrite P|].
  destruct (x <=? a)%string eqn:E; simpl; rewrite ?P.
  - destruct (p a); simpl; [now rewrite E|].
    symmetry. apply insert_least. apply Forall_forall. intros b Hb.
    apply filter_In in Hb as [Hb _]. rewrite Forall_forall in F.
    apply (le_trans x a b); [exact E | now apply F].
  - destruct (p a); simpl; [now rewrite E, IH | exact IH].
Qed.

(** Leaving names out before or after sorting comes to the same. *)
Lemma sorted_filter (p : string -> bool) (l : list string) :
  sorted (filter p l) = filter p (sorted l).
Proof.
  induction l as [|a l IH]; simpl; [reflexivity|].
  destruct (p a) eqn:P; simpl.
  - rewrite IH. symmetry. apply filter_insert_in; [exact P|].
    apply sorted_ordered.
  - rewrite IH. symmetry. now apply filter_insert_out.
Qed.

End SortFacts.

(** * The digits before the extension *)

Module DigitRunFacts.

Import Py Re Shape StringFacts ReFacts.
Local Open Scope list_scope.

Lemma to_list_append (a b : string) :
  list_ascii_of_string (a ++ b)%string
  = list_ascii_of_string a ++ list_ascii_of_string b.
Proof. induction a as [|c a IH]; simpl; [reflexivity | now rewrite IH]. Qed.

Lemma to_list_length (a : string) :
  List.length (list_ascii_of_string a) = String.length a.
Proof. induction a as [|c a IH]; simpl; [reflexivity | now rewrite IH]. Qed.

Lemma all_Forall (p : ascii -> bool) (s : string) :
  all p s = true -> Forall (fun c => p c = true) (list_ascii_of_string s).
Proof.
  induction s as [|c s IH]; simpl; [constructor|].
  intro A. apply andb_true_iff in A as [A1 A2]. constructor; auto.
Qed.

Lemma after_dot_app (u v : list ascii) :
  Forall (fun c => not_dot c = true) u ->
  after_dot (u ++ "."%char :: v) = v.
Proof.
  induction 1 as [|c u C _ IH]; simpl; [reflexivity|]. now rewrite C.
Qed.

Lemma leading_digits_app (u v : list ascii) :
  Forall (fun c => is_digit c = true) u ->
  List.length u <= leading_digits (u ++ v).
Proof.
  induction 1 as [|c u C _ IH]; simpl; [lia|]. rewrite C. lia.
Qed.

Lemma rev_middle {A : Type} (a b : list A) (x : A) :
  rev (a ++ x :: b) = rev b ++ x :: rev a.
Proof. rewrite rev_app_distr. simpl. now rewrite <- app_assoc. Qed.

Lemma frame_shape_digit_run (filename base frame ext : string) :
  frame_shape filename base frame ext -> 4 <= digit_run filename.
Proof.
  intros (t & -> & T & _ & L & D & _ & A). unfold digit_run.
  assert (E : list_ascii_of_string (base ++ frame ++ "." ++ ext ++ t)%string
              = (list_ascii_of_string base ++ list_ascii_of_string frame)
                ++ "."%char :: list_ascii_of_string (ext ++ t)%string).
  { rewrite !to_list_append. simpl. now rewrite <- app_assoc. }
  rewrite E, rev_middle, after_dot_app.
  - rewrite rev_app_distr. rewrite <- L, <- to_list_length, <- length_rev.
    apply leading_digits_app. apply Forall_rev. now apply all_Forall.
  - apply Forall_rev. apply all_Forall. now apply ext_tail_not_dot.
Qed.

End DigitRunFacts.

(** * Actions that only append *)

Module WriterFacts.

Import Run RunFacts.
Local Open Scope list_scope.

Lemma followed_empty_r (st : state) : followed st empty = st.
Proof. destruct st. unfold followed. simpl. now rewrite !app_nil_r. Qed.

Lemma followed_empty_l (st : state) : followed empty st = st.
Proof. now destruct st. Qed.

Lemma followed_assoc (a b c : state) :
  followed a (followed b c) = followed (followed a b) c.
Proof. unfold followed. simpl. now rewrite !app_assoc. Qed.

Lemma extend_extend (a b : state) (o : outcome) :
  extend a (extend b o) = extend (followed a b) o.
Proof. destruct o; simpl; now rewrite followed_assoc. Qed.

Lemma extend_empty (o : outcome) : extend empty o = o.
Proof. destruct o; simpl; now rewrite followed_empty_l. Qed.

Lemma writer_emit (line : string) : writer (emit line).
Proof. intro st. reflexivity. Qed.

Lemma writer_print (m : message) : writer (print m).
Proof. intro st. unfold print, extend, followed. simpl. now rewrite app_nil_r. Qed.

Lemma writer_raise (e : exn) : writer (raise e).
Proof. intro st. unfold raise. simpl. now rewrite followed_empty_r. Qed.

Lemma writer_skip : writer skip.
Proof. intro st. unfold skip. simpl. now rewrite followed_empty_r. Qed.

Lemma writer_andthen (a b : action) :
  writer a -> writer b -> writer (a ;; b).
Proof.
  intros A B st. unfold andthen. rewrite (A st).
  destruct (a empty) as [s|e s]; simpl; [|reflexivity].
  now rewrite (B (followed st s)), (B s), extend_extend.
Qed.

Lemma writer_for_each {A : Type} (xs : list A) (body : A -> action) :
  (forall x, In x xs -> writer (body x)) -> writer (for_each xs body).
Proof.
  induction xs as [|x xs IH]; intro W; simpl; [apply writer_skip|].
  apply writer_andthen.
  - apply W. now left.
  - apply IH. intros y Hy. apply W. now right.
Qed.

Lemma writer_ext (a b : action) :
  (forall st, a st = b st) -> writer b -> writer a.
Proof. intros E W st. now rewrite !E. Qed.

(** What a writer leaves, from what it appends to nothing. *)
Lemma writer_lines (a : action) (st : state) :
  writer a ->
  output_lines (final (a st)) = output_lines st ++ lines_of a
  /\ escaped (a st) = escaped (a empty).
Proof.
  intro W. rewrite (W st). unfold lines_of.
  destruct (a empty); simpl; now split.
Qed.

Lemma andthen_lines (a b : action) :
  writer b ->
  lines_of (a ;; b)
  = lines_of a ++ (if returned (a empty) then lines_of b else []).
Proof.
  intro B. unfold lines_of, andthen.
  destruct (a empty) as [s|e s]; simpl; [|now rewrite app_nil_r].
  rewrite (B s). destruct (b empty); reflexivity.
Qed.

Lemma andthen_escaped (a b : action) :
  writer b ->
  escaped ((a ;; b) empty)
  = match escaped (a empty) with
    | Some e => Some e
    | None => escaped (b empty)
    end.
Proof.
  intro B. unfold andthen. destruct (a empty) as [s|e s]; simpl; [|reflexivity].
  rewrite (B s). now destruct (b empty).
Qed.

Lemma returned_escaped (o : outcome) : returned o = true <-> escaped o = None.
Proof. destruct o; simpl; split; congruence. Qed.

End WriterFacts.

(** * The walk *)

Module WalkerFacts.

Import Py Run Fs RunFacts WriterFacts.
Local Open Scope list_scope.

(** Induction on the tree, through the listings. *)
Lemma fsnode_tree_ind (P : fsnode -> Prop) :
  (forall c, P (File c)) ->
  (forall raw, Forall (fun e => P (snd e)) raw -> P (Dir raw)) ->
  P Vanished -> P Denied ->
  forall node, P node.
Proof.
  intros HF HD HV HN.
  refine (fix go (node : fsnode) : P node :=
            match node with
            | File c => HF c
            | Dir raw =>
                HD raw
                  ((fix all (l : list (string * fsnode))
                     : Forall (fun e => P (snd e)) l :=
                      match l with
                      | [] => Forall_nil _
                      | e :: l' => Forall_cons e (go (snd e)) (all l')
                      end) raw)
            | Vanished => HV
            | Denied => HN
            end).
Qed.

Lemma lookup_map {A B : Type} (f : A -> B) (name : string)
    (raw : list (string * A)) :
  lookup name (map (fun e => (fst e, f (snd e))) raw)
  = option_map f (lookup name raw).
Proof.
  induction raw as [|[n x] raw IH]; simpl; [reflexivity|].
  destruct (name =? n)%string; [reflexivity | exact IH].
Qed.

Lemma lookup_In {A : Type} (name : string) (raw : list (string * A)) (x : A) :
  lookup name raw = Some x -> In (name, x) raw.
Proof.
  induction raw as [|[n y] raw IH]; simpl; [discriminate|].
  destruct (name =? n)%string eqn:E.
  - intro H. injection H as ->. apply String.eqb_eq in E. subst. now left.
  - intro H. right. now apply IH.
Qed.

Lemma lookup_None {A : Type} (name : string) (raw : list (string * A)) :
  lookup name raw = None -> ~ In name (map fst raw).
Proof.
  induction raw as [|[n y] raw IH]; simpl; [tauto|].
  destruct (name =? n)%string eqn:E; [discriminate|].
  apply String.eqb_neq in E. intros H [G | G]; [congruence | now apply IH].
Qed.

Lemma for_each_lines {A : Type} (xs : list A) (body : A -> action) :
  (forall x, In x xs -> writer (body x)) ->
  returned (for_each xs body empty) = true ->
  lines_of (for_each xs body) = flat_map (fun x => lines_of (body x)) xs.
Proof.
  induction xs as [|x xs IH]; intros W R; [reflexivity|].
  cbn [for_each flat_map] in *.
  assert (Wx : writer (for_each xs body)).
  { apply writer_for_each. intros y Hy. apply W. now right. }
  apply returned_escaped in R. rewrite (andthen_escaped _ _ Wx) in R.
  rewrite (andthen_lines _ _ Wx).
  destruct (escaped (body x empty)) eqn:E; [discriminate|].
  apply returned_escaped in E. rewrite E. f_equal.
  apply IH.
  - intros y Hy. apply W. now right.
  - now apply returned_escaped.
Qed.

Lemma lines_of_emit_then (line : string) (b : action) :
  writer b -> lines_of (emit line ;; b) = line :: lines_of b.
Proof. intro B. now rewrite (andthen_lines _ _ B). Qed.








Section Walk.

Variable skipped : string -> bool.
Variable list_all_files_func : list string -> string -> fsnode -> action.
Variable format_image_sequences : list string -> string -> fsnode -> action.

Abbreviation walk :=
  (Walker.list_directory_as_tree skipped list_all_files_func
     format_image_sequences).
Abbreviation descend :=
  (Walker.descend skipped list_all_files_func format_image_sequences).
Abbreviation render_files :=
  (Walker.render_files skipped list_all_files_func format_image_sequences).
Abbreviation dirs_of := (Walker.dirs_of skipped).
Abbreviation files_of := (Walker.files_of skipped).

Lemma separate_eq (root_path : fsnode) (entries : list string) :
  Walker.separate skipped root_path entries
  = (filter (fun e => negb (skipped e) && negb (os_path_isdir root_path e))
            entries,
     filter (fun e => negb (skipped e) && os_path_isdir root_path e) entries).
Proof.
  unfold Walker.separate.
  enough (G : forall files dirs,
             fold_left
               (fun acc entry =>
                  if skipped entry then acc
                  else if os_path_isdir root_path entry
                       then (fst acc, snd acc ++ [entry])
                       else (fst acc ++ [entry], snd acc))
               entries (files, dirs)
             = (files ++ filter (fun e => negb (skipped e)
                                          && negb (os_path_isdir root_path e))
                                entries,
                dirs ++ filter (fun e => negb (skipped e)
                                         && os_path_isdir root_path e)
                               entries))
    by apply (G [] []).
  induction entries as [|e entries IH]; intros files dirs; simpl.
  - now rewrite !app_nil_r.
  - destruct (skipped e); simpl; [apply IH|].
    destruct (os_path_isdir root_path e); simpl; rewrite IH; simpl;
      now rewrite <- ?app_assoc.
Qed.

Lemma walk_dir (raw : list (string * fsnode)) (indent : string)
    (list_all_files : bool) (st : state) :
  walk (Dir raw) indent list_all_files st
  = (for_each (dirs_of (Dir raw))
       (fun directory =>
          emit (indent ++ directory ++ "/") ;;
          descend (Dir raw) directory (indent ++ "  ") list_all_files) ;;
     render_files (Dir raw) indent list_all_files) st.
Proof.
  cbn [Walker.list_directory_as_tree]. unfold andthen at 1 3.
  unfold Walker.dirs_of, Walker.names.
  rewrite (for_each_ext _ _
             (fun directory =>
                emit (indent ++ directory ++ "/") ;;
                descend (Dir raw) directory (indent ++ "  ") list_all_files)).
  - reflexivity.
  - intros d st' _. unfold andthen, Walker.descend, child.
    destruct (emit _ st'); [|reflexivity].
    rewrite lookup_map. now destruct (lookup d raw).
Qed.

Hypothesis list_all_writer :
  forall files indent root_path,
    writer (list_all_files_func files indent root_path).
Hypothesis condensed_writer :
  forall files indent root_path,
    writer (format_image_sequences files indent root_path).

Lemma writer_render_files (root_path : fsnode) (indent : string)
    (list_all_files : bool) :
  writer (render_files root_path indent list_all_files).
Proof.
  unfold Walker.render_files. destruct list_all_files; auto.
Qed.

Lemma writer_walk (root_path : fsnode) :
  forall indent list_all_files, writer (walk root_path indent list_all_files).
Proof.
  induction root_path as [c|raw IH| |] using fsnode_tree_ind;
    intros indent list_all_files.
  - apply writer_raise.
  - apply (writer_ext _ _ (walk_dir raw indent list_all_files)).
    apply writer_andthen; [|apply writer_render_files].
    apply writer_for_each. intros d _.
    apply writer_andthen; [apply writer_emit|].
    unfold Walker.descend, child.
    destruct (lookup d raw) as [node|] eqn:L; [|apply writer_print].
    apply lookup_In in L. rewrite Forall_forall in IH.
    apply (IH (d, node) L).
  - apply writer_print.
  - apply writer_raise.
Qed.

Lemma writer_descend (root_path : fsnode) (d indent : string)
    (list_all_files : bool) :
  writer (descend root_path d indent list_all_files).
Proof.
  unfold Walker.descend. destruct (child root_path d).
  - apply writer_walk.
  - apply writer_print.
Qed.

(** The lines of one level: the directories, each followed by its
    subtree, then the files. *)
Lemma walk_dir_lines (raw : list (string * fsnode)) (indent : string)
    (list_all_files : bool) (st st' : state) :
  walk (Dir raw) indent list_all_files st = Returned st' ->
  output_lines st'
  = output_lines st
    ++ flat_map
         (fun d =>
            (indent ++ d ++ "/")%string
            :: lines_of (descend (Dir raw) d (indent ++ "  ") list_all_files))
         (dirs_of (Dir raw))
    ++ lines_of (render_files (Dir raw) indent list_all_files).
Proof.
  intro H.
  destruct (writer_lines _ st (writer_walk (Dir raw) indent list_all_files))
    as [L E].
  rewrite H in L, E. cbn [final escaped] in L, E. rewrite L. f_equal.
  pose (body := fun directory : string =>
                  emit (indent ++ directory ++ "/") ;;
                  descend (Dir raw) directory (indent ++ "  ") list_all_files).
  assert (W : forall x, In x (dirs_of (Dir raw)) -> writer (body x)).
  { intros x _. apply writer_andthen; [apply writer_emit|].
    apply writer_descend. }
  assert (WR := writer_render_files (Dir raw) indent list_all_files).
  unfold lines_of at 1. rewrite walk_dir in E |- *. fold body in E |- *.
  change (output_lines (final ((for_each (dirs_of (Dir raw)) body ;;
                                render_files (Dir raw) indent list_all_files)
                                 empty)))
    with (lines_of (for_each (dirs_of (Dir raw)) body ;;
                    render_files (Dir raw) indent list_all_files)).
  rewrite (andthen_escaped _ _ WR) in E. rewrite (andthen_lines _ _ WR).
  destruct (escaped (for_each (dirs_of (Dir raw)) body empty)) eqn:D;
    [discriminate|].
  apply returned_escaped in D. rewrite D, (for_each_lines _ _ W D).
  f_equal. apply flat_map_ext. intro d. unfold body.
  apply lines_of_emit_then. apply writer_descend.
Qed.

(** The lines of one level, however the walk ends: those of the loop over
    the directories, then, if the loop was not cut short, those of the
    files. *)
Lemma walk_dir_outcome (raw : list (string * fsnode)) (indent : string)
    (list_all_files : bool) (st : state) :
  output_lines (final (walk (Dir raw) indent list_all_files st))
  = output_lines st
    ++ lines_of (Walker.enter_dirs skipped list_all_files_func
                   format_image_sequences (Dir raw) indent list_all_files)
    ++ (if returned (Walker.enter_dirs skipped list_all_files_func
                       format_image_sequences (Dir raw) indent list_all_files
                       empty)
        then lines_of (render_files (Dir raw) indent list_all_files)
        else []).
Proof.
  destruct (writer_lines _ st (writer_walk (Dir raw) indent list_all_files))
    as [L _].
  rewrite L. f_equal.
  rewrite <- (andthen_lines _ _
                (writer_render_files (Dir raw) indent list_all_files)).
  unfold lines_of. now rewrite walk_dir.
Qed.

(** The renderers look at no file but those they are given. *)
Hypothesis list_all_local :
  forall files indent r r',
    (forall f, In f files -> zipfile_open r f = zipfile_open r' f) ->
    forall st, list_all_files_func files indent r st
               = list_all_files_func files indent r' st.
Hypothesis condensed_local :
  forall files indent r r',
    (forall f, In f files -> zipfile_open r f = zipfile_open r' f) ->
    forall st, format_image_sequences files indent r st
               = format_image_sequences files indent r' st.

Lemma render_files_local (r r' : fsnode) (indent : string)
    (list_all_files : bool) (st : state) :
  files_of r' = files_of r ->
  (forall f, In f (files_of r) -> zipfile_open r f = zipfile_open r' f) ->
  render_files r indent list_all_files st
  = render_files r' indent list_all_files st.
Proof.
  intros F Z. unfold Walker.render_files. rewrite F.
  destruct list_all_files; [now apply list_all_local
                           | now apply condensed_local].
Qed.

Lemma lookup_prune (name : string) (raw : list (string * fsnode)) :
  skipped name = false ->
  lookup name
    (filter (fun e => negb (skipped (fst e)))
            (map (fun e => (fst e, prune skipped (snd e))) raw))
  = option_map (prune skipped) (lookup name raw).
Proof.
  intro S. induction raw as [|[n x] raw IH]; simpl; [reflexivity|].
  destruct (name =? n)%string eqn:E.
  - apply String.eqb_eq in E. subst n. rewrite S. simpl.
    now rewrite String.eqb_refl.
  - destruct (skipped n); simpl; [exact IH|]. now rewrite E.
Qed.

Lemma names_prune (raw : list (string * fsnode)) :
  map fst (filter (fun e => negb (skipped (fst e)))
                  (map (fun e => (fst e, prune skipped (snd e))) raw))
  = filter (fun n => negb (skipped n)) (map fst raw).
Proof.
  induction raw as [|[n x] raw IH]; simpl; [reflexivity|].
  destruct (skipped n); simpl; now rewrite IH.
Qed.

Lemma isdir_prune (name : string) (raw : list (string * fsnode)) :
  skipped name = false ->
  os_path_isdir (prune skipped (Dir raw)) name = os_path_isdir (Dir raw) name.
Proof.
  intro S. unfold os_path_isdir. cbn [prune child].
  rewrite (lookup_prune _ _ S).
  destruct (lookup name raw) as [[c|r| |]|]; reflexivity.
Qed.

Lemma zipfile_open_prune (name : string) (raw : list (string * fsnode)) :
  skipped name = false ->
  zipfile_open (prune skipped (Dir raw)) name = zipfile_open (Dir raw) name.
Proof.
  intro S. cbn [prune zipfile_open]. rewrite (lookup_prune _ _ S).
  destruct (lookup name raw) as [[c|r| |]|]; reflexivity.
Qed.

Lemma filter_filter_ext {A : Type} (p q r : A -> bool) (l : list A) :
  (forall x, p x = true -> q x = r x) ->
  filter (fun x => p x && q x) (filter p l) = filter (fun x => p x && r x) l.
Proof.
  intro H. induction l as [|x l IH]; simpl; [reflexivity|].
  destruct (p x) eqn:P; simpl; [|exact IH].
  rewrite P, (H _ P). simpl. now rewrite IH.
Qed.

Lemma separate_prune (raw : list (string * fsnode)) :
  Walker.separate skipped (prune skipped (Dir raw))
    (sorted (Walker.names (prune skipped (Dir raw))))
  = Walker.separate skipped (Dir raw) (sorted (Walker.names (Dir raw))).
Proof.
  rewrite !separate_eq. cbn [prune Walker.names].
  rewrite names_prune, SortFacts.sorted_filter.
  f_equal.
  - apply (filter_filter_ext (fun n => negb (skipped n))).
    intros x P. apply negb_true_iff in P.
    change (Dir (filter (fun e => negb (skipped (fst e)))
                        (map (fun e => (fst e, prune skipped (snd e))) raw)))
      with (prune skipped (Dir raw)).
    now rewrite (isdir_prune _ _ P).
  - apply (filter_filter_ext (fun n => negb (skipped n))).
    intros x P. apply negb_true_iff in P.
    change (Dir (filter (fun e => negb (skipped (fst e)))
                        (map (fun e => (fst e, prune skipped (snd e))) raw)))
      with (prune skipped (Dir raw)).
    now rewrite (isdir_prune _ _ P).
Qed.

Lemma dirs_not_skipped (root_path : fsnode) (d : string) :
  In d (dirs_of root_path) ->
  skipped d = false /\ os_path_isdir root_path d = true.
Proof.
  unfold Walker.dirs_of. rewrite separate_eq. cbn [snd].
  rewrite filter_In, andb_true_iff, negb_true_iff. tauto.
Qed.

Lemma files_not_skipped (root_path : fsnode) (f : string) :
  In f (files_of root_path) ->
  skipped f = false /\ os_path_isdir root_path f = false.
Proof.
  unfold Walker.files_of. rewrite separate_eq. cbn [fst].
  rewrite filter_In, andb_true_iff, !negb_true_iff. tauto.
Qed.

(** The walk does not see the entries it skips: it runs on the pruned
    tree as on the tree. *)
Lemma walk_prune (root_path : fsnode) :
  forall indent list_all_files st,
    walk (prune skipped root_path) indent list_all_files st
    = walk root_path indent list_all_files st.
Proof.
  induction root_path as [c|raw IH| |] using fsnode_tree_ind;
    intros indent list_all_files st; try reflexivity.
  change (prune skipped (Dir raw))
    with (Dir (filter (fun e => negb (skipped (fst e)))
                      (map (fun e => (fst e, prune skipped (snd e))) raw))).
  rewrite !walk_dir.
  change (Dir (filter (fun e => negb (skipped (fst e)))
                      (map (fun e => (fst e, prune skipped (snd e))) raw)))
    with (prune skipped (Dir raw)).
  assert (D : dirs_of (prune skipped (Dir raw)) = dirs_of (Dir raw)).
  { unfold Walker.dirs_of. now rewrite separate_prune. }
  assert (F : files_of (prune skipped (Dir raw)) = files_of (Dir raw)).
  { unfold Walker.files_of. now rewrite separate_prune. }
  rewrite D. unfold andthen at 1 3.
  rewrite (for_each_ext _ _
             (fun directory =>
                emit (indent ++ directory ++ "/") ;;
                descend (Dir raw) directory (indent ++ "  ") list_all_files)).
  - destruct (for_each _ _ st) as [st'|e st']; [|reflexivity].
    symmetry. apply render_files_local; [exact F|].
    intros f Hf. apply files_not_skipped in Hf as [S _].
    symmetry. now apply zipfile_open_prune.
  - intros d st' Hd. apply dirs_not_skipped in Hd as [S _].
    unfold andthen. destruct (emit _ st'); [|reflexivity].
    unfold Walker.descend. cbn [prune child]. rewrite (lookup_prune _ _ S).
    destruct (lookup d raw) as [node|] eqn:L; [|reflexivity].
    cbn [option_map]. apply lookup_In in L. rewrite Forall_forall in IH.
    apply (IH (d, node) L).
Qed.

(** On an empty list of files the renderers do nothing. *)
Hypothesis list_all_nil :
  forall indent r st, list_all_files_func [] indent r st = Returned st.
Hypothesis condensed_nil :
  forall indent r st, format_image_sequences [] indent r st = Returned st.





End Walk.

End WalkerFacts.

(** * The renderers of the two variants *)

Module VariantFacts.

Import Py Run Fs Shape Spec RunFacts WriterFacts.
Local Open Scope list_scope.

Lemma v1_list_all_writer (files : list string) (indent : string) :
  writer (CreateFileTree.list_all_files_func files indent).
Proof. apply writer_for_each. intros x _. apply writer_emit. Qed.

Lemma v1_condensed_writer (files : list string) (indent : string) :
  writer (CreateFileTree.format_image_sequences files indent).
Proof.
  apply writer_andthen; apply writer_for_each.
  - intros [[base ext] v] _. apply writer_emit.
  - intros x _. apply writer_emit.
Qed.

Lemma writer_list_file_or_zip (filename indent : string) (root_path : fsnode) :
  writer (FileTreeMakerV5.list_file_or_zip filename indent root_path).
Proof.
  unfold FileTreeMakerV5.list_file_or_zip.
  destruct (endswith filename ".zip"); [|apply writer_emit].
  destruct (zipfile_open root_path filename) as [infolist|[]];
    try apply writer_raise; try apply writer_emit.
  apply writer_andthen; [apply writer_emit|].
  apply writer_for_each. intros x _. apply writer_emit.
Qed.

Lemma v5_list_all_writer (files : list string) (indent : string)
    (root_path : fsnode) :
  writer (FileTreeMakerV5.list_all_files_func files indent root_path).
Proof.
  apply writer_for_each. intros x _. apply writer_list_file_or_zip.
Qed.

Lemma v5_condensed_writer (files : list string) (indent : string)
    (root_path : fsnode) :
  writer (FileTreeMakerV5.format_image_sequences files indent root_path).
Proof.
  apply (writer_ext _ (condenser_v5 files indent root_path)).
  - apply CondenserFacts.format_image_sequences_v5.
  - apply writer_andthen; apply writer_for_each.
    + intros x _. apply writer_emit.
    + intros x _. apply writer_list_file_or_zip.
Qed.

Lemma list_file_or_zip_local (filename indent : string) (r r' : fsnode)
    (st : state) :
  zipfile_open r filename = zipfile_open r' filename ->
  FileTreeMakerV5.list_file_or_zip filename indent r st
  = FileTreeMakerV5.list_file_or_zip filename indent r' st.
Proof. intro Z. unfold FileTreeMakerV5.list_file_or_zip. now rewrite Z. Qed.

Lemma v5_list_all_local (files : list string) (indent : string)
    (r r' : fsnode) :
  (forall f, In f files -> zipfile_open r f = zipfile_open r' f) ->
  forall st, FileTreeMakerV5.list_all_files_func files indent r st
             = FileTreeMakerV5.list_all_files_func files indent r' st.
Proof.
  intros Z st. apply for_each_ext. intros x st' Hx.
  apply list_file_or_zip_local. now apply Z.
Qed.

Lemma rendered_incl (files : list string) (f : string) :
  In f (rendered files) -> In f files.
Proof.
  unfold rendered. rewrite SortFacts.In_sorted, in_app_iff. intros [H | H].
  - unfold non_matching in H. now apply filter_In in H.
  - apply in_flat_map in H as (k & _ & H).
    now apply GroupFacts.In_members in H.
Qed.

Lemma v5_condensed_local (files : list string) (indent : string)
    (r r' : fsnode) :
  (forall f, In f files -> zipfile_open r f = zipfile_open r' f) ->
  forall st, FileTreeMakerV5.format_image_sequences files indent r st
             = FileTreeMakerV5.format_image_sequences files indent r' st.
Proof.
  intros Z st. rewrite !CondenserFacts.format_image_sequences_v5.
  unfold condenser_v5, andthen.
  destruct (for_each (condensed_groups files) _ st) as [st'|e st'];
    [|reflexivity].
  apply for_each_ext. intros x st'' Hx.
  apply list_file_or_zip_local. apply Z. now apply rendered_incl.
Qed.

(** The walk of each variant only appends. *)
Lemma v1_writer_walk (root_path : fsnode) (indent : string)
    (list_all_files : bool) :
  writer (CreateFileTree.list_directory_as_tree root_path indent
            list_all_files).
Proof.
  apply WalkerFacts.writer_walk.
  - intros files i _. apply v1_list_all_writer.
  - intros files i _. apply v1_condensed_writer.
Qed.

Lemma v5_writer_walk (root_path : fsnode) (indent : string)
    (list_all_files : bool) :
  writer (FileTreeMakerV5.list_directory_as_tree root_path indent
            list_all_files).
Proof.
  apply WalkerFacts.writer_walk.
  - apply v5_list_all_writer.
  - apply v5_condensed_writer.
Qed.

End VariantFacts.

(** * The indentation pass *)

Module IndentFacts.

Import Py StringFacts.

Lemma substring_all (s : string) : substring 0 (String.length s) s = s.
Proof. induction s as [|c s IH]; simpl; [reflexivity | now rewrite IH]. Qed.

Lemma startswith_two_spaces (line : string) :
  startswith line "  " = true <-> exists rest, line = "  " ++ rest.
Proof.
  unfold startswith. split.
  - destruct line as [|a [|b rest]]; cbn [String.prefix]; intro H.
    + discriminate H.
    + destruct (ascii_dec " " a); discriminate H.
    + destruct (ascii_dec " " a) as [<-|]; [|discriminate H].
      destruct (ascii_dec " " b) as [<-|]; [|discriminate H].
      now exists rest.
  - intros [rest ->]. cbn [append String.prefix].
    destruct (ascii_dec " " " ") as [_|N]; [|now elim N].
    now destruct rest.
Qed.

Lemma slice_two_spaces (rest : string) : slice_from 2 ("  " ++ rest) = rest.
Proof.
  unfold slice_from. simpl. rewrite Nat.sub_0_r. apply substring_all.
Qed.

Lemma few_spaces_not_indented (line : string) :
  leading_spaces line < 2 -> startswith line "  " = false.
Proof.
  intro L. destruct (startswith line "  ") eqn:E; [|reflexivity].
  apply startswith_two_spaces in E as [rest ->]. simpl in L. lia.
Qed.

End IndentFacts.

(** * The numbered output files *)

Module OutputFileFacts.

Import Py StringFacts.
Local Open Scope list_scope.

Lemma parse_format_02d (n : nat) : parse_int (format_02d n) = Some n.
Proof.
  unfold parse_int, format_02d.
  destruct (String.length _ <? 2)%nat.
  - cbn [append NilEmpty.uint_of_string]. rewrite NilEmpty.usu. simpl.
    change (Nat.of_uint (Decimal.D0 (Nat.to_uint n)))
      with (Nat.of_uint (Nat.to_uint n)).
    now rewrite DecimalNat.Unsigned.of_to.
  - rewrite NilEmpty.usu. simpl. now rewrite DecimalNat.Unsigned.of_to.
Qed.

Lemma format_02d_inj (n m : nat) : format_02d n = format_02d m -> n = m.
Proof.
  intro H. apply (f_equal parse_int) in H.
  rewrite !parse_format_02d in H. now injection H.
Qed.

Lemma numbered_shape (root_directory : string) :
  exists prefix,
    forall n,
      CreateFileTree.numbered root_directory n
      = (prefix ++ "file_list-" ++ format_02d n ++ ".txt")%string.
Proof.
  unfold CreateFileTree.numbered, os_path_join, startswith.
  cbn [append String.prefix].
  destruct (ascii_dec "/" "f") as [E|_]; [discriminate E|].
  destruct ((root_directory =? "")%string || endswith root_directory "/").
  - now exists root_directory.
  - exists (root_directory ++ "/")%string. intro n.
    now rewrite append_assoc.
Qed.

Lemma numbered_inj (root_directory : string) (n m : nat) :
  CreateFileTree.numbered root_directory n
  = CreateFileTree.numbered root_directory m ->
  n = m.
Proof.
  destruct (numbered_shape root_directory) as [prefix P].
  rewrite !P. intro H.
  apply append_inv_head in H. apply append_inv_head in H.
  apply append_inv_tail in H. now apply format_02d_inj.
Qed.

Lemma exists_In (existing : list string) (path : string) :
  CreateFileTree.os_path_exists existing path = true <-> In path existing.
Proof.
  unfold CreateFileTree.os_path_exists. rewrite existsb_exists. split.
  - intros (x & I & E). apply String.eqb_eq in E. now subst.
  - intro I. exists path. split; [exact I | apply String.eqb_refl].
Qed.

(** What the loop returns is the first free counter. *)
Lemma search_some (fuel : nat) (existing : list string)
    (root_directory : string) (counter : nat) (path : string) :
  CreateFileTree.search fuel existing root_directory counter = Some path ->
  exists n,
    counter <= n
    /\ path = CreateFileTree.numbered root_directory n
    /\ CreateFileTree.os_path_exists existing path = false
    /\ forall m, counter <= m < n ->
                 CreateFileTree.os_path_exists existing
                   (CreateFileTree.numbered root_directory m) = true.
Proof.
  revert counter. induction fuel as [|fuel IH]; intro counter; simpl;
    [discriminate|].
  destruct (CreateFileTree.os_path_exists existing
              (CreateFileTree.numbered root_directory counter)) eqn:E; simpl.
  - intro H. apply IH in H as (n & L & P & F & B). exists n.
    repeat split; auto; try lia.
    intros m Hm. destruct (Nat.eq_dec m counter) as [-> | N]; [exact E|].
    apply B. lia.
  - intro H. injection H as <-. exists counter.
    repeat split; auto. intros m Hm. lia.
Qed.

(** The loop gives up only when every counter it tried is taken. *)
Lemma search_none (fuel : nat) (existing : list string)
    (root_directory : string) (counter : nat) :
  CreateFileTree.search fuel existing root_directory counter = None ->
  forall m, In m (seq counter fuel) ->
            In (CreateFileTree.numbered root_directory m) existing.
Proof.
  revert counter. induction fuel as [|fuel IH]; intro counter; simpl;
    [tauto|].
  destruct (CreateFileTree.os_path_exists existing
              (CreateFileTree.numbered root_directory counter)) eqn:E; simpl;
    [|discriminate].
  intros H m [<- | Hm].
  - now apply exists_In.
  - now apply (IH (S counter)).
Qed.

(** There are more counters than paths: the loop ends in time. *)
Lemma search_total (existing : list string) (root_directory : string)
    (counter : nat) :
  CreateFileTree.search (S (List.length existing)) existing root_directory
    counter <> None.
Proof.
  intro H.
  pose proof (search_none _ _ _ _ H) as A.
  assert (N : NoDup (map (CreateFileTree.numbered root_directory)
                         (seq counter (S (List.length existing))))).
  { apply Finite.Injective_map_NoDup; [|apply seq_NoDup].
    intros n m. apply numbered_inj. }
  assert (I : incl (map (CreateFileTree.numbered root_directory)
                        (seq counter (S (List.length existing))))
                   existing).
  { intros p Hp. apply in_map_iff in Hp as (m & <- & Hm). now apply A. }
  pose proof (NoDup_incl_length N I) as L.
  rewrite length_map, length_seq in L. lia.
Qed.

End OutputFileFacts.

(** * The claims *)

Import Py Run Fs Shape Spec.

(** ** C1 *)

(** C1, as stated, fails: for the file list ["a.0001.exr"; "a.0002.exr"]
    the condensed mode of neither variant appends the single line
    ["a[image sequence].exr"] (with an empty indent). *)
Lemma C1_counterexample :
  output_lines
    (final (CreateFileTree.format_image_sequences
              ["a.0001.exr"; "a.0002.exr"] "" empty))
  <> ["a[image sequence].exr"]
  /\ output_lines
       (final (FileTreeMakerV5.format_image_sequences
                 ["a.0001.exr"; "a.0002.exr"] "" (Dir []) empty))
     <> ["a[image sequence].exr"].
Proof. split; vm_compute; discriminate. Qed.

(** C1, amended: for a directory whose file list is exactly
    ["a.0001.exr"; "a.0002.exr"], the condensed mode of either variant
    appends exactly one line, [indent ++ "a.[image sequence].exr"] (the base
    keeps the dot that precedes the frame number), and the list-all mode of
    either variant appends both file names, each as [indent ++ filename]. *)
Theorem C1_two_frames_condensed_and_listed :
  forall (indent : string) (root_path : fsnode) (st : state),
    let files := ["a.0001.exr"; "a.0002.exr"] in
    CreateFileTree.format_image_sequences files indent st
    = Returned (emit_all [indent ++ "a.[image sequence].exr"] st)
    /\ FileTreeMakerV5.format_image_sequences files indent root_path st
       = Returned (emit_all [indent ++ "a.[image sequence].exr"] st)
    /\ CreateFileTree.list_all_files_func files indent st
       = Returned (emit_all [indent ++ "a.0001.exr"; indent ++ "a.0002.exr"] st)
    /\ FileTreeMakerV5.list_all_files_func files indent root_path st
       = Returned (emit_all [indent ++ "a.0001.exr"; indent ++ "a.0002.exr"] st).
Proof.
  intros indent root_path st files. subst files.
  split; [|split; [|split]].
  - rewrite CondenserFacts.format_image_sequences_v1. reflexivity.
  - rewrite CondenserFacts.format_image_sequences_v5. reflexivity.
  - unfold CreateFileTree.list_all_files_func.
    now rewrite RunFacts.for_each_emit.
  - unfold FileTreeMakerV5.list_all_files_func.
    rewrite (RunFacts.for_each_ext _ _ (fun f => emit (indent ++ f))).
    + now rewrite RunFacts.for_each_emit.
    + intros x st' [<- | [<- | []]]; reflexivity.
Qed.

(** ** C2 *)

(** C2: in condensed mode the second variant emits a condensed line for a
    group exactly when the group has two members or more, and hands the
    member of a group of one to the per-file renderer; the first variant
    emits a condensed line for every group, a group of one included.
    Each variant's [format_image_sequences] is its description
    ([condenser_v5], [condenser_v1]), in which the groups condensed by the
    second variant are those of two or more, the file of a group of one is
    among the names rendered, and a group of one is still a group. *)
Theorem C2_condensing_threshold :
  forall (files : list string) (indent : string) (root_path : fsnode)
         (st : state),
    FileTreeMakerV5.format_image_sequences files indent root_path st
    = condenser_v5 files indent root_path st
    /\ CreateFileTree.format_image_sequences files indent st
       = condenser_v1 files indent st
    /\ (forall k, In k (condensed_groups files)
                  <-> In k (keys files) /\ 2 <= List.length (members files k))
    /\ (forall f k, In f files -> key_of f = Some k ->
                    List.length (members files k) = 1 ->
                    In f (rendered files) /\ ~ In k (condensed_groups files))
    /\ (forall f k, In f files -> key_of f = Some k -> In k (keys files)).
Proof.
  intros files indent root_path st.
  split; [apply CondenserFacts.format_image_sequences_v5|].
  split; [apply CondenserFacts.format_image_sequences_v1|].
  assert (G : forall k, In k (condensed_groups files)
                  <-> In k (keys files) /\ 2 <= List.length (members files k)).
  { intro k. unfold condensed_groups. rewrite filter_In, Nat.leb_le. tauto. }
  split; [exact G|]. split.
  - intros f k I K L. split.
    + unfold rendered. apply SortFacts.In_sorted. apply in_or_app. right.
      apply in_flat_map. exists k. split.
      * unfold single_groups. apply filter_In. split.
        -- apply GroupFacts.In_keys. now exists f.
        -- now apply Nat.eqb_eq.
      * now apply GroupFacts.In_members.
    + rewrite G. lia.
  - intros f k I K. apply GroupFacts.In_keys. now exists f.
Qed.

(** ** C3 *)

(** C3, as stated, fails: in ["shot12345.exr"] five digits stand before the
    extension, yet the condenser takes the name for a member of a sequence
    (base ["shot1"], frame ["2345"]) and the first variant condenses it. *)
Lemma C3_counterexample :
  digit_run "shot12345.exr" = 5
  /\ is_member "shot12345.exr" = true
  /\ snd (CreateFileTree.collect ["shot12345.exr"]) = []
  /\ output_lines
       (final (CreateFileTree.format_image_sequences
                 ["shot12345.exr"] "" empty))
     = ["shot1[image sequence].exr"].
Proof. repeat split. Qed.

(** C3, amended: the condenser takes a file name for a member of a frame
    sequence if and only if it has the shape <base><4 digits>.<ext>, where
    <ext> is a non-empty run of word characters that ends the name (one
    final newline apart) and <base> is any text without a newline; the
    groups of the match are those of the shape.  So a member has at least
    four digits before the dot of the extension (the base may end in digits
    too), and, in both variants, the names the pattern does not match are
    the ones put on the non-sequence path. *)
Theorem C3_member_iff_frame_shape :
  forall filename : string,
    (forall base frame ext,
        Re.pattern_match filename = Some (base, frame, ext)
        <-> frame_shape filename base frame ext)
    /\ (is_member filename = true
        <-> exists base frame ext, frame_shape filename base frame ext)
    /\ (digit_run filename < 4 -> is_member filename = false)
    /\ (forall files,
           snd (CreateFileTree.collect files) = non_matching files
           /\ snd (FileTreeMakerV5.collect files) = non_matching files).
Proof.
  intro filename.
  assert (M : is_member filename = true
              <-> exists base frame ext, frame_shape filename base frame ext).
  { unfold is_member. split.
    - destruct (Re.pattern_match filename) as [[[b fr] e]|] eqn:P;
        [|discriminate].
      intros _. exists b, fr, e. now apply ReFacts.pattern_match_iff.
    - intros (b & fr & e & S). apply ReFacts.pattern_match_iff in S.
      now rewrite S. }
  split; [apply ReFacts.pattern_match_iff|]. split; [exact M|]. split.
  - intro D. destruct (is_member filename) eqn:E; [|reflexivity].
    destruct (proj1 M eq_refl) as (b & fr & e & S).
    apply DigitRunFacts.frame_shape_digit_run in S. lia.
  - intro files. split.
    + apply CondenserFacts.collect_v1.
    + apply CondenserFacts.collect_v5.
Qed.

(** ** C4 *)

(** C4: at every directory level the walk returns from, the lines appended
    are, in this order, one block per subdirectory (the line of the
    directory, then all the lines of its subtree), for the subdirectories
    in sorted order, and only then the lines of the files of the level;
    this holds of every listing, in whatever order [os.listdir] gave it.
    When an exception cuts the walk short, what was appended is still the
    lines of the loop over the subdirectories, followed by those of the
    files only if that loop came to its end.
    The subdirectories are the entries of the sorted listing that are not
    skipped and are directories. *)
Theorem C4_directories_before_files :
  forall (raw : list (string * fsnode)) (indent : string)
         (list_all_files : bool) (st : state),
    (forall st',
        CreateFileTree.list_directory_as_tree (Dir raw) indent
          list_all_files st = Returned st' ->
        output_lines st'
        = (output_lines st
           ++ flat_map
                (fun d =>
                   (indent ++ d ++ "/")%string
                   :: lines_of (CreateFileTree.descend (Dir raw) d
                                  (indent ++ "  ")%string list_all_files))
                (CreateFileTree.dirs_of (Dir raw))
           ++ lines_of (CreateFileTree.render_files (Dir raw) indent
                          list_all_files))%list)
    /\ (forall st',
           FileTreeMakerV5.list_directory_as_tree (Dir raw) indent
             list_all_files st = Returned st' ->
           output_lines st'
           = (output_lines st
              ++ flat_map
                   (fun d =>
                      (indent ++ d ++ "/")%string
                      :: lines_of (FileTreeMakerV5.descend (Dir raw) d
                                     (indent ++ "  ")%string list_all_files))
                   (FileTreeMakerV5.dirs_of (Dir raw))
              ++ lines_of (FileTreeMakerV5.render_files (Dir raw) indent
                             list_all_files))%list)
    /\ output_lines
         (final (CreateFileTree.list_directory_as_tree (Dir raw) indent
                   list_all_files st))
       = (output_lines st
          ++ lines_of (CreateFileTree.enter_dirs (Dir raw) indent
                         list_all_files)
          ++ (if returned (CreateFileTree.enter_dirs (Dir raw) indent
                             list_all_files empty)
              then lines_of (CreateFileTree.render_files (Dir raw) indent
                               list_all_files)
              else []))%list
    /\ output_lines
         (final (FileTreeMakerV5.list_directory_as_tree (Dir raw) indent
                   list_all_files st))
       = (output_lines st
          ++ lines_of (FileTreeMakerV5.enter_dirs (Dir raw) indent
                         list_all_files)
          ++ (if returned (FileTreeMakerV5.enter_dirs (Dir raw) indent
                             list_all_files empty)
              then lines_of (FileTreeMakerV5.render_files (Dir raw) indent
                               list_all_files)
              else []))%list
    /\ CreateFileTree.dirs_of (Dir raw)
       = filter (fun e => negb (CreateFileTree.skipped e)
                          && os_path_isdir (Dir raw) e)
                (sorted (map fst raw))
    /\ FileTreeMakerV5.dirs_of (Dir raw)
       = filter (fun e => negb (FileTreeMakerV5.skipped e)
                          && os_path_isdir (Dir raw) e)
                (sorted (map fst raw)).
Proof.
  intros raw indent list_all_files st.
  split; [|split; [|split; [|split; [|split]]]]; try intros st' H;
    try (unfold CreateFileTree.dirs_of, FileTreeMakerV5.dirs_of,
           Walker.dirs_of;
         now rewrite WalkerFacts.separate_eq).
  - apply (WalkerFacts.walk_dir_lines CreateFileTree.skipped
             (fun files indent _ =>
                CreateFileTree.list_all_files_func files indent)
             (fun files indent _ =>
                CreateFileTree.format_image_sequences files indent)).
    + intros files i _. apply VariantFacts.v1_list_all_writer.
    + intros files i _. apply VariantFacts.v1_condensed_writer.
    + exact H.
  - apply (WalkerFacts.walk_dir_lines FileTreeMakerV5.skipped
             FileTreeMakerV5.list_all_files_func
             FileTreeMakerV5.format_image_sequences).
    + apply VariantFacts.v5_list_all_writer.
    + apply VariantFacts.v5_condensed_writer.
    + exact H.
  - apply (WalkerFacts.walk_dir_outcome CreateFileTree.skipped
             (fun files indent _ =>
                CreateFileTree.list_all_files_func files indent)
             (fun files indent _ =>
                CreateFileTree.format_image_sequences files indent)).
    + intros files i _. apply VariantFacts.v1_list_all_writer.
    + intros files i _. apply VariantFacts.v1_condensed_writer.
  - apply (WalkerFacts.walk_dir_outcome FileTreeMakerV5.skipped
             FileTreeMakerV5.list_all_files_func
             FileTreeMakerV5.format_image_sequences).
    + apply VariantFacts.v5_list_all_writer.
    + apply VariantFacts.v5_condensed_writer.
Qed.

(** The directory of the specification: [X], [Y] and [f.txt], listed by
    [os.listdir] with the file first. *)
Lemma C4_directories_before_files_witness :
  output_lines
    (final (FileTreeMakerV5.list_directory_as_tree
              (Dir [("f.txt", File NotArchive);
                    ("Y", Dir [("b.txt", File NotArchive)]);
                    ("X", Dir [("a.txt", File NotArchive)])])
              "" true empty))
  = ["X/"; "  a.txt"; "Y/"; "  b.txt"; "f.txt"].
Proof.
  exact (proj1 (proj2 (C4_directories_before_files
                  [("f.txt", File NotArchive);
                   ("Y", Dir [("b.txt", File NotArchive)]);
                   ("X", Dir [("a.txt", File NotArchive)])]
                  "" true empty))
               (final (FileTreeMakerV5.list_directory_as_tree
                         (Dir [("f.txt", File NotArchive);
                               ("Y", Dir [("b.txt", File NotArchive)]);
                               ("X", Dir [("a.txt", File NotArchive)])])
                         "" true empty))
               eq_refl).
Defined.

(** ** C5 *)

(** C5, as stated, fails: the first variant lists an entry named
    ["file_list.pdf"] like any other file. *)
Lemma C5_counterexample :
  output_lines
    (final (CreateFileTree.list_directory_as_tree
              (Dir [("file_list.pdf", File NotArchive)]) "" false empty))
  = ["file_list.pdf"].
Proof. reflexivity. Qed.

(** C5, amended: at every level of the walk an entry whose name starts
    with ["."] ([".git"] and [".DS_Store"] among them) or is
    ["file_list.txt"] and, in the second variant only, ["file_list.pdf"],
    is left out of the traversal: it is in neither [dirs] nor [files], and
    the walk does on the tree what it does on the tree with every such
    entry removed, at all depths. *)
Theorem C5_skipped_entries_not_traversed :
  forall (root_path : fsnode) (indent : string) (list_all_files : bool)
         (st : state),
    CreateFileTree.list_directory_as_tree
      (prune CreateFileTree.skipped root_path) indent list_all_files st
    = CreateFileTree.list_directory_as_tree root_path indent list_all_files st
    /\ FileTreeMakerV5.list_directory_as_tree
         (prune FileTreeMakerV5.skipped root_path) indent list_all_files st
       = FileTreeMakerV5.list_directory_as_tree root_path indent
           list_all_files st
    /\ (forall entry,
           CreateFileTree.skipped entry = true
           <-> startswith entry "." = true \/ entry = "file_list.txt")
    /\ (forall entry,
           FileTreeMakerV5.skipped entry = true
           <-> startswith entry "." = true \/ entry = "file_list.txt"
               \/ entry = "file_list.pdf")
    /\ (forall entry,
           In entry (CreateFileTree.dirs_of root_path
                     ++ CreateFileTree.files_of root_path)%list ->
           CreateFileTree.skipped entry = false)
    /\ (forall entry,
           In entry (FileTreeMakerV5.dirs_of root_path
                     ++ FileTreeMakerV5.files_of root_path)%list ->
           FileTreeMakerV5.skipped entry = false).
Proof.
  intros root_path indent list_all_files st.
  split; [|split; [|split; [|split; [|split]]]].
  - apply WalkerFacts.walk_prune; reflexivity.
  - apply WalkerFacts.walk_prune.
    + apply VariantFacts.v5_list_all_local.
    + apply VariantFacts.v5_condensed_local.
  - intro entry. unfold CreateFileTree.skipped.
    rewrite !orb_true_iff, !String.eqb_eq. split.
    + intros [[H | ->] | H]; auto.
    + intros [H | H]; auto.
  - intro entry. unfold FileTreeMakerV5.skipped.
    rewrite !orb_true_iff, !String.eqb_eq. split.
    + intros [[[H | ->] | H] | H]; auto.
    + intros [H | [H | H]]; auto.
  - intros entry H. apply in_app_or in H as [H | H].
    + now apply WalkerFacts.dirs_not_skipped in H.
    + now apply WalkerFacts.files_not_skipped in H.
  - intros entry H. apply in_app_or in H as [H | H].
    + now apply WalkerFacts.dirs_not_skipped in H.
    + now apply WalkerFacts.files_not_skipped in H.
Qed.

(** ** C6 *)

(** C6: the indentation pass (the same in both variants) turns every line
    that begins with two spaces into the line without them, [line[2:]],
    and leaves every other line as it is; the file written is these lines
    joined.  Run a second time, on the file it wrote, the pass leaves
    every line with fewer than two leading spaces exactly as it is. *)
Theorem C6_indentation_pass :
  forall content : string,
    FileTreeMakerV5.adjust_indentation_in_file content
    = CreateFileTree.adjust_indentation_in_file content
    /\ CreateFileTree.adjust_indentation_in_file content
       = writelines (CreateFileTree.adjusted_lines (readlines content))
    /\ Forall2
         (fun line adjusted =>
            (startswith line "  " = true -> line = "  " ++ adjusted)
            /\ (startswith line "  " = false -> adjusted = line))
         (readlines content)
         (CreateFileTree.adjusted_lines (readlines content))
    /\ (let once := CreateFileTree.adjust_indentation_in_file content in
        forall (i : nat) (line : string),
          nth_error (readlines once) i = Some line ->
          leading_spaces line < 2 ->
          nth_error (CreateFileTree.adjusted_lines (readlines once)) i
          = Some line).
Proof.
  intro content. split; [reflexivity|]. split; [reflexivity|]. split.
  - induction (readlines content) as [|line lines IH]; simpl; constructor;
      [|exact IH].
    destruct (startswith line "  ") eqn:E; split; try discriminate; auto.
    intros _. apply IndentFacts.startswith_two_spaces in E as [rest ->].
    now rewrite IndentFacts.slice_two_spaces.
  - intros once i line H L. unfold CreateFileTree.adjusted_lines.
    rewrite nth_error_map, H. simpl.
    now rewrite (IndentFacts.few_spaces_not_indented _ L).
Qed.
(** ** C7 *)

(** C7, as stated, fails: the handler of [list_file_or_zip] is
    [except zipfile.BadZipFile], and the constructor answers some
    contents that are no valid archive with another exception.  On a
    central directory with an entry flagged as UTF-8 whose name is no
    UTF-8 it raises [UnicodeDecodeError]: no line is appended for
    ["broken.zip"], the exception leaves [list_file_or_zip],
    [list_all_files_func] and the walk, and the file after it is never
    listed. *)
Lemma C7_counterexample :
  endswith "broken.zip" ".zip" = true
  /\ FileTreeMakerV5.list_file_or_zip "broken.zip" "  "
       (Dir [("broken.zip", File Undecodable); ("z.txt", File NotArchive)])
       empty
     = Raised UnicodeDecodeError empty
  /\ FileTreeMakerV5.list_all_files_func ["broken.zip"; "z.txt"] "  "
       (Dir [("broken.zip", File Undecodable); ("z.txt", File NotArchive)])
       empty
     = Raised UnicodeDecodeError empty
  /\ FileTreeMakerV5.list_directory_as_tree
       (Dir [("broken.zip", File Undecodable); ("z.txt", File NotArchive)])
       "  " true empty
     = Raised UnicodeDecodeError empty.
Proof. repeat split. Qed.

(** C7, amended: in the second variant, for a file whose name ends with
    [".zip"],
    - when the constructor raises [BadZipFile] (the content is no zip
      file, or its central directory is truncated or has a bad magic
      number), [list_file_or_zip] returns having appended exactly one
      line, [indent ++ filename ++ " [Corrupted ZIP]"], and in
      [list_all_files_func] the files that follow are rendered as usual;
    - when the constructor raises any other exception, [list_file_or_zip]
      appends nothing and the exception escapes: so for an entry name
      that is no UTF-8 ([UnicodeDecodeError]) and for an entry of an
      unsupported version ([NotImplementedError]);
    - when the constructor opens the file, damaged or not, the file is
      listed as an archive: the header line, then one line for each entry,
      and no corrupted marker. *)
Theorem C7_bad_zip_file_line :
  forall (filename indent : string) (root_path : fsnode) (st : state),
    endswith filename ".zip" = true ->
    (child root_path filename = Some (File NotArchive) ->
     zipfile_open root_path filename = inr BadZipFile)
    /\ (zipfile_open root_path filename = inr BadZipFile ->
        FileTreeMakerV5.list_file_or_zip filename indent root_path st
        = Returned (emit_all [indent ++ filename ++ " [Corrupted ZIP]"] st)
        /\ forall before after : list string,
            FileTreeMakerV5.list_all_files_func
              (before ++ filename :: after) indent root_path st
            = (FileTreeMakerV5.list_all_files_func before indent root_path ;;
               emit (indent ++ filename ++ " [Corrupted ZIP]") ;;
               FileTreeMakerV5.list_all_files_func after indent root_path)
                st)
    /\ (forall e : exn,
           zipfile_open root_path filename = inr e ->
           e <> BadZipFile ->
           FileTreeMakerV5.list_file_or_zip filename indent root_path st
           = Raised e st)
    /\ (child root_path filename = Some (File Undecodable) ->
        FileTreeMakerV5.list_file_or_zip filename indent root_path st
        = Raised UnicodeDecodeError st)
    /\ (child root_path filename = Some (File Unsupported) ->
        FileTreeMakerV5.list_file_or_zip filename indent root_path st
        = Raised NotImplementedError st)
    /\ (forall infolist : list string,
           child root_path filename = Some (File (Archive infolist)) ->
           FileTreeMakerV5.list_file_or_zip filename indent root_path st
           = Returned
               (emit_all
                  ((indent ++ filename ++ " [ZIP Contents]:")
                   :: map (fun name => indent ++ "  " ++ name) infolist)
                  st)).
Proof.
  intros filename indent root_path st Z.
  assert (O : forall c, child root_path filename = Some (File c) ->
                        zipfile_open root_path filename
                        = match c with
                          | Archive infolist => inl infolist
                          | NotArchive => inr BadZipFile
                          | Unreadable => inr PermissionError
                          | Undecodable => inr UnicodeDecodeError
                          | Unsupported => inr NotImplementedError
                          end).
  { intros c C. destruct root_path as [c'|raw| |]; try discriminate C.
    simpl in C. unfold zipfile_open. rewrite C. now destruct c. }
  split; [|split; [|split; [|split; [|split]]]].
  - intro C. exact (O _ C).
  - intro B.
    assert (L : forall st',
               FileTreeMakerV5.list_file_or_zip filename indent root_path st'
               = emit (indent ++ filename ++ " [Corrupted ZIP]") st').
    { intro st'. unfold FileTreeMakerV5.list_file_or_zip. now rewrite Z, B. }
    split; [now rewrite L|].
    intros before after. unfold FileTreeMakerV5.list_all_files_func.
    rewrite RunFacts.for_each_app. cbn [for_each]. unfold andthen.
    destruct (for_each before _ st) as [st'|e st']; [|reflexivity].
    now rewrite L.
  - intros e E N. unfold FileTreeMakerV5.list_file_or_zip. rewrite Z, E.
    destruct e; try reflexivity. now contradiction N.
  - intro C. unfold FileTreeMakerV5.list_file_or_zip.
    now rewrite Z, (O _ C).
  - intro C. unfold FileTreeMakerV5.list_file_or_zip.
    now rewrite Z, (O _ C).
  - intros infolist C. unfold FileTreeMakerV5.list_file_or_zip.
    rewrite Z, (O _ C). unfold andthen. rewrite RunFacts.emit_eq.
    rewrite (RunFacts.for_each_emit (fun name => indent ++ "  " ++ name)).
    now rewrite <- (RunFacts.emit_all_app [_] _ st).
Qed.

Lemma C7_bad_zip_file_line_witness :
  FileTreeMakerV5.list_file_or_zip "broken.zip" "  "
    (Dir [("a.txt", File NotArchive); ("broken.zip", File NotArchive)]) empty
  = Returned (emit_all ["  " ++ "broken.zip" ++ " [Corrupted ZIP]"] empty)
  /\ FileTreeMakerV5.list_file_or_zip "old.zip" "  "
       (Dir [("old.zip", File Unsupported)]) empty
     = Raised NotImplementedError empty.
Proof.
  split.
  - apply (C7_bad_zip_file_line "broken.zip" "  "
             (Dir [("a.txt", File NotArchive); ("broken.zip", File NotArchive)])
             empty); reflexivity.
  - apply (C7_bad_zip_file_line "old.zip" "  "
             (Dir [("old.zip", File Unsupported)]) empty); reflexivity.
Defined.

(** ** C8 *)



(** ** C9 *)

(** C9: in the first variant, whatever paths exist, the loop of
    [get_unique_output_file] ends and the path chosen does not exist: it
    is <root>/file_list.txt when that does not exist, and otherwise
    <root>/file_list-<n>.txt (n written with two digits at least) for the
    smallest n >= 2 whose path does not exist.  So a second scan, finding
    file_list.txt, never writes over it; it writes file_list-02.txt when
    that is free. *)
Theorem C9_unique_output_file :
  forall (existing : list string) (root_directory : string),
    let base := os_path_join root_directory "file_list.txt" in
    exists path,
      CreateFileTree.get_unique_output_file existing root_directory = Some path
      /\ CreateFileTree.os_path_exists existing path = false
      /\ (CreateFileTree.os_path_exists existing base = false -> path = base)
      /\ (CreateFileTree.os_path_exists existing base = true ->
          path <> base
          /\ exists n,
              2 <= n
              /\ path = os_path_join root_directory
                          ("file_list-" ++ format_02d n ++ ".txt")
              /\ forall m,
                  2 <= m < n ->
                  CreateFileTree.os_path_exists existing
                    (os_path_join root_directory
                       ("file_list-" ++ format_02d m ++ ".txt")) = true)
      /\ (CreateFileTree.os_path_exists existing base = true ->
          CreateFileTree.os_path_exists existing
            (os_path_join root_directory "file_list-02.txt") = false ->
          path = os_path_join root_directory "file_list-02.txt").
Proof.
  intros existing root_directory base.
  unfold CreateFileTree.get_unique_output_file. fold base.
  destruct (CreateFileTree.os_path_exists existing base) eqn:E; cbn [negb].
  - destruct (CreateFileTree.search (S (List.length existing)) existing
                root_directory 2) as [path|] eqn:Hs;
      [|now apply OutputFileFacts.search_total in Hs].
    exists path.
    destruct (OutputFileFacts.search_some _ _ _ _ _ Hs) as (n & L & P & F & B).
    split; [reflexivity|]. split; [exact F|]. split; [discriminate|]. split.
    + intros _. split; [congruence|]. exists n. repeat split; auto.
    + intros _ Free.
      destruct (Nat.eq_dec n 2) as [-> | N]; [exact P|].
      assert (T : CreateFileTree.os_path_exists existing
                    (CreateFileTree.numbered root_directory 2) = true)
        by (apply B; lia).
      change (CreateFileTree.numbered root_directory 2)
        with (os_path_join root_directory "file_list-02.txt") in T.
      congruence.
  - exists base. split; [reflexivity|]. split; [exact E|].
    split; [reflexivity|]. split; discriminate.
Qed.

(** ** C10 *)

(** C10: in the condensed mode of the second variant, a file that belongs
    to a group of two or more is not among the names handed to the
    per-file renderer, which alone inspects archives: the outcome of
    [format_image_sequences] is the condensed lines followed by the
    rendering of [rendered files], and it stays the same whatever
    [zipfile.ZipFile] would find in that file. *)
Theorem C10_condensed_member_not_inspected :
  forall (files : list string) (indent : string) (root_path : fsnode)
         (st : state) (f : string) (k : string * string),
    In f files ->
    key_of f = Some k ->
    2 <= List.length (members files k) ->
    ~ In f (rendered files)
    /\ FileTreeMakerV5.format_image_sequences files indent root_path st
       = for_each (rendered files)
           (fun filename =>
              FileTreeMakerV5.list_file_or_zip filename indent root_path)
           (emit_all (map (condensed_line indent) (condensed_groups files)) st)
    /\ forall root_path' : fsnode,
        (forall g, g <> f ->
                   zipfile_open root_path' g = zipfile_open root_path g) ->
        FileTreeMakerV5.format_image_sequences files indent root_path' st
        = FileTreeMakerV5.format_image_sequences files indent root_path st.
Proof.
  intros files indent root_path st f k I K L.
  assert (N : ~ In f (rendered files)).
  { unfold rendered. rewrite SortFacts.In_sorted. intro H.
    apply in_app_or in H as [H | H].
    - unfold non_matching in H. apply filter_In in H as [_ H].
      assert (M : is_member f = true)
        by (apply CondenserFacts.is_member_key_of; now exists k).
      now rewrite M in H.
    - apply in_flat_map in H as (k' & Hk' & Hf).
      apply GroupFacts.In_members in Hf as [_ Hf].
      assert (k' = k) by congruence. subst k'.
      unfold single_groups in Hk'. apply filter_In in Hk' as [_ Hk'].
      apply Nat.eqb_eq in Hk'. lia. }
  assert (E : forall r,
             FileTreeMakerV5.format_image_sequences files indent r st
             = for_each (rendered files)
                 (fun filename =>
                    FileTreeMakerV5.list_file_or_zip filename indent r)
                 (emit_all (map (condensed_line indent)
                                (condensed_groups files)) st)).
  { intro r. rewrite CondenserFacts.format_image_sequences_v5.
    unfold condenser_v5, andthen. now rewrite RunFacts.for_each_emit. }
  split; [exact N|]. split; [apply E|].
  intros root_path' A. rewrite !E. apply RunFacts.for_each_ext.
  intros x st' Hx. unfold FileTreeMakerV5.list_file_or_zip.
  rewrite A; [reflexivity|]. intros ->. contradiction.
Qed.

Lemma C10_condensed_member_not_inspected_witness :
  ~ In "c0001.zip" (rendered ["c0001.zip"; "c0002.zip"; "d.zip"])
  /\ FileTreeMakerV5.format_image_sequences
       ["c0001.zip"; "c0002.zip"; "d.zip"] ""
       (Dir [("c0001.zip", File NotArchive);
             ("c0002.zip", File (Archive ["x"]));
             ("d.zip", File NotArchive)])
       empty
     = Returned (emit_all ["c[image sequence].zip"; "d.zip [Corrupted ZIP]"]
                          empty).
Proof.
  destruct (C10_condensed_member_not_inspected
              ["c0001.zip"; "c0002.zip"; "d.zip"] ""
              (Dir [("c0001.zip", File NotArchive);
                    ("c0002.zip", File (Archive ["x"]));
                    ("d.zip", File NotArchive)])
              empty "c0001.zip" ("c", "zip")) as (N & E & _).
  - simpl. auto.
  - reflexivity.
  - simpl. lia.
  - split; [exact N|]. rewrite E. reflexivity.
Defined.

(** * Further properties of the two scripts *)

(** ** The indent only prefixes the lines *)

Module UniformFacts.

Import Py Run Fs Spec StringFacts RunFacts WriterFacts WalkerFacts.
Local Open Scope list_scope.

Lemma prefixed_ext (p : string) (a a' b b' : action) :
  (forall st, a st = a' st) -> (forall st, b st = b' st) ->
  prefixed p a' b' -> prefixed p a b.
Proof.
  intros A B [L E]. unfold prefixed, lines_of in *. now rewrite A, B.
Qed.

Lemma prefixed_emit (p i x : string) :
  prefixed p (emit ((p ++ i) ++ x)) (emit (i ++ x)).
Proof. split; [|reflexivity]. unfold lines_of. simpl. now rewrite append_assoc. Qed.

Lemma prefixed_silent (p : string) (a : action) :
  lines_of a = [] -> prefixed p a a.
Proof. intro L. split; [now rewrite L | reflexivity]. Qed.

Lemma prefixed_andthen (p : string) (a a' b b' : action) :
  writer a' -> writer b' ->
  prefixed p a b -> prefixed p a' b' -> prefixed p (a ;; a') (b ;; b').
Proof.
  intros A' B' [L1 E1] [L2 E2]. split.
  - rewrite (andthen_lines _ _ A'), (andthen_lines _ _ B'), L1, L2, map_app.
    f_equal.
    assert (R : returned (a empty) = returned (b empty)).
    { destruct (a empty), (b empty); simpl in *; congruence. }
    rewrite R. now destruct (returned (b empty)).
  - now rewrite (andthen_escaped _ _ A'), (andthen_escaped _ _ B'), E1, E2.
Qed.

Lemma prefixed_for_each {A : Type} (p : string) (xs : list A)
    (f g : A -> action) :
  (forall x, In x xs -> writer (f x)) ->
  (forall x, In x xs -> writer (g x)) ->
  (forall x, In x xs -> prefixed p (f x) (g x)) ->
  prefixed p (for_each xs f) (for_each xs g).
Proof.
  induction xs as [|x xs IH]; intros F G H.
  - now apply prefixed_silent.
  - cbn [for_each]. apply prefixed_andthen.
    + apply writer_for_each. intros y Hy. apply F. now right.
    + apply writer_for_each. intros y Hy. apply G. now right.
    + apply H. now left.
    + apply IH; intros y Hy; [apply F | apply G | apply H]; now right.
Qed.

Lemma prefixed_lines (p : string) (a b : action) (st : state) :
  writer a -> writer b -> prefixed p a b ->
  output_lines (final (a st))
  = output_lines st ++ map (append p) (lines_of b)
  /\ escaped (a st) = escaped (b st).
Proof.
  intros A B [L E].
  destruct (writer_lines a st A) as [-> ->].
  destruct (writer_lines b st B) as [_ ->].
  now rewrite L, E.
Qed.

Section Walk.

Variable skipped : string -> bool.
Variable list_all_files_func : list string -> string -> fsnode -> action.
Variable format_image_sequences : list string -> string -> fsnode -> action.

Abbreviation walk :=
  (Walker.list_directory_as_tree skipped list_all_files_func
     format_image_sequences).

Hypothesis list_all_writer :
  forall files indent root_path,
    writer (list_all_files_func files indent root_path).
Hypothesis condensed_writer :
  forall files indent root_path,
    writer (format_image_sequences files indent root_path).
Hypothesis list_all_prefixed :
  forall files p i root_path,
    prefixed p (list_all_files_func files (p ++ i) root_path)
               (list_all_files_func files i root_path).
Hypothesis condensed_prefixed :
  forall files p i root_path,
    prefixed p (format_image_sequences files (p ++ i) root_path)
               (format_image_sequences files i root_path).

Lemma walk_prefixed (root_path : fsnode) :
  forall p i list_all_files,
    prefixed p (walk root_path (p ++ i) list_all_files)
               (walk root_path i list_all_files).
Proof.
  induction root_path as [c|raw IH| |] using fsnode_tree_ind;
    intros p i list_all_files; try (now apply prefixed_silent).
  apply (prefixed_ext _ _ _ _ _
           (walk_dir skipped list_all_files_func format_image_sequences
              raw (p ++ i) list_all_files)
           (walk_dir skipped list_all_files_func format_image_sequences
              raw i list_all_files)).
  apply prefixed_andthen;
    try (apply writer_render_files; assumption).
  - apply prefixed_for_each.
    + intros d _. apply writer_andthen; [apply writer_emit|].
      now apply writer_descend.
    + intros d _. apply writer_andthen; [apply writer_emit|].
      now apply writer_descend.
    + intros d _. apply prefixed_andthen; try (now apply writer_descend).
      * apply prefixed_emit.
      * rewrite append_assoc. unfold Walker.descend, child.
        destruct (lookup d raw) as [node|] eqn:L;
          [|now apply prefixed_silent].
        apply lookup_In in L. rewrite Forall_forall in IH.
        apply (IH (d, node) L).
  - unfold Walker.render_files. destruct list_all_files; auto.
Qed.

End Walk.

Lemma v1_list_all_prefixed (files : list string) (p i : string) :
  prefixed p (CreateFileTree.list_all_files_func files (p ++ i))
             (CreateFileTree.list_all_files_func files i).
Proof.
  apply prefixed_for_each; intros x _; try apply writer_emit.
  apply prefixed_emit.
Qed.

Lemma v1_condensed_prefixed (files : list string) (p i : string) :
  prefixed p (CreateFileTree.format_image_sequences files (p ++ i))
             (CreateFileTree.format_image_sequences files i).
Proof.
  apply prefixed_andthen; try (apply writer_for_each; intros x _;
                               apply writer_emit).
  - apply prefixed_for_each.
    + intros [[base ext] v] _. apply writer_emit.
    + intros [[base ext] v] _. apply writer_emit.
    + intros [[base ext] v] _. apply prefixed_emit.
  - apply prefixed_for_each; intros x _; try apply writer_emit.
    apply prefixed_emit.
Qed.

Lemma list_file_or_zip_prefixed (filename p i : string) (root_path : fsnode) :
  prefixed p (FileTreeMakerV5.list_file_or_zip filename (p ++ i) root_path)
             (FileTreeMakerV5.list_file_or_zip filename i root_path).
Proof.
  unfold FileTreeMakerV5.list_file_or_zip.
  destruct (endswith filename ".zip"); [|apply prefixed_emit].
  destruct (zipfile_open root_path filename) as [infolist|[]];
    try (now apply prefixed_silent); try apply prefixed_emit.
  apply prefixed_andthen;
    try (apply writer_for_each; intros x _; apply writer_emit).
  - apply prefixed_emit.
  - apply prefixed_for_each; intros x _; try apply writer_emit.
    apply prefixed_emit.
Qed.

Lemma v5_list_all_prefixed (files : list string) (p i : string)
    (root_path : fsnode) :
  prefixed p (FileTreeMakerV5.list_all_files_func files (p ++ i) root_path)
             (FileTreeMakerV5.list_all_files_func files i root_path).
Proof.
  apply prefixed_for_each; intros x _;
    try apply VariantFacts.writer_list_file_or_zip.
  apply list_file_or_zip_prefixed.
Qed.

Lemma v5_condensed_prefixed (files : list string) (p i : string)
    (root_path : fsnode) :
  prefixed p (FileTreeMakerV5.format_image_sequences files (p ++ i) root_path)
             (FileTreeMakerV5.format_image_sequences files i root_path).
Proof.
  apply (prefixed_ext _ _ (condenser_v5 files (p ++ i) root_path)
                      _ (condenser_v5 files i root_path));
    try apply CondenserFacts.format_image_sequences_v5.
  apply prefixed_andthen;
    try (apply writer_for_each; intros x _;
         apply VariantFacts.writer_list_file_or_zip).
  - apply prefixed_for_each; intros x _; try apply writer_emit.
    unfold condensed_line. apply prefixed_emit.
  - apply prefixed_for_each; intros x _;
      try apply VariantFacts.writer_list_file_or_zip.
    apply list_file_or_zip_prefixed.
Qed.

Lemma v1_walk_prefixed (root_path : fsnode) (p i : string)
    (list_all_files : bool) :
  prefixed p
    (CreateFileTree.list_directory_as_tree root_path (p ++ i) list_all_files)
    (CreateFileTree.list_directory_as_tree root_path i list_all_files).
Proof.
  apply walk_prefixed.
  - intros files indent _. apply VariantFacts.v1_list_all_writer.
  - intros files indent _. apply VariantFacts.v1_condensed_writer.
  - intros files q j _. apply v1_list_all_prefixed.
  - intros files q j _. apply v1_condensed_prefixed.
Qed.

Lemma v5_walk_prefixed (root_path : fsnode) (p i : string)
    (list_all_files : bool) :
  prefixed p
    (FileTreeMakerV5.list_directory_as_tree root_path (p ++ i) list_all_files)
    (FileTreeMakerV5.list_directory_as_tree root_path i list_all_files).
Proof.
  apply walk_prefixed.
  - apply VariantFacts.v5_list_all_writer.
  - apply VariantFacts.v5_condensed_writer.
  - apply v5_list_all_prefixed.
  - apply v5_condensed_prefixed.
Qed.

Lemma startswith_append (p x : string) : startswith (p ++ x) p = true.
Proof.
  unfold startswith. induction p as [|c p IH]; simpl.
  - now destruct x.
  - destruct (ascii_dec c c) as [_|N]; [exact IH | now elim N].
Qed.

Lemma prefixed_startswith (p : string) (a b : action) :
  prefixed p a b -> Forall (fun l => startswith l p = true) (lines_of a).
Proof.
  intros [L _]. rewrite L. apply Forall_forall. intros l H.
  apply in_map_iff in H as (x & <- & _). apply startswith_append.
Qed.

End UniformFacts.

(** X1: the walk of either variant with the indent [p ++ indent] appends
    exactly the lines it appends with the indent [indent], each with [p]
    put before it, and ends the same way (returns, or lets the same
    exception escape); in particular every line it appends begins with the
    indent it was given. *)
Theorem X1_indent_only_prefixes :
  forall (root_path : fsnode) (p indent : string) (list_all_files : bool)
         (st : state),
    (output_lines
       (final (CreateFileTree.list_directory_as_tree root_path (p ++ indent)
                 list_all_files st))
     = (output_lines st
        ++ map (append p)
             (lines_of (CreateFileTree.list_directory_as_tree root_path
                          indent list_all_files)))%list
     /\ escaped (CreateFileTree.list_directory_as_tree root_path (p ++ indent)
                   list_all_files st)
        = escaped (CreateFileTree.list_directory_as_tree root_path indent
                     list_all_files st))
    /\ (output_lines
          (final (FileTreeMakerV5.list_directory_as_tree root_path
                    (p ++ indent) list_all_files st))
        = (output_lines st
           ++ map (append p)
                (lines_of (FileTreeMakerV5.list_directory_as_tree root_path
                             indent list_all_files)))%list
        /\ escaped (FileTreeMakerV5.list_directory_as_tree root_path
                      (p ++ indent) list_all_files st)
           = escaped (FileTreeMakerV5.list_directory_as_tree root_path indent
                        list_all_files st))
    /\ Forall (fun line => startswith line indent = true)
              (lines_of (CreateFileTree.list_directory_as_tree root_path
                           indent list_all_files))
    /\ Forall (fun line => startswith line indent = true)
              (lines_of (FileTreeMakerV5.list_directory_as_tree root_path
                           indent list_all_files)).
Proof.
  intros root_path p indent list_all_files st.
  split; [|split; [|split]].
  - apply UniformFacts.prefixed_lines; try apply VariantFacts.v1_writer_walk.
    apply UniformFacts.v1_walk_prefixed.
  - apply UniformFacts.prefixed_lines; try apply VariantFacts.v5_writer_walk.
    apply UniformFacts.v5_walk_prefixed.
  - assert (H := UniformFacts.v1_walk_prefixed root_path indent ""
                   list_all_files).
    rewrite StringFacts.append_nil_r in H.
    exact (UniformFacts.prefixed_startswith _ _ _ H).
  - assert (H := UniformFacts.v5_walk_prefixed root_path indent ""
                   list_all_files).
    rewrite StringFacts.append_nil_r in H.
    exact (UniformFacts.prefixed_startswith _ _ _ H).
Qed.

(** ** The file that is saved *)

Module SaveFacts.

Import Py StringFacts IndentFacts.
Local Open Scope list_scope.

Lemma one_line_cons (c : ascii) (s : string) :
  one_line (String c s) = true ->
  is_newline c = false /\ is_return c = false /\ one_line s = true.
Proof.
  cbn [one_line]. rewrite !andb_true_iff, !negb_true_iff. tauto.
Qed.

Lemma join_lines_cons (x y : string) (ys : list string) :
  join_lines (x :: y :: ys) = (x ++ newline ++ join_lines (y :: ys))%string.
Proof. reflexivity. Qed.

Lemma universal_newlines_line (x rest : string) :
  one_line x = true ->
  universal_newlines (x ++ newline ++ rest)%string
  = (x ++ newline ++ universal_newlines rest)%string.
Proof.
  induction x as [|c x IH]; intro O.
  - reflexivity.
  - apply one_line_cons in O as (_ & R & O).
    cbn [append universal_newlines]. rewrite R. now rewrite (IH O).
Qed.

Lemma universal_newlines_last (x : string) :
  one_line x = true -> universal_newlines x = x.
Proof.
  induction x as [|c x IH]; intro O; [reflexivity|].
  apply one_line_cons in O as (_ & R & O).
  cbn [universal_newlines]. rewrite R. now rewrite (IH O).
Qed.

Lemma universal_newlines_join (lines : list string) :
  Forall (fun l => one_line l = true) lines ->
  universal_newlines (join_lines lines) = join_lines lines.
Proof.
  induction lines as [|x [|y ys] IH]; intro F.
  - reflexivity.
  - inversion F; subst. now apply universal_newlines_last.
  - inversion F as [|? ? O F']; subst. rewrite join_lines_cons.
    rewrite (universal_newlines_line _ _ O). now rewrite (IH F').
Qed.

Lemma keepends_line (x rest : string) :
  one_line x = true ->
  keepends (x ++ newline ++ rest)%string
  = (x ++ newline)%string :: keepends rest.
Proof.
  induction x as [|c x IH]; intro O.
  - reflexivity.
  - apply one_line_cons in O as (N & _ & O).
    cbn [append keepends]. rewrite N, (IH O). reflexivity.
Qed.

Lemma keepends_last (x : string) :
  one_line x = true ->
  keepends x = match x with EmptyString => [] | _ => [x] end.
Proof.
  induction x as [|c x IH]; intro O; [reflexivity|].
  apply one_line_cons in O as (N & _ & O).
  cbn [keepends]. rewrite N, (IH O). now destruct x.
Qed.

(** The line without its first two spaces, if it has them. *)
Lemma adjust_with_newline (x : string) :
  (if startswith (x ++ newline) "  " then slice_from 2 (x ++ newline)
   else (x ++ newline)%string)
  = ((if startswith x "  " then slice_from 2 x else x) ++ newline)%string.
Proof.
  destruct (startswith x "  ") eqn:E.
  - apply startswith_two_spaces in E as [rest ->].
    assert (S : startswith (("  " ++ rest) ++ newline) "  " = true).
    { apply startswith_two_spaces. exists (rest ++ newline)%string.
      now rewrite append_assoc. }
    rewrite S, append_assoc, !slice_two_spaces. reflexivity.
  - assert (S : startswith (x ++ newline) "  " = false).
    { destruct (startswith (x ++ newline) "  ") eqn:S; [|reflexivity].
      apply startswith_two_spaces in S as [rest S].
      destruct x as [|a [|b x]].
      - discriminate S.
      - injection S as -> S. discriminate S.
      - injection S as -> -> S.
        assert (T : startswith ("  " ++ x) "  " = true)
          by (apply startswith_two_spaces; now exists x).
        cbn [append] in T. congruence. }
    now rewrite S.
Qed.

Lemma adjust_join (lines : list string) :
  Forall (fun l => one_line l = true) lines ->
  writelines (CreateFileTree.adjusted_lines (keepends (join_lines lines)))
  = join_lines (CreateFileTree.adjusted_lines lines).
Proof.
  unfold writelines.
  induction lines as [|x [|y ys] IH]; intro F.
  - reflexivity.
  - inversion F as [|? ? O _]; subst. cbn [join_lines String.concat].
    rewrite (keepends_last _ O). destruct x as [|c x]; [reflexivity|].
    cbn [CreateFileTree.adjusted_lines map String.concat]. reflexivity.
  - inversion F as [|? ? O F']; subst.
    rewrite join_lines_cons, (keepends_line _ _ O).
    cbn [CreateFileTree.adjusted_lines map].
    rewrite adjust_with_newline.
    change (map (fun line => if startswith line "  " then slice_from 2 line
                             else line)
                (keepends (join_lines (y :: ys))))
      with (CreateFileTree.adjusted_lines (keepends (join_lines (y :: ys)))).
    assert (C : forall a l, String.concat "" (a :: l)
                            = (a ++ String.concat "" l)%string).
    { intros a [|b l]; cbn [String.concat]; [now rewrite append_nil_r|].
      reflexivity. }
    rewrite C, (IH F'), append_assoc. reflexivity.
Qed.

Lemma saved_text_lines (lines : list string) :
  Forall (fun l => one_line l = true) lines ->
  CreateFileTree.saved_text lines
  = join_lines (CreateFileTree.adjusted_lines lines).
Proof.
  intro F. unfold CreateFileTree.saved_text,
             CreateFileTree.adjust_indentation_in_file, readlines.
  rewrite (universal_newlines_join _ F). now apply adjust_join.
Qed.

Lemma one_line_append (a b : string) :
  one_line (a ++ b) = one_line a && one_line b.
Proof.
  induction a as [|c a IH]; [reflexivity|].
  cbn [append one_line]. now rewrite IH, andb_assoc.
Qed.

Lemma adjusted_indented (lines : list string) :
  CreateFileTree.adjusted_lines (map (append "  ") lines) = lines.
Proof.
  unfold CreateFileTree.adjusted_lines. rewrite map_map.
  rewrite <- (map_id lines) at 2. apply map_ext. intro x.
  assert (S : startswith ("  " ++ x) "  " = true)
    by (apply startswith_two_spaces; now exists x).
  now rewrite S, slice_two_spaces.
Qed.

End SaveFacts.

(** X2: when no line of [output_lines] holds a line break, the file that
    [run_script] leaves (["\n".join(output_lines)] written, then
    [adjust_indentation_in_file]) is the lines joined by ["\n"] again, each
    one without its first two spaces if it began with two spaces and as it
    was otherwise; so the file has as many lines as [output_lines] and no
    newline is added at its end.  The two variants save the same text. *)
Theorem X2_saved_text_is_adjusted_lines :
  forall output_lines : list string,
    Forall (fun line => one_line line = true) output_lines ->
    CreateFileTree.saved_text output_lines
    = join_lines (CreateFileTree.adjusted_lines output_lines)
    /\ FileTreeMakerV5.saved_text output_lines
       = join_lines (CreateFileTree.adjusted_lines output_lines)
    /\ List.length (CreateFileTree.adjusted_lines output_lines)
       = List.length output_lines.
Proof.
  intros output_lines F. split; [|split].
  - now apply SaveFacts.saved_text_lines.
  - now apply SaveFacts.saved_text_lines.
  - apply length_map.
Qed.

Lemma X2_saved_text_is_adjusted_lines_witness :
  CreateFileTree.saved_text ["  X/"; "    a.txt"; "  f.txt"]
  = join_lines ["X/"; "  a.txt"; "f.txt"].
Proof.
  apply (X2_saved_text_is_adjusted_lines ["  X/"; "    a.txt"; "  f.txt"]).
  repeat constructor.
Defined.

(** X3: from the walk to the file.  [run_script] walks with the indent
    ["  "]; when no line the walk appended holds a line break, the file it
    leaves is, line for line, what the same walk appends with the empty
    indent: the two spaces put before every line for the walk are the two
    spaces the indentation pass takes away (both variants). *)
Theorem X3_saved_tree_has_no_root_indent :
  forall (root_path : fsnode) (list_all_files : bool),
    (Forall (fun line => one_line line = true)
            (lines_of (CreateFileTree.list_directory_as_tree root_path "  "
                         list_all_files)) ->
     CreateFileTree.saved_text
       (lines_of (CreateFileTree.list_directory_as_tree root_path "  "
                    list_all_files))
     = join_lines
         (lines_of (CreateFileTree.list_directory_as_tree root_path ""
                      list_all_files)))
    /\ (Forall (fun line => one_line line = true)
               (lines_of (FileTreeMakerV5.list_directory_as_tree root_path
                            "  " list_all_files)) ->
        FileTreeMakerV5.saved_text
          (lines_of (FileTreeMakerV5.list_directory_as_tree root_path "  "
                       list_all_files))
        = join_lines
            (lines_of (FileTreeMakerV5.list_directory_as_tree root_path ""
                         list_all_files))).
Proof.
  intros root_path list_all_files. split; intro F.
  - rewrite (SaveFacts.saved_text_lines _ F).
    destruct (UniformFacts.v1_walk_prefixed root_path "  " ""
                list_all_files) as [L _].
    change ("  " ++ "")%string with "  " in L.
    now rewrite L, SaveFacts.adjusted_indented.
  - change (FileTreeMakerV5.saved_text) with (CreateFileTree.saved_text).
    rewrite (SaveFacts.saved_text_lines _ F).
    destruct (UniformFacts.v5_walk_prefixed root_path "  " ""
                list_all_files) as [L _].
    change ("  " ++ "")%string with "  " in L.
    now rewrite L, SaveFacts.adjusted_indented.
Qed.

Lemma X3_saved_tree_has_no_root_indent_witness :
  CreateFileTree.saved_text
    (lines_of (CreateFileTree.list_directory_as_tree
                 (Dir [("X", Dir [("a", File NotArchive)]);
                       ("f.txt", File NotArchive)])
                 "  " true))
  = join_lines ["X/"; "  a"; "f.txt"].
Proof.
  apply (proj1 (X3_saved_tree_has_no_root_indent
                  (Dir [("X", Dir [("a", File NotArchive)]);
                        ("f.txt", File NotArchive)])
                  true)).
  repeat constructor.
Defined.

(** ** What a walk that returns has been through *)

Module ReachFacts.

Import Py Run Fs Spec RunFacts WalkerFacts.
Local Open Scope list_scope.

Lemma andthen_returned (a b : action) (st : state) :
  returned ((a ;; b) st) = true ->
  exists st', a st = Returned st' /\ returned (b st') = true.
Proof.
  unfold andthen. destruct (a st) as [st'|e st']; [eauto | discriminate].
Qed.

Lemma for_each_returned {A : Type} (xs : list A) (f : A -> action) (x : A) :
  In x xs ->
  forall st, returned (for_each xs f st) = true ->
             exists st', returned (f x st') = true.
Proof.
  induction xs as [|y xs IH]; intros H st R; [destruct H|].
  cbn [for_each] in R. apply andthen_returned in R as (st' & E & R').
  destruct H as [->|H].
  - exists st. now rewrite E.
  - exact (IH H st' R').
Qed.

Section Walk.

Variable skipped : string -> bool.
Variable list_all_files_func : list string -> string -> fsnode -> action.
Variable format_image_sequences : list string -> string -> fsnode -> action.

Abbreviation walk :=
  (Walker.list_directory_as_tree skipped list_all_files_func
     format_image_sequences).

Lemma entered (raw : list (string * fsnode)) (name : string)
    (node : fsnode) :
  lookup name raw = Some node ->
  skipped name = false ->
  is_file node = false ->
  In name (Walker.dirs_of skipped (Dir raw)).
Proof.
  intros L S F. unfold Walker.dirs_of. rewrite separate_eq. cbn [snd].
  apply filter_In. split.
  - apply SortFacts.In_sorted. cbn [Walker.names].
    apply lookup_In in L. now apply (in_map fst) in L.
  - rewrite S. unfold os_path_isdir, child. rewrite L.
    now destruct node.
Qed.

(** The walk of a tree that returns has walked, and returned from, every
    directory a path of names it does not skip leads to. *)
Lemma walk_reaches (path : list string) :
  Forall (fun name => skipped name = false) path ->
  forall (t node : fsnode) (indent : string) (list_all_files : bool)
         (st : state),
    resolve t path = Some node ->
    is_file node = false ->
    returned (walk t indent list_all_files st) = true ->
    exists indent' st',
      returned (walk node indent' list_all_files st') = true.
Proof.
  induction 1 as [|name rest S _ IH];
    intros t node indent list_all_files st R F W.
  - injection R as <-. eauto.
  - cbn [resolve] in R.
    destruct (child t name) as [next|] eqn:C; [|discriminate R].
    destruct t as [c|raw| |]; try discriminate C. cbn [child] in C.
    assert (NF : is_file next = false).
    { destruct next as [c| | |]; try reflexivity.
      destruct rest as [|x rest]; [|discriminate R].
      injection R as <-. discriminate F. }
    rewrite walk_dir in W. apply andthen_returned in W as (st1 & E & _).
    assert (G : returned
                  (for_each (Walker.dirs_of skipped (Dir raw))
                     (fun directory =>
                        emit (indent ++ directory ++ "/") ;;
                        Walker.descend skipped list_all_files_func
                          format_image_sequences (Dir raw) directory
                          (indent ++ "  ") list_all_files) st) = true)
      by now rewrite E.
    apply (for_each_returned _ _ name (entered _ _ _ C S NF)) in G
      as (st2 & G).
    apply andthen_returned in G as (st3 & _ & G).
    unfold Walker.descend in G. cbn [child] in G. rewrite C in G.
    exact (IH next node _ list_all_files st3 R F G).
Qed.

(** ... and has rendered the files of each of them. *)
Lemma walk_renders (path : list string) (t : fsnode)
    (raw : list (string * fsnode)) (indent : string)
    (list_all_files : bool) (st : state) :
  Forall (fun name => skipped name = false) path ->
  resolve t path = Some (Dir raw) ->
  returned (walk t indent list_all_files st) = true ->
  exists indent' st',
    returned (Walker.render_files skipped list_all_files_func
                format_image_sequences (Dir raw) indent' list_all_files st')
    = true.
Proof.
  intros S R W.
  destruct (walk_reaches path S t (Dir raw) indent list_all_files st R
              eq_refl W) as (indent' & st' & W').
  rewrite walk_dir in W'. apply andthen_returned in W' as (st1 & _ & W').
  eauto.
Qed.

End Walk.

(** [list_file_or_zip] returns from a file named [*.zip] only when the
    constructor opened it or raised [BadZipFile]. *)
Lemma list_file_or_zip_returned (filename indent : string)
    (root_path : fsnode) (st : state) :
  endswith filename ".zip" = true ->
  returned (FileTreeMakerV5.list_file_or_zip filename indent root_path st)
  = true ->
  (exists infolist, zipfile_open root_path filename = inl infolist)
  \/ zipfile_open root_path filename = inr BadZipFile.
Proof.
  intros Z R. unfold FileTreeMakerV5.list_file_or_zip in R. rewrite Z in R.
  destruct (zipfile_open root_path filename) as [infolist|e]; [eauto|].
  right. destruct e; try discriminate R. reflexivity.
Qed.

Lemma render_files_returned (raw : list (string * fsnode))
    (indent filename : string) (list_all_files : bool) (st : state) :
  returned (FileTreeMakerV5.render_files (Dir raw) indent list_all_files st)
  = true ->
  In filename (if list_all_files
               then FileTreeMakerV5.files_of (Dir raw)
               else rendered (FileTreeMakerV5.files_of (Dir raw))) ->
  exists st',
    returned (FileTreeMakerV5.list_file_or_zip filename indent (Dir raw) st')
    = true.
Proof.
  unfold FileTreeMakerV5.render_files, Walker.render_files.
  destruct list_all_files; intros R H.
  - unfold FileTreeMakerV5.list_all_files_func in R.
    exact (for_each_returned _ _ filename H st R).
  - rewrite CondenserFacts.format_image_sequences_v5 in R.
    unfold condenser_v5 in R.
    apply andthen_returned in R as (st1 & _ & R).
    exact (for_each_returned _ _ filename H st1 R).
Qed.

End ReachFacts.



(** X5: what a walk of the second variant that returns has found in the
    archives.  In every directory a path of names that are not skipped
    leads to, every file named [*.zip] that the mode hands to
    [list_file_or_zip] (in the list-all mode every file of the directory,
    in the condensed mode the files left out of the condensed groups) is
    one the constructor opened, or one it answered with [BadZipFile]: any
    other failure to open an archive would have left the walk. *)
Theorem X5_returning_walk_opened_every_archive :
  forall (root_path : fsnode) (indent : string) (list_all_files : bool)
         (st : state) (path : list string) (raw : list (string * fsnode))
         (filename : string),
    returned (FileTreeMakerV5.list_directory_as_tree root_path indent
                list_all_files st) = true ->
    Forall (fun name => FileTreeMakerV5.skipped name = false) path ->
    resolve root_path path = Some (Dir raw) ->
    In filename (if list_all_files
                 then FileTreeMakerV5.files_of (Dir raw)
                 else rendered (FileTreeMakerV5.files_of (Dir raw))) ->
    endswith filename ".zip" = true ->
    (exists infolist, zipfile_open (Dir raw) filename = inl infolist)
    \/ zipfile_open (Dir raw) filename = inr BadZipFile.
Proof.
  intros root_path indent list_all_files st path raw filename W S R H Z.
  destruct (ReachFacts.walk_renders _ _ _ path root_path raw indent
              list_all_files st S R W) as (indent' & st1 & F).
  destruct (ReachFacts.render_files_returned raw indent' filename
              list_all_files st1 F H) as (st2 & L).
  exact (ReachFacts.list_file_or_zip_returned _ _ _ _ Z L).
Qed.

Lemma X5_returning_walk_opened_every_archive_witness :
  (exists infolist,
      zipfile_open
        (Dir [("x.zip", File (Archive ["e.txt"])); ("y", File NotArchive)])
        "x.zip" = inl infolist)
  \/ zipfile_open
       (Dir [("x.zip", File (Archive ["e.txt"])); ("y", File NotArchive)])
       "x.zip" = inr BadZipFile.
Proof.
  apply (X5_returning_walk_opened_every_archive
           (Dir [("d", Dir [("x.zip", File (Archive ["e.txt"]));
                            ("y", File NotArchive)])])
           "  " true empty ["d"]
           [("x.zip", File (Archive ["e.txt"])); ("y", File NotArchive)]
           "x.zip").
  - reflexivity.
  - repeat constructor.
  - reflexivity.
  - vm_compute. now left.
  - reflexivity.
Defined.

(** ** How many lines the condensed mode appends *)

Module CountFacts.

Import Py Run Fs Shape Spec GroupFacts RunFacts.
Local Open Scope list_scope.

Lemma length_insert (x : string) (l : list string) :
  List.length (insert x l) = S (List.length l).
Proof.
  induction l as [|a l IH]; simpl; [reflexivity|].
  destruct (x <=? a)%string; simpl; [reflexivity | now rewrite IH].
Qed.

Lemma length_sorted (l : list string) :
  List.length (sorted l) = List.length l.
Proof.
  induction l as [|a l IH]; simpl; [reflexivity|].
  now rewrite length_insert, IH.
Qed.

Lemma length_filter_le {A : Type} (p : A -> bool) (l : list A) :
  List.length (filter p l) <= List.length l.
Proof.
  induction l as [|a l IH]; simpl; [lia|]. destruct (p a); simpl; lia.
Qed.

Lemma length_dedup (l : list (string * string)) :
  List.length (dedup l) <= List.length l.
Proof.
  induction l as [|a l IH]; simpl; [lia|].
  pose proof (length_filter_le (fun k' => negb (key_eqb k' a)) (dedup l)).
  lia.
Qed.

Lemma length_split {A : Type} (p : A -> bool) (l : list A) :
  List.length (filter p l) + List.length (filter (fun x => negb (p x)) l)
  = List.length l.
Proof.
  induction l as [|a l IH]; simpl; [reflexivity|].
  destruct (p a); simpl; lia.
Qed.

Lemma length_key_lists (files : list string) :
  List.length (flat_map key_list files)
  = List.length (filter is_member files).
Proof.
  induction files as [|f files IH]; simpl; [reflexivity|].
  unfold key_list at 1, key_of, is_member.
  destruct (Re.pattern_match f) as [[[b fr] e]|]; simpl; now rewrite IH.
Qed.

(** The groups and the unmatched files are no more than the files. *)
Lemma groups_and_others (files : list string) :
  List.length (keys files) + List.length (non_matching files)
  <= List.length files.
Proof.
  unfold keys, non_matching.
  pose proof (length_dedup (flat_map key_list files)) as D.
  rewrite length_key_lists in D.
  pose proof (length_split is_member files). lia.
Qed.

Lemma length_singles (files : list string) (ks : list (string * string)) :
  (forall k, In k ks -> List.length (members files k) = 1) ->
  List.length (flat_map (members files) ks) = List.length ks.
Proof.
  induction ks as [|k ks IH]; intro H; simpl; [reflexivity|].
  rewrite length_app, (H k (or_introl eq_refl)), IH; [reflexivity|].
  intros k' Hk'. apply H. now right.
Qed.

Lemma groups_split (files : list string) :
  List.length (condensed_groups files) + List.length (single_groups files)
  = List.length (keys files).
Proof.
  unfold condensed_groups, single_groups.
  rewrite <- (length_split
                (fun k => (2 <=? List.length (members files k))%nat)
                (keys files)).
  f_equal. f_equal. apply filter_ext_in. intros k I.
  apply members_not_nil in I.
  destruct (members files k) as [|a [|b l]]; [congruence | reflexivity..].
Qed.

Lemma length_rendered (files : list string) :
  List.length (rendered files)
  = List.length (non_matching files) + List.length (single_groups files).
Proof.
  unfold rendered. rewrite length_sorted, length_app. f_equal.
  apply length_singles. intros k I. unfold single_groups in I.
  apply filter_In in I as [_ I]. now apply Nat.eqb_eq.
Qed.

Lemma lines_of_emits {A : Type} (h : A -> string) (xs : list A) :
  lines_of (for_each xs (fun x => emit (h x))) = map h xs.
Proof. unfold lines_of. now rewrite for_each_emit. Qed.

Lemma v1_condensed_lines (files : list string) (indent : string) :
  lines_of (CreateFileTree.format_image_sequences files indent)
  = map (condensed_line indent) (keys files)
    ++ map (append indent) (non_matching files).
Proof.
  unfold lines_of. rewrite CondenserFacts.format_image_sequences_v1.
  unfold condenser_v1, andthen. rewrite !for_each_emit. reflexivity.
Qed.

Lemma v5_condensed_lines_plain (files : list string) (indent : string)
    (root_path : fsnode) :
  (forall f, In f files -> endswith f ".zip" = false) ->
  lines_of (FileTreeMakerV5.format_image_sequences files indent root_path)
  = map (condensed_line indent) (condensed_groups files)
    ++ map (append indent) (rendered files).
Proof.
  intro Z. unfold lines_of.
  rewrite CondenserFacts.format_image_sequences_v5.
  unfold condenser_v5, andthen. rewrite for_each_emit.
  rewrite (for_each_ext _ _ (fun f => emit (indent ++ f))).
  - rewrite for_each_emit. reflexivity.
  - intros x st Hx. unfold FileTreeMakerV5.list_file_or_zip.
    now rewrite (Z x (VariantFacts.rendered_incl _ _ Hx)).
Qed.

End CountFacts.

(** X6: the condensed mode never appends more lines than there are files.
    In the first variant [format_image_sequences] appends one line per
    group and one per file the pattern does not match; in the second
    variant, when no file name ends with [".zip"], it appends as many
    lines as the first does (a group of one shows as a plain line instead
    of a condensed one); the list-all mode of the first variant appends
    one line per file. *)
Theorem X6_condensed_line_count :
  forall (files : list string) (indent : string) (root_path : fsnode),
    List.length (lines_of (CreateFileTree.format_image_sequences files indent))
    = List.length (keys files) + List.length (non_matching files)
    /\ List.length (keys files) + List.length (non_matching files)
       <= List.length files
    /\ List.length (lines_of (CreateFileTree.list_all_files_func files indent))
       = List.length files
    /\ ((forall f, In f files -> endswith f ".zip" = false) ->
        List.length
          (lines_of (FileTreeMakerV5.format_image_sequences files indent
                       root_path))
        = List.length (keys files) + List.length (non_matching files)).
Proof.
  intros files indent root_path. split; [|split; [|split]].
  - rewrite CountFacts.v1_condensed_lines, length_app, !length_map.
    reflexivity.
  - apply CountFacts.groups_and_others.
  - unfold CreateFileTree.list_all_files_func.
    now rewrite CountFacts.lines_of_emits, length_map.
  - intro Z. rewrite (CountFacts.v5_condensed_lines_plain _ _ _ Z).
    rewrite length_app, !length_map, CountFacts.length_rendered.
    pose proof (CountFacts.groups_split files). lia.
Qed.

Lemma X6_condensed_line_count_witness :
  List.length
    (lines_of (FileTreeMakerV5.format_image_sequences
                 ["a.0001.exr"; "a.0002.exr"; "b.0001.exr"; "notes.txt"]
                 "" (Dir [])))
  = List.length (keys ["a.0001.exr"; "a.0002.exr"; "b.0001.exr"; "notes.txt"])
    + List.length
        (non_matching ["a.0001.exr"; "a.0002.exr"; "b.0001.exr"; "notes.txt"]).
Proof.
  apply (X6_condensed_line_count
           ["a.0001.exr"; "a.0002.exr"; "b.0001.exr"; "notes.txt"]
           "" (Dir [])).
  intros f [<- | [<- | [<- | [<- | []]]]]; reflexivity.
Defined.

(** ** One more frame of a sequence *)

Module AbsorbFacts.

Import Py Run Fs Shape Spec GroupFacts RunFacts.
Local Open Scope list_scope.

Lemma filter_twice {A : Type} (p : A -> bool) (l : list A) :
  filter p (filter p l) = filter p l.
Proof.
  induction l as [|a l IH]; simpl; [reflexivity|].
  destruct (p a) eqn:P; simpl; rewrite ?P, IH; reflexivity.
Qed.

Lemma filter_swap {A : Type} (p q : A -> bool) (l : list A) :
  filter p (filter q l) = filter q (filter p l).
Proof.
  induction l as [|a l IH]; simpl; [reflexivity|].
  destruct (p a) eqn:P, (q a) eqn:Q; simpl; rewrite ?P, ?Q, IH; reflexivity.
Qed.

Lemma filter_dedup (y : string * string) (l : list (string * string)) :
  filter (fun x => negb (key_eqb x y)) (dedup l)
  = dedup (filter (fun x => negb (key_eqb x y)) l).
Proof.
  induction l as [|x l IH]; simpl; [reflexivity|].
  destruct (key_eqb x y) eqn:E; simpl.
  - apply key_eqb_eq in E. subst x. now rewrite filter_twice.
  - now rewrite filter_swap, IH.
Qed.

Lemma dedup_absorb (a b : list (string * string)) (k : string * string) :
  In k a -> dedup (a ++ k :: b) = dedup (a ++ b).
Proof.
  induction a as [|y a IH]; intro I; [now elim I|].
  simpl. f_equal.
  destruct (key_eqb k y) eqn:E.
  - apply key_eqb_eq in E. subst y. rewrite !filter_dedup. f_equal.
    rewrite !filter_app. simpl. now rewrite key_eqb_refl.
  - destruct I as [-> | I]; [now rewrite key_eqb_refl in E|].
    now rewrite (IH I).
Qed.

Lemma In_keys_list (k : string * string) (files : list string) :
  In k (keys files) <-> In k (flat_map key_list files).
Proof. unfold keys. apply In_dedup. Qed.

Lemma keys_absorb (pre post : list string) (f : string) (k : string * string) :
  key_of f = Some k -> In k (keys pre) ->
  keys (pre ++ f :: post) = keys (pre ++ post).
Proof.
  intros K I. unfold keys. rewrite !flat_map_app. simpl.
  unfold key_list at 2. rewrite K. simpl.
  apply dedup_absorb. now apply In_keys_list.
Qed.

Lemma non_matching_absorb (pre post : list string) (f : string)
    (k : string * string) :
  key_of f = Some k ->
  non_matching (pre ++ f :: post) = non_matching (pre ++ post).
Proof.
  intro K. unfold non_matching. rewrite !filter_app. simpl.
  assert (M : is_member f = true)
    by (apply CondenserFacts.is_member_key_of; now exists k).
  now rewrite M.
Qed.

Lemma members_other (pre post : list string) (f : string)
    (k k' : string * string) :
  key_of f = Some k -> k' <> k ->
  members (pre ++ f :: post) k' = members (pre ++ post) k'.
Proof.
  intros K N. unfold members. rewrite !filter_app. simpl.
  unfold in_group at 2. rewrite K.
  destruct (key_eqb k k') eqn:E; [|reflexivity].
  apply key_eqb_eq in E. congruence.
Qed.

Lemma members_same (pre post : list string) (f : string)
    (k : string * string) :
  key_of f = Some k ->
  List.length (members (pre ++ f :: post) k)
  = S (List.length (members (pre ++ post) k)).
Proof.
  intro K. unfold members. rewrite !filter_app. simpl.
  unfold in_group at 2. rewrite K, key_eqb_refl.
  rewrite !length_app. simpl. lia.
Qed.

Lemma eq_key_dec (a b : string * string) : a = b \/ a <> b.
Proof.
  destruct (key_eqb a b) eqn:E.
  - left. now apply key_eqb_eq.
  - right. now apply key_eqb_neq.
Qed.

Lemma condensed_groups_absorb (pre post : list string) (f : string)
    (k : string * string) :
  key_of f = Some k -> In k (keys pre) ->
  2 <= List.length (members (pre ++ post) k) ->
  condensed_groups (pre ++ f :: post) = condensed_groups (pre ++ post).
Proof.
  intros K I L. unfold condensed_groups.
  rewrite (keys_absorb _ _ _ _ K I). apply filter_ext. intro k'.
  destruct (eq_key_dec k' k) as [-> | N].
  - rewrite (members_same _ _ _ _ K).
    destruct (Nat.leb_spec 2 (List.length (members (pre ++ post) k)));
      destruct (Nat.leb_spec 2 (S (List.length (members (pre ++ post) k))));
      try reflexivity; lia.
  - now rewrite (members_other _ _ _ _ _ K N).
Qed.

Lemma single_groups_absorb (pre post : list string) (f : string)
    (k : string * string) :
  key_of f = Some k -> In k (keys pre) ->
  2 <= List.length (members (pre ++ post) k) ->
  single_groups (pre ++ f :: post) = single_groups (pre ++ post)
  /\ ~ In k (single_groups (pre ++ post)).
Proof.
  intros K I L. unfold single_groups.
  rewrite (keys_absorb _ _ _ _ K I). split.
  - apply filter_ext. intro k'.
    destruct (eq_key_dec k' k) as [-> | N].
    + rewrite (members_same _ _ _ _ K).
      destruct (Nat.eqb_spec (S (List.length (members (pre ++ post) k))) 1);
        destruct (Nat.eqb_spec (List.length (members (pre ++ post) k)) 1);
        try reflexivity; lia.
    + now rewrite (members_other _ _ _ _ _ K N).
  - rewrite filter_In, Nat.eqb_eq. lia.
Qed.

Lemma flat_map_same {A B : Type} (g h : A -> list B) (l : list A) :
  (forall x, In x l -> g x = h x) -> flat_map g l = flat_map h l.
Proof.
  induction l as [|a l IH]; intro H; simpl; [reflexivity|].
  rewrite (H a (or_introl eq_refl)), IH; [reflexivity|].
  intros x Hx. apply H. now right.
Qed.

Lemma rendered_absorb (pre post : list string) (f : string)
    (k : string * string) :
  key_of f = Some k -> In k (keys pre) ->
  2 <= List.length (members (pre ++ post) k) ->
  rendered (pre ++ f :: post) = rendered (pre ++ post).
Proof.
  intros K I L. unfold rendered.
  destruct (single_groups_absorb _ _ _ _ K I L) as [-> N].
  rewrite (non_matching_absorb _ _ _ _ K). f_equal. f_equal.
  apply flat_map_same. intros k' Hk'.
  apply (members_other _ _ _ _ _ K). intros ->. contradiction.
Qed.

End AbsorbFacts.

(** X7: the condensed line of a sequence does not tell how many frames
    there are.  Putting one more file of a group into the list, anywhere
    after a file of that group, changes nothing of what the first
    variant's [format_image_sequences] does; nor of what the second
    variant's does, once the group has two members. *)
Theorem X7_further_frame_changes_nothing :
  forall (pre post : list string) (f : string) (k : string * string)
         (indent : string) (root_path : fsnode) (st : state),
    key_of f = Some k ->
    In k (keys pre) ->
    CreateFileTree.format_image_sequences (pre ++ f :: post) indent st
    = CreateFileTree.format_image_sequences (pre ++ post) indent st
    /\ (2 <= List.length (members (pre ++ post) k) ->
        FileTreeMakerV5.format_image_sequences (pre ++ f :: post) indent
          root_path st
        = FileTreeMakerV5.format_image_sequences (pre ++ post) indent
            root_path st).
Proof.
  intros pre post f k indent root_path st K I. split.
  - rewrite !CondenserFacts.format_image_sequences_v1. unfold condenser_v1.
    now rewrite (AbsorbFacts.keys_absorb _ _ _ _ K I),
                (AbsorbFacts.non_matching_absorb _ _ _ _ K).
  - intro L. rewrite !CondenserFacts.format_image_sequences_v5.
    unfold condenser_v5.
    now rewrite (AbsorbFacts.condensed_groups_absorb _ _ _ _ K I L),
                (AbsorbFacts.rendered_absorb _ _ _ _ K I L).
Qed.

Lemma X7_further_frame_changes_nothing_witness :
  CreateFileTree.format_image_sequences
    (["a.0001.exr"; "a.0002.exr"] ++ "a.0003.exr" :: ["b.txt"]) "" empty
  = CreateFileTree.format_image_sequences
      (["a.0001.exr"; "a.0002.exr"] ++ ["b.txt"]) "" empty
  /\ FileTreeMakerV5.format_image_sequences
       (["a.0001.exr"; "a.0002.exr"] ++ "a.0003.exr" :: ["b.txt"]) ""
       (Dir []) empty
     = FileTreeMakerV5.format_image_sequences
         (["a.0001.exr"; "a.0002.exr"] ++ ["b.txt"]) "" (Dir []) empty.
Proof.
  destruct (X7_further_frame_changes_nothing
              ["a.0001.exr"; "a.0002.exr"] ["b.txt"] "a.0003.exr"
              ("a.", "exr") "" (Dir []) empty) as [H1 H2].
  - reflexivity.
  - simpl. auto.
  - split; [exact H1|]. apply H2. simpl. lia.
Defined.

(** ** The output file from one run to the next *)

Module NextRunFacts.

Import Py StringFacts OutputFileFacts.
Local Open Scope list_scope.

(** The joined path of a name that begins with ["f"]. *)
Lemma join_shape (root_directory : string) :
  exists prefix,
    forall rest,
      os_path_join root_directory (String "f" rest)
      = (prefix ++ String "f" rest)%string.
Proof.
  unfold os_path_join, startswith. cbn [String.prefix].
  destruct (ascii_dec "/" "f") as [E|_]; [discriminate E|].
  destruct ((root_directory =? "")%string || endswith root_directory "/").
  - now exists root_directory.
  - exists (root_directory ++ "/")%string. intro rest.
    now rewrite append_assoc.
Qed.

Lemma numbered_not_base (root_directory : string) (n : nat) :
  CreateFileTree.numbered root_directory n
  <> os_path_join root_directory "file_list.txt".
Proof.
  unfold CreateFileTree.numbered.
  destruct (join_shape root_directory) as [prefix P].
  change ("file_list-" ++ format_02d n ++ ".txt")%string
    with (String "f" ("ile_list-" ++ format_02d n ++ ".txt")).
  change "file_list.txt" with (String "f" "ile_list.txt").
  rewrite !P. intro H. apply append_inv_head in H. discriminate H.
Qed.

(** What [get_unique_output_file] chose. *)
Lemma chosen (existing : list string) (root_directory path : string) :
  CreateFileTree.get_unique_output_file existing root_directory = Some path ->
  CreateFileTree.os_path_exists existing path = false
  /\ ((path = os_path_join root_directory "file_list.txt"
       /\ CreateFileTree.os_path_exists existing path = false)
      \/ (CreateFileTree.os_path_exists existing
            (os_path_join root_directory "file_list.txt") = true
          /\ exists n,
              2 <= n
              /\ path = CreateFileTree.numbered root_directory n
              /\ forall m,
                  2 <= m < n ->
                  CreateFileTree.os_path_exists existing
                    (CreateFileTree.numbered root_directory m) = true)).
Proof.
  unfold CreateFileTree.get_unique_output_file.
  destruct (CreateFileTree.os_path_exists existing
              (os_path_join root_directory "file_list.txt")) eqn:E;
    cbn [negb].
  - intro H. apply search_some in H as (n & L & P & F & B).
    split; [exact F|]. right. split; [reflexivity|]. now exists n.
  - intro H. injection H as <-. split; [exact E|]. now left.
Qed.

Lemma exists_cons (p : string) (existing : list string) (q : string) :
  CreateFileTree.os_path_exists (p :: existing) q
  = ((q =? p)%string || CreateFileTree.os_path_exists existing q).
Proof. reflexivity. Qed.

End NextRunFacts.

(** X8: two runs of the first variant, one after the other.  When the
    file chosen by [get_unique_output_file] has been created, the next
    call chooses another path, which did not exist before either; after
    [file_list.txt] it is a numbered file, and after the file numbered
    [n1] it is a file with a greater number: the numbers grow with the
    runs. *)
Theorem X8_next_run_takes_next_number :
  forall (existing : list string) (root_directory first second : string),
    CreateFileTree.get_unique_output_file existing root_directory
    = Some first ->
    CreateFileTree.get_unique_output_file (first :: existing) root_directory
    = Some second ->
    second <> first
    /\ CreateFileTree.os_path_exists existing second = false
    /\ (exists n2, 2 <= n2
                   /\ second = CreateFileTree.numbered root_directory n2)
    /\ (forall n1 n2,
           first = CreateFileTree.numbered root_directory n1 ->
           second = CreateFileTree.numbered root_directory n2 ->
           n1 < n2).
Proof.
  intros existing root_directory first second H1 H2.
  apply NextRunFacts.chosen in H1 as (F1 & C1).
  apply NextRunFacts.chosen in H2 as (F2 & C2).
  rewrite NextRunFacts.exists_cons in F2.
  apply orb_false_iff in F2 as [N2 F2]. apply String.eqb_neq in N2.
  split; [exact N2|]. split; [exact F2|].
  assert (S2 : exists n2,
             2 <= n2
             /\ second = CreateFileTree.numbered root_directory n2
             /\ forall m,
                 2 <= m < n2 ->
                 CreateFileTree.os_path_exists (first :: existing)
                   (CreateFileTree.numbered root_directory m) = true).
  { destruct C2 as [[E2 X2] | [_ S]]; [|exact S].
    exfalso. rewrite NextRunFacts.exists_cons in X2.
    apply orb_false_iff in X2 as [_ X2].
    destruct C1 as [[E1 _] | [B1 _]]; congruence. }
  destruct S2 as (n2 & L2 & P2 & B2).
  split; [now exists n2|].
  intros n1 m2 E1 E2. subst second.
  apply OutputFileFacts.numbered_inj in E2. subst m2.
  destruct C1 as [[E _] | [_ (n & L & P & B)]].
  - exfalso. rewrite E1 in E. now apply NextRunFacts.numbered_not_base in E.
  - rewrite E1 in P. apply OutputFileFacts.numbered_inj in P. subst n.
    destruct (Nat.lt_ge_cases n1 n2) as [Lt | Ge]; [exact Lt|].
    exfalso. destruct (Nat.eq_dec n2 n1) as [-> | Ne]; [congruence|].
    assert (T : CreateFileTree.os_path_exists existing
                  (CreateFileTree.numbered root_directory n2) = true)
      by (apply B; lia).
    congruence.
Qed.

Lemma X8_next_run_takes_next_number_witness :
  "r/file_list-03.txt" <> "r/file_list-02.txt"
  /\ CreateFileTree.os_path_exists ["r/file_list.txt"] "r/file_list-03.txt"
     = false
  /\ 2 < 3.
Proof.
  destruct (X8_next_run_takes_next_number
              ["r/file_list.txt"] "r"
              "r/file_list-02.txt" "r/file_list-03.txt" eq_refl eq_refl)
    as (A & B & _ & G).
  split; [exact A|]. split; [exact B|]. exact (G 2 3 eq_refl eq_refl).
Defined.

(** X9: the candidate names never collide.  For every root directory the
    paths [file_list-<n:02d>.txt] of two different counters are different,
    none of them is the path of [file_list.txt], and the counter can be
    read back from the two-digit text: [int(f"{n:02d}") == n]. *)
Theorem X9_numbered_names_are_distinct :
  forall (root_directory : string) (n m : nat),
    (CreateFileTree.numbered root_directory n
     = CreateFileTree.numbered root_directory m -> n = m)
    /\ CreateFileTree.numbered root_directory n
       <> os_path_join root_directory "file_list.txt"
    /\ parse_int (format_02d n) = Some n
    /\ 2 <= String.length (format_02d n).
Proof.
  intros root_directory n m. split; [|split; [|split]].
  - apply OutputFileFacts.numbered_inj.
  - apply NextRunFacts.numbered_not_base.
  - apply OutputFileFacts.parse_format_02d.
  - unfold format_02d.
    destruct (String.length (NilEmpty.string_of_uint (Nat.to_uint n)) <? 2)%nat
      eqn:E.
    + assert (P := OutputFileFacts.parse_format_02d n).
      unfold format_02d in P. rewrite E in P.
      destruct (NilEmpty.string_of_uint (Nat.to_uint n)) as [|c s] eqn:S.
      * assert (U := NilEmpty.usu (Nat.to_uint n)). rewrite S in U.
        simpl in U. injection U as U.
        destruct n; simpl in U; [discriminate U|].
        exfalso. apply (f_equal Nat.of_uint) in U.
        rewrite DecimalNat.Unsigned.of_to in U. discriminate U.
      * simpl. lia.
    + apply Nat.ltb_ge in E. exact E.
Qed.

(** ** The question asked once *)

Module ChoiceFacts.

Import Py.

Lemma lower_char_is (c : ascii) (x : ascii) :
  (x = "y" \/ x = "n")%char ->
  lower_char c = x <-> c = x \/ c = ascii_of_N (N_of_ascii x - 32).
Proof.
  intros [-> | ->];
    destruct c as [[|] [|] [|] [|] [|] [|] [|] [|]]; vm_compute;
    split; intro H; try discriminate H; auto;
    destruct H as [H | H]; try discriminate H; reflexivity.
Qed.

Lemma lower_empty (s : string) : lower s = "" <-> s = "".
Proof. destruct s; simpl; split; congruence. Qed.

Lemma lower_is_y (s : string) : lower s = "y" <-> s = "y" \/ s = "Y".
Proof.
  destruct s as [|c s]; simpl.
  - split; [discriminate | intros [H | H]; discriminate H].
  - split.
    + intro H. injection H as H1 H2.
      apply (proj1 (lower_empty s)) in H2. subst s.
      apply (proj1 (lower_char_is c "y" (or_introl eq_refl))) in H1.
      destruct H1 as [-> | ->]; auto.
    + intros [H | H]; injection H as -> ->; reflexivity.
Qed.

Lemma lower_is_n (s : string) : lower s = "n" <-> s = "n" \/ s = "N".
Proof.
  destruct s as [|c s]; simpl.
  - split; [discriminate | intros [H | H]; discriminate H].
  - split.
    + intro H. injection H as H1 H2.
      apply (proj1 (lower_empty s)) in H2. subst s.
      apply (proj1 (lower_char_is c "n" (or_intror eq_refl))) in H1.
      destruct H1 as [-> | ->]; auto.
    + intros [H | H]; injection H as -> ->; reflexivity.
Qed.

End ChoiceFacts.

(** X10: the question about the condensed format (both variants).  Once
    the global [list_all_files] is set, [run_script] reads no answer and
    keeps the mode.  When it is not set, one line is read: the condensed
    mode is chosen exactly when the answer, stripped of surrounding white
    space, is ["y"] or ["Y"]; every other answer lists all files, and the
    warning is printed exactly when the stripped answer is none of ["y"],
    ["Y"], ["n"], ["N"]; with nothing left to read the call fails. *)
Theorem X10_choice_is_asked_once :
  forall (stdin : list string),
    FileTreeMakerV5.choose = CreateFileTree.choose
    /\ (forall chosen,
           CreateFileTree.choose (Some chosen) stdin
           = Some (chosen, false, stdin))
    /\ CreateFileTree.choose None [] = None
    /\ (forall answer,
           exists list_all_files warned,
             CreateFileTree.choose None (answer :: stdin)
             = Some (list_all_files, warned, stdin)
             /\ CreateFileTree.choose (Some list_all_files) stdin
                = Some (list_all_files, false, stdin)
             /\ (list_all_files = false
                 <-> strip answer = "y" \/ strip answer = "Y")
             /\ (warned = false
                 <-> strip answer = "y" \/ strip answer = "Y"
                     \/ strip answer = "n" \/ strip answer = "N")).
Proof.
  intro stdin. split; [reflexivity|]. split; [reflexivity|].
  split; [reflexivity|]. intro answer. unfold CreateFileTree.choose.
  pose proof (ChoiceFacts.lower_is_y (strip answer)) as Y.
  pose proof (ChoiceFacts.lower_is_n (strip answer)) as N.
  destruct (lower (strip answer) =? "y")%string eqn:Ey.
  - apply String.eqb_eq in Ey. exists false, false.
    repeat split; auto; intros _; tauto.
  - apply String.eqb_neq in Ey.
    destruct (lower (strip answer) =? "n")%string eqn:En.
    + apply String.eqb_eq in En. exists true, false.
      repeat split; auto; try discriminate; try tauto.
    + apply String.eqb_neq in En. exists true, true.
      repeat split; auto; try discriminate; tauto.
Qed.

(** ** The order of the listing does not matter *)

Module OrderFacts.

Import Py Run Fs RunFacts WalkerFacts SortFacts.
Local Open Scope list_scope.

Lemma le_antisym (a b : string) : le a b -> le b a -> a = b.
Proof. apply String.leb_antisym. Qed.

Lemma insert_insert (x y : string) (l : list string) :
  insert x (insert y l) = insert y (insert x l).
Proof.
  induction l as [|a l IH]; simpl.
  - destruct (x <=? y)%string eqn:XY, (y <=? x)%string eqn:YX;
      try reflexivity.
    + now rewrite (le_antisym x y XY YX).
    + apply le_total in XY. unfold le in XY. congruence.
  - destruct (y <=? a)%string eqn:YA, (x <=? a)%string eqn:XA; simpl;
      rewrite ?YA, ?XA.
    + destruct (x <=? y)%string eqn:XY, (y <=? x)%string eqn:YX;
        try reflexivity.
      * now rewrite (le_antisym x y XY YX).
      * apply le_total in XY. unfold le in XY. congruence.
    + destruct (x <=? y)%string eqn:XY; [|reflexivity].
      pose proof (le_trans x y a XY YA) as T. unfold le in T. congruence.
    + destruct (y <=? x)%string eqn:YX; [|reflexivity].
      pose proof (le_trans y x a YX XA) as T. unfold le in T. congruence.
    + now rewrite IH.
Qed.

(** [sorted] gives one result for all the orders of its argument. *)
Lemma sorted_permutation (l l' : list string) :
  Permutation l l' -> sorted l = sorted l'.
Proof.
  induction 1 as [|x l l' _ IH|x y l|l l' l'' _ IH1 _ IH2]; simpl.
  - reflexivity.
  - now rewrite IH.
  - apply insert_insert.
  - congruence.
Qed.

(** What two reordered trees have in common at once. *)
Lemma reordered_kind (a b : fsnode) :
  reordered a b ->
  match a, b with
  | File c, File c' => c = c'
  | Dir _, Dir _ | Vanished, Vanished | Denied, Denied => True
  | _, _ => False
  end.
Proof. now destruct 1. Qed.

Lemma lookup_both (raw raw' : list (string * fsnode)) (name : string) :
  Permutation (map fst raw) (map fst raw') ->
  (lookup name raw = None /\ lookup name raw' = None)
  \/ (exists node node',
         lookup name raw = Some node /\ lookup name raw' = Some node').
Proof.
  intro P.
  destruct (lookup name raw) as [node|] eqn:L;
    destruct (lookup name raw') as [node'|] eqn:L'.
  - right. now exists node, node'.
  - exfalso. apply lookup_None in L'. apply L'.
    apply (Permutation_in _ P). apply lookup_In in L.
    apply in_map_iff. now exists (name, node).
  - exfalso. apply lookup_None in L. apply L.
    apply (Permutation_in _ (Permutation_sym P)). apply lookup_In in L'.
    apply in_map_iff. now exists (name, node').
  - now left.
Qed.

Lemma isdir_reordered (raw raw' : list (string * fsnode)) (name : string) :
  reordered (Dir raw) (Dir raw') ->
  os_path_isdir (Dir raw) name = os_path_isdir (Dir raw') name.
Proof.
  intro R. inversion R as [| | |? ? P K]; subst.
  unfold os_path_isdir, child.
  destruct (lookup_both raw raw' name P) as [[-> ->] | (a & b & La & Lb)];
    [reflexivity|].
  rewrite La, Lb. pose proof (reordered_kind _ _ (K _ _ _ La Lb)) as Q.
  destruct a, b; simpl in Q; try contradiction; reflexivity.
Qed.

Lemma zipfile_open_reordered (raw raw' : list (string * fsnode))
    (name : string) :
  reordered (Dir raw) (Dir raw') ->
  zipfile_open (Dir raw) name = zipfile_open (Dir raw') name.
Proof.
  intro R. inversion R as [| | |? ? P K]; subst.
  unfold zipfile_open.
  destruct (lookup_both raw raw' name P) as [[-> ->] | (a & b & La & Lb)];
    [reflexivity|].
  rewrite La, Lb. pose proof (reordered_kind _ _ (K _ _ _ La Lb)) as Q.
  destruct a, b; simpl in Q; try contradiction; subst; reflexivity.
Qed.

Section Walk.

Variable skipped : string -> bool.
Variable list_all_files_func : list string -> string -> fsnode -> action.
Variable format_image_sequences : list string -> string -> fsnode -> action.

Abbreviation walk :=
  (Walker.list_directory_as_tree skipped list_all_files_func
     format_image_sequences).

Hypothesis list_all_local :
  forall files indent r r',
    (forall f, In f files -> zipfile_open r f = zipfile_open r' f) ->
    forall st, list_all_files_func files indent r st
               = list_all_files_func files indent r' st.
Hypothesis condensed_local :
  forall files indent r r',
    (forall f, In f files -> zipfile_open r f = zipfile_open r' f) ->
    forall st, format_image_sequences files indent r st
               = format_image_sequences files indent r' st.

Lemma separate_reordered (raw raw' : list (string * fsnode)) :
  reordered (Dir raw) (Dir raw') ->
  Walker.separate skipped (Dir raw) (sorted (Walker.names (Dir raw)))
  = Walker.separate skipped (Dir raw') (sorted (Walker.names (Dir raw'))).
Proof.
  intro R. rewrite !separate_eq. cbn [Walker.names].
  assert (P : Permutation (map fst raw) (map fst raw'))
    by now inversion R.
  rewrite (sorted_permutation _ _ P).
  f_equal; apply filter_ext; intro n; now rewrite (isdir_reordered _ _ n R).
Qed.

Lemma walk_reordered (t t' : fsnode) :
  reordered t t' ->
  forall indent list_all_files st,
    walk t indent list_all_files st = walk t' indent list_all_files st.
Proof.
  induction 1 as [c| | |raw raw' P K IH]; intros indent list_all_files st;
    try reflexivity.
  assert (R : reordered (Dir raw) (Dir raw')) by now constructor.
  rewrite !walk_dir.
  assert (D : Walker.dirs_of skipped (Dir raw)
              = Walker.dirs_of skipped (Dir raw')).
  { unfold Walker.dirs_of. now rewrite (separate_reordered _ _ R). }
  assert (F : Walker.files_of skipped (Dir raw')
              = Walker.files_of skipped (Dir raw)).
  { unfold Walker.files_of. now rewrite (separate_reordered _ _ R). }
  rewrite D. unfold andthen at 1 3.
  rewrite (for_each_ext _ _
             (fun directory =>
                emit (indent ++ directory ++ "/") ;;
                Walker.descend skipped list_all_files_func
                  format_image_sequences (Dir raw') directory
                  (indent ++ "  ") list_all_files)).
  - destruct (for_each _ _ st) as [st'|e st']; [|reflexivity].
    apply (render_files_local skipped _ _ list_all_local condensed_local);
      [exact F|].
    intros f _. now apply zipfile_open_reordered.
  - intros d st' _. unfold andthen. destruct (emit _ st'); [|reflexivity].
    unfold Walker.descend, child.
    destruct (lookup_both raw raw' d P) as [[-> ->] | (a & b & La & Lb)];
      [reflexivity|].
    rewrite La, Lb. now apply (IH _ _ _ La Lb).
Qed.

End Walk.

Lemma reordered_refl (t : fsnode) : reordered t t.
Proof.
  induction t as [c|raw IH| |] using fsnode_tree_ind; try constructor.
  - apply Permutation_refl.
  - intros name node node' L L'. rewrite L in L'. injection L' as <-.
    apply lookup_In in L. rewrite Forall_forall in IH. apply (IH _ L).
Qed.

Lemma unique_child {A : Type} (raw : list (string * A)) (name : string)
    (x y : A) :
  NoDup (map fst raw) -> In (name, x) raw -> In (name, y) raw -> x = y.
Proof.
  induction raw as [|[n z] raw IH]; simpl; intros N Hx Hy; [contradiction|].
  inversion N as [|? ? Nn N']; subst.
  destruct Hx as [Hx | Hx], Hy as [Hy | Hy].
  - congruence.
  - injection Hx as -> ->. exfalso. apply Nn.
    apply in_map_iff. now exists (name, y).
  - injection Hy as -> ->. exfalso. apply Nn.
    apply in_map_iff. now exists (name, x).
  - now apply IH.
Qed.

(** A listing with distinct names, given in another order. *)
Lemma reordered_permutation (raw raw' : list (string * fsnode)) :
  NoDup (map fst raw) -> Permutation raw raw' ->
  reordered (Dir raw) (Dir raw').
Proof.
  intros N P. constructor.
  - now apply Permutation_map.
  - intros name node node' L L'. apply lookup_In in L, L'.
    apply (Permutation_in _ (Permutation_sym P)) in L'.
    rewrite (unique_child raw name node node' N L L').
    apply reordered_refl.
Qed.

End OrderFacts.

(** X11: the lines do not depend on the order in which [os.listdir]
    reports the entries.  On two trees that hold the same names at every
    level, each name over the same subtree, the listings in any order,
    [list_directory_as_tree] does the same, in both variants and both
    modes; in particular on a listing with distinct names given in two
    different orders. *)
Theorem X11_listing_order_is_irrelevant :
  forall (t t' : fsnode) (indent : string) (list_all_files : bool)
         (st : state),
    reordered t t' ->
    CreateFileTree.list_directory_as_tree t indent list_all_files st
    = CreateFileTree.list_directory_as_tree t' indent list_all_files st
    /\ FileTreeMakerV5.list_directory_as_tree t indent list_all_files st
       = FileTreeMakerV5.list_directory_as_tree t' indent list_all_files st.
Proof.
  intros t t' indent list_all_files st R. split.
  - apply OrderFacts.walk_reordered; try exact R; reflexivity.
  - apply OrderFacts.walk_reordered; try exact R.
    + apply VariantFacts.v5_list_all_local.
    + apply VariantFacts.v5_condensed_local.
Qed.

Lemma X11_listing_order_is_irrelevant_witness :
  CreateFileTree.list_directory_as_tree
    (Dir [("f.txt", File NotArchive); ("X", Dir [("a", File NotArchive)])])
    "" true empty
  = CreateFileTree.list_directory_as_tree
      (Dir [("X", Dir [("a", File NotArchive)]); ("f.txt", File NotArchive)])
      "" true empty
  /\ FileTreeMakerV5.list_directory_as_tree
       (Dir [("f.txt", File NotArchive); ("X", Dir [("a", File NotArchive)])])
       "" true empty
     = FileTreeMakerV5.list_directory_as_tree
         (Dir [("X", Dir [("a", File NotArchive)]);
               ("f.txt", File NotArchive)])
         "" true empty.
Proof.
  apply (X11_listing_order_is_irrelevant
           (Dir [("f.txt", File NotArchive);
                 ("X", Dir [("a", File NotArchive)])])
           (Dir [("X", Dir [("a", File NotArchive)]);
                 ("f.txt", File NotArchive)])
           "" true empty).
  apply OrderFacts.reordered_permutation.
  - repeat constructor; simpl; intuition discriminate.
  - apply perm_swap.
Defined.

(** ** Every file is shown, once *)

Module RepresentFacts.

Import Py Run Fs Shape Spec GroupFacts.
Local Open Scope list_scope.

Lemma member_counts (files : list string) (f : string) (k : string * string) :
  In f files -> key_of f = Some k -> 1 <= List.length (members files k).
Proof.
  intros I K. assert (M : In f (members files k)) by now apply In_members.
  destruct (members files k); [contradiction | simpl; lia].
Qed.

Lemma rendered_iff (files : list string) (f : string) :
  In f (rendered files)
  <-> In f files
      /\ (key_of f = None
          \/ exists k, key_of f = Some k
                       /\ List.length (members files k) = 1).
Proof.
  unfold rendered. rewrite SortFacts.In_sorted, in_app_iff. split.
  - intros [H | H].
    + unfold non_matching in H. apply filter_In in H as [I N].
      split; [exact I|]. left. apply negb_true_iff in N.
      destruct (key_of f) as [k|] eqn:K; [|reflexivity].
      assert (M : is_member f = true)
        by (apply CondenserFacts.is_member_key_of; now exists k).
      congruence.
    + apply in_flat_map in H as (k & Hk & Hf).
      apply In_members in Hf as [I K]. split; [exact I|]. right.
      exists k. split; [exact K|]. unfold single_groups in Hk.
      apply filter_In in Hk as [_ Hk]. now apply Nat.eqb_eq.
  - intros [I [K | (k & K & L)]].
    + left. unfold non_matching. apply filter_In. split; [exact I|].
      apply negb_true_iff. destruct (is_member f) eqn:M; [|reflexivity].
      apply CondenserFacts.is_member_key_of in M as [k M]. congruence.
    + right. apply in_flat_map. exists k. split.
      * unfold single_groups. apply filter_In. split.
        -- apply In_keys. now exists f.
        -- now apply Nat.eqb_eq.
      * now apply In_members.
Qed.

Lemma condensed_iff (files : list string) (k : string * string) :
  In k (condensed_groups files)
  <-> (exists f, In f files /\ key_of f = Some k)
      /\ 2 <= List.length (members files k).
Proof.
  unfold condensed_groups. now rewrite filter_In, Nat.leb_le, In_keys.
Qed.

End RepresentFacts.

(** X12: the condensed mode of the second variant loses no file and
    invents none.  [format_image_sequences] appends the condensed lines
    of [condensed_groups files] and then renders [rendered files]; every
    file of the list is either rendered itself, or belongs to a group that
    has a condensed line, never both; a name that is rendered is a file of
    the list, and a group with a condensed line has two files of the list
    or more. *)
Theorem X12_condensed_mode_shows_every_file_once :
  forall (files : list string) (indent : string) (root_path : fsnode)
         (st : state),
    FileTreeMakerV5.format_image_sequences files indent root_path st
    = for_each (rendered files)
        (fun filename =>
           FileTreeMakerV5.list_file_or_zip filename indent root_path)
        (emit_all (map (condensed_line indent) (condensed_groups files)) st)
    /\ (forall f,
           In f files ->
           (In f (rendered files)
            /\ forall k, key_of f = Some k -> ~ In k (condensed_groups files))
           \/ (~ In f (rendered files)
               /\ exists k, key_of f = Some k
                            /\ In k (condensed_groups files)))
    /\ (forall f, In f (rendered files) -> In f files)
    /\ (forall k,
           In k (condensed_groups files) ->
           2 <= List.length (members files k)
           /\ forall f, In f (members files k) ->
                        In f files /\ key_of f = Some k).
Proof.
  intros files indent root_path st. split; [|split; [|split]].
  - rewrite CondenserFacts.format_image_sequences_v5.
    unfold condenser_v5, andthen. now rewrite RunFacts.for_each_emit.
  - intros f I. destruct (key_of f) as [k|] eqn:K.
    + pose proof (RepresentFacts.member_counts _ _ _ I K) as L.
      destruct (Nat.eq_dec (List.length (members files k)) 1) as [E | N].
      * left. split.
        -- apply RepresentFacts.rendered_iff. split; [exact I|].
           right. now exists k.
        -- intros k' K'. assert (k' = k) by congruence. subst k'.
           rewrite RepresentFacts.condensed_iff. lia.
      * right. split.
        -- rewrite RepresentFacts.rendered_iff.
           intros [_ [H | (k' & K' & L')]]; [congruence|].
           assert (k' = k) by congruence. subst k'. contradiction.
        -- exists k. split; [reflexivity|].
           apply RepresentFacts.condensed_iff. split; [now exists f | lia].
    + left. split.
      * apply RepresentFacts.rendered_iff. split; [exact I | now left].
      * intros k K'. congruence.
  - intros f H. now apply RepresentFacts.rendered_iff in H.
  - intros k H. apply RepresentFacts.condensed_iff in H as [_ L].
    split; [exact L|]. intros f Hf. now apply GroupFacts.In_members.
Qed.

(** ** Directories with nothing to show, files with nothing to trim *)

Module EdgeFacts.

Import Py Run Fs RunFacts WalkerFacts.
Local Open Scope list_scope.

Lemma filter_nothing {A : Type} (p : A -> bool) (l : list A) :
  (forall x, In x l -> p x = false) -> filter p l = [].
Proof.
  induction l as [|a l IH]; intro H; simpl; [reflexivity|].
  rewrite (H a (or_introl eq_refl)). apply IH. intros x Hx. apply H.
  now right.
Qed.

Section Walk.

Variable skipped : string -> bool.
Variable list_all_files_func : list string -> string -> fsnode -> action.
Variable format_image_sequences : list string -> string -> fsnode -> action.

Hypothesis list_all_nil :
  forall indent r st, list_all_files_func [] indent r st = Returned st.
Hypothesis condensed_nil :
  forall indent r st, format_image_sequences [] indent r st = Returned st.

Lemma walk_all_skipped (raw : list (string * fsnode)) (indent : string)
    (list_all_files : bool) (st : state) :
  (forall entry, In entry (map fst raw) -> skipped entry = true) ->
  Walker.list_directory_as_tree skipped list_all_files_func
    format_image_sequences (Dir raw) indent list_all_files st
  = Returned st.
Proof.
  intro H. rewrite walk_dir.
  assert (S : Walker.separate skipped (Dir raw)
                (sorted (Walker.names (Dir raw))) = ([], [])).
  { rewrite separate_eq. cbn [Walker.names].
    f_equal; apply filter_nothing; intros x Hx;
      apply (proj1 (SortFacts.In_sorted _ _)) in Hx;
      now rewrite (H x Hx). }
  unfold Walker.dirs_of, Walker.render_files, Walker.files_of.
  rewrite S. cbn [fst snd for_each]. unfold andthen, skip.
  destruct list_all_files; [apply list_all_nil | apply condensed_nil].
Qed.

End Walk.

Lemma concat_cons (a : string) (l : list string) :
  String.concat "" (a :: l) = (a ++ String.concat "" l)%string.
Proof.
  destruct l as [|b l]; cbn [String.concat];
    [now rewrite StringFacts.append_nil_r | reflexivity].
Qed.

(** Cutting a text into its lines and writing them again gives the text. *)
Lemma writelines_keepends (s : string) : writelines (keepends s) = s.
Proof.
  unfold writelines. induction s as [|c s IH]; [reflexivity|].
  cbn [keepends]. destruct (is_newline c).
  - rewrite concat_cons, IH. reflexivity.
  - destruct (keepends s) as [|line lines].
    + cbn in IH. subst s. reflexivity.
    + rewrite concat_cons in *. cbn [append]. now rewrite IH.
Qed.

Lemma adjusted_nothing (lines : list string) :
  (forall line, In line lines -> leading_spaces line < 2) ->
  CreateFileTree.adjusted_lines lines = lines.
Proof.
  intro H. unfold CreateFileTree.adjusted_lines.
  rewrite <- (map_id lines) at 2. apply map_ext_in. intros line I.
  now rewrite (IndentFacts.few_spaces_not_indented _ (H line I)).
Qed.

End EdgeFacts.

(** X13: a directory in which every entry is skipped (an empty one among
    them) makes [list_directory_as_tree] return at once: nothing is
    appended and nothing printed, in either mode.  With the names each
    variant skips. *)
Theorem X13_directory_with_nothing_to_show :
  forall (raw : list (string * fsnode)) (indent : string)
         (list_all_files : bool) (st : state),
    ((forall entry, In entry (map fst raw) ->
                    CreateFileTree.skipped entry = true) ->
     CreateFileTree.list_directory_as_tree (Dir raw) indent list_all_files st
     = Returned st)
    /\ ((forall entry, In entry (map fst raw) ->
                       FileTreeMakerV5.skipped entry = true) ->
        FileTreeMakerV5.list_directory_as_tree (Dir raw) indent
          list_all_files st
        = Returned st).
Proof.
  intros raw indent list_all_files st. split; intro H.
  - apply EdgeFacts.walk_all_skipped; try exact H; reflexivity.
  - apply EdgeFacts.walk_all_skipped; try exact H; reflexivity.
Qed.

Lemma X13_directory_with_nothing_to_show_witness :
  FileTreeMakerV5.list_directory_as_tree
    (Dir [(".git", Dir [("HEAD", File NotArchive)]);
          ("file_list.pdf", File NotArchive);
          (".DS_Store", File NotArchive)])
    "  " false empty
  = Returned empty.
Proof.
  apply (proj2 (X13_directory_with_nothing_to_show
                  [(".git", Dir [("HEAD", File NotArchive)]);
                   ("file_list.pdf", File NotArchive);
                   (".DS_Store", File NotArchive)]
                  "  " false empty)).
  intros entry [<- | [<- | [<- | []]]]; reflexivity.
Defined.

(** X14: the indentation pass on a file with nothing to trim.  Reading a
    text into lines and writing the lines again gives the text back; so a
    file in which no line begins with two spaces comes out of
    [adjust_indentation_in_file] as it was read, that is, with its line
    endings turned into ["\n"] and nothing else changed. *)
Theorem X14_nothing_to_trim :
  forall content : string,
    writelines (keepends content) = content
    /\ ((forall line, In line (readlines content) ->
                      leading_spaces line < 2) ->
        CreateFileTree.adjust_indentation_in_file content
        = universal_newlines content
        /\ FileTreeMakerV5.adjust_indentation_in_file content
           = universal_newlines content).
Proof.
  intro content. split; [apply EdgeFacts.writelines_keepends|].
  intro H.
  assert (E : CreateFileTree.adjust_indentation_in_file content
              = universal_newlines content).
  { unfold CreateFileTree.adjust_indentation_in_file.
    rewrite (EdgeFacts.adjusted_nothing _ H). unfold readlines.
    apply EdgeFacts.writelines_keepends. }
  split; exact E.
Qed.

Lemma X14_nothing_to_trim_witness :
  CreateFileTree.adjust_indentation_in_file ("X/" ++ newline ++ " a")
  = universal_newlines ("X/" ++ newline ++ " a").
Proof.
  apply (proj2 (X14_nothing_to_trim ("X/" ++ newline ++ " a"))).
  intros line [<- | [<- | []]]; simpl; lia.
Defined.

(** ** Where the two variants agree *)

Module AgreeFacts.

Import Py Run Fs RunFacts WalkerFacts.
Local Open Scope list_scope.







End AgreeFacts.



(** ** A group is shown once *)

Module DistinctFacts.

Import Py Run Fs Shape Spec StringFacts ReFacts GroupFacts.
Local Open Scope list_scope.

Lemma key_ext_words (files : list string) (k : string * string) :
  In k (keys files) -> all Re.is_word (snd k) = true.
Proof.
  intro I. apply In_keys in I as (f & _ & K). unfold key_of in K.
  destruct (Re.pattern_match f) as [[[b fr] e]|] eqn:M; [|discriminate].
  injection K as <-. apply pattern_match_iff in M.
  destruct M as (t & _ & _ & _ & _ & _ & _ & A). exact A.
Qed.

Lemma words_not_dot (e : string) :
  all Re.is_word e = true -> all not_dot e = true.
Proof.
  apply all_impl. intros c W. unfold not_dot. now rewrite (word_not_dot _ W).
Qed.

Lemma condensed_line_inj (indent : string) (k k' : string * string) :
  all Re.is_word (snd k) = true -> all Re.is_word (snd k') = true ->
  condensed_line indent k = condensed_line indent k' -> k = k'.
Proof.
  destruct k as [b e], k' as [b' e']. unfold condensed_line. cbn [fst snd].
  intros W W' H. apply append_inv_head in H.
  assert (R : forall x y : string,
             (x ++ "[image sequence]." ++ y)%string
             = ((x ++ "[image sequence]") ++ "." ++ y)%string).
  { intros x y. now rewrite append_assoc. }
  rewrite !R in H.
  apply last_dot in H as [H1 H2]; try now apply words_not_dot.
  apply append_inv_tail in H1. now subst.
Qed.

Lemma condensed_lines_distinct (files : list string) (indent : string)
    (ks : list (string * string)) :
  NoDup ks -> incl ks (keys files) ->
  NoDup (map (condensed_line indent) ks).
Proof.
  intros N I. apply Finite.Injective_map_NoDup_in; [|exact N].
  intros k k' Hk Hk'. apply condensed_line_inj.
  - apply (key_ext_words files). now apply I.
  - apply (key_ext_words files). now apply I.
Qed.

End DistinctFacts.

(** X16: no sequence is shown twice.  The condensed lines that
    [format_image_sequences] appends for one directory are pairwise
    different, in both variants: one line for each pair of base and
    extension, whatever the order and the number of the frames. *)
Theorem X16_condensed_lines_are_distinct :
  forall (files : list string) (indent : string),
    lines_of (CreateFileTree.format_image_sequences files indent)
    = (map (condensed_line indent) (keys files)
       ++ map (append indent) (non_matching files))%list
    /\ NoDup (map (condensed_line indent) (keys files))
    /\ NoDup (map (condensed_line indent) (condensed_groups files)).
Proof.
  intros files indent. split; [apply CountFacts.v1_condensed_lines|]. split.
  - apply (DistinctFacts.condensed_lines_distinct files).
    + apply GroupFacts.NoDup_keys.
    + apply incl_refl.
  - apply (DistinctFacts.condensed_lines_distinct files).
    + apply GroupFacts.NoDup_filter. apply GroupFacts.NoDup_keys.
    + intros k H. unfold condensed_groups in H.
      now apply filter_In in H.
Qed.

(** ** Where the two modes agree *)

Module ModeFacts.

Import Py Run Fs Shape Spec Trees RunFacts WalkerFacts SortFacts.
Local Open Scope list_scope.






Section Walk.

Variable skipped : string -> bool.
Variable list_all_files_func : list string -> string -> fsnode -> action.
Variable format_image_sequences : list string -> string -> fsnode -> action.

Hypothesis modes_agree :
  forall files indent root_path st,
    StronglySorted le files ->
    (forall f, In f files -> is_member f = false) ->
    format_image_sequences files indent root_path st
    = list_all_files_func files indent root_path st.


End Walk.

End ModeFacts.


